(** * openHealth: the Local Health Store (src/services/db.ts)

    A shallow embedding of the IndexedDB storage layer of openHealth and of
    the page code that feeds it (AddReading's bulk paste), with the
    properties of the store proved about it.

    Conventions of the embedding.
    - A JavaScript string is a [string] whose characters are the UTF-16
      code units below 256.
    - A field declared [number] holds an IEEE double ([spec_float]) or,
      once a record has been through JSON, [null].
    - An optional field of a record is [None] when the property is absent
      or [undefined]: the code reads the properties of a record and no more.
      The one place that tells the two apart is the object spread of
      [savePreferences], which copies a property that is there with the
      value [undefined]; the object handed to it is therefore known by the
      properties it has ([GivenPreferences]).
    - The text handed to [importProfile] is any text: what [JSON.parse]
      makes of it is any JSON value ([JSON]). The object stores hold
      records of the types the schema declares for them.
    - An object store with [keyPath: 'id'] is a [gmap] from the key to the
      record; [put] files a record under its own [id].
    - The database is the one [initDB()] resolves to: opened, upgraded and
      seeded.
    - A write request can fail (quota, device fault, the page going away).
      A failed request aborts the transaction it belongs to, which rolls
      back that transaction's writes, and the awaiting code throws. *)

From Stdlib Require Import Strings.String Strings.Ascii ZArith Floats.SpecFloat.
From stdpp Require Import gmap strings list fin_maps sorting.

Open Scope string_scope.

(** ** JavaScript values used by the store *)

(** A [number]-typed property at run time. *)
Inductive jsnumber : Type :=
  | JNull
  | JNum (x : spec_float).

Definition NaN : jsnumber := JNum S754_nan.

(** [JSON.parse(JSON.stringify(x))] for a number: NaN and the infinities
    are written as [null], negative zero as [0], any other double reads
    back as itself. *)
Definition json_number (x : jsnumber) : jsnumber :=
  match x with
  | JNull => JNull
  | JNum (S754_zero _) => JNum (S754_zero false)
  | JNum (S754_finite s m e) => JNum (S754_finite s m e)
  | JNum (S754_infinity _) => JNull
  | JNum S754_nan => JNull
  end.

(** The numbers JSON carries unchanged: the finite ones, but for negative
    zero (and [null], if the field holds it already). *)
Definition json_stable (x : jsnumber) : Prop := json_number x = x.

(** *** String.prototype functions *)

(** [\s] of a regular expression, and the characters [trim] strips. *)
Definition is_space (c : ascii) : bool :=
  let n := nat_of_ascii c in
  ((9 <=? n)%nat && (n <=? 13)%nat) || (n =? 32)%nat || (n =? 160)%nat.

Definition lower_char (c : ascii) : ascii :=
  let n := nat_of_ascii c in
  if ((65 <=? n)%nat && (n <=? 90)%nat)
     || ((192 <=? n)%nat && (n <=? 222)%nat && negb (n =? 215)%nat)
  then ascii_of_nat (n + 32) else c.

Fixpoint toLowerCase (s : string) : string :=
  match s with
  | EmptyString => EmptyString
  | String c s' => String (lower_char c) (toLowerCase s')
  end.

(** [s.replace(/\s+/g, '-')]: every maximal run of white space becomes one
    hyphen. [in_run] tells that the previous character was white space. *)
Fixpoint replace_spaces (in_run : bool) (s : string) : string :=
  match s with
  | EmptyString => EmptyString
  | String c s' =>
      if is_space c
      then (if in_run then replace_spaces true s'
            else String "-" (replace_spaces true s'))
      else String c (replace_spaces false s')
  end.

Fixpoint trimStart (s : string) : string :=
  match s with
  | EmptyString => EmptyString
  | String c s' => if is_space c then trimStart s' else s
  end.

Fixpoint trimEnd (s : string) : string :=
  match s with
  | EmptyString => EmptyString
  | String c s' =>
      match trimEnd s' with
      | EmptyString => if is_space c then EmptyString else String c EmptyString
      | t => String c t
      end
  end.

Definition trim (s : string) : string := trimEnd (trimStart s).

(** [s.split(sep)] for a one-character separator. *)
Fixpoint split (sep : ascii) (s : string) : list string :=
  match s with
  | EmptyString => [EmptyString]
  | String c s' =>
      if Ascii.eqb c sep then EmptyString :: split sep s'
      else match split sep s' with
           | h :: t => String c h :: t
           | [] => [String c EmptyString]
           end
  end.

(** ** src/types.ts *)

Record Patient := {
  p_id : string;
  p_name : string;
  p_age : option jsnumber;
}.

Record TestReference := {
  ref_id : string;
  ref_testName : string;
  ref_category : option string;
  ref_unit : string;
  ref_defaultIdealMin : option jsnumber;
  ref_defaultIdealMax : option jsnumber;
}.

Record TestReading := {
  r_id : string;
  r_patientId : string;
  r_testName : string;
  r_date : string;
  r_reason : option string;
  r_value : jsnumber;
  r_idealMin : option jsnumber;
  r_idealMax : option jsnumber;
  r_unit : string;
  r_notes : option string;
}.

Inductive MemberSort := ByName | ByLatest | ByAge.
Inductive TestSort := TestsByName | TestsByLatest | TestsByCategory.

Record UserPreferences := {
  sortMembersBy : option MemberSort;
  filterMembersQuery : option string;
  sortTestsBy : option TestSort;
  filterTestsQuery : option string;
}.

Record UserProfile := {
  up_preferences : UserPreferences;
  up_patients : list Patient;
  up_readings : list TestReading;
  up_testReferences : list TestReference;
}.

(** The empty object [{}] as a [UserPreferences]. *)
Definition no_preferences : UserPreferences :=
  {| sortMembersBy := None; filterMembersQuery := None;
     sortTestsBy := None; filterTestsQuery := None |}.

(** A [UserPreferences] object as a spread sees it, by the properties it
    has: a property is missing ([None]), or it is there, with a value
    ([Some (Some v)]) or with the value [undefined] ([Some None]). *)
Record GivenPreferences := {
  given_sortMembersBy : option (option MemberSort);
  given_filterMembersQuery : option (option string);
  given_sortTestsBy : option (option TestSort);
  given_filterTestsQuery : option (option string);
}.

(** [{ ...existing, ...prefs }], as its properties read: a property [prefs]
    has is copied, also when its value is [undefined]; a property [prefs]
    does not have reads as it does in [existing]. *)
Definition spread (existing : UserPreferences) (prefs : GivenPreferences) : UserPreferences :=
  {| sortMembersBy :=
       match given_sortMembersBy prefs with Some v => v | None => sortMembersBy existing end;
     filterMembersQuery :=
       match given_filterMembersQuery prefs with
       | Some v => v | None => filterMembersQuery existing end;
     sortTestsBy :=
       match given_sortTestsBy prefs with Some v => v | None => sortTestsBy existing end;
     filterTestsQuery :=
       match given_filterTestsQuery prefs with
       | Some v => v | None => filterTestsQuery existing end |}.

(** ** The database: HealthTrackerDB *)

Record DB := {
  patients : gmap string Patient;
  readings : gmap string TestReading;
  testReferences : gmap string TestReference;
  preferences : gmap string UserPreferences;
}.

Definition emptyDB : DB :=
  {| patients := ∅; readings := ∅; testReferences := ∅; preferences := ∅ |}.

Definition with_patients (f : gmap string Patient → gmap string Patient) (db : DB) : DB :=
  {| patients := f (patients db); readings := readings db;
     testReferences := testReferences db; preferences := preferences db |}.

Definition with_readings (f : gmap string TestReading → gmap string TestReading) (db : DB) : DB :=
  {| patients := patients db; readings := f (readings db);
     testReferences := testReferences db; preferences := preferences db |}.

Definition with_testReferences (f : gmap string TestReference → gmap string TestReference) (db : DB) : DB :=
  {| patients := patients db; readings := readings db;
     testReferences := f (testReferences db); preferences := preferences db |}.

Definition with_preferences (f : gmap string UserPreferences → gmap string UserPreferences) (db : DB) : DB :=
  {| patients := patients db; readings := readings db;
     testReferences := testReferences db; preferences := f (preferences db) |}.

(** *** Reading an object store *)

(** IndexedDB hands records out in ascending key order. *)
Definition key_le {V} (a b : string * V) : Prop := String.leb a.1 b.1 = true.

#[global] Instance key_le_dec {V} (a b : string * V) : Decision (key_le a b).
Proof. unfold key_le. apply _. Defined.

(** The records of a store with their keys, as a cursor walks them. *)
Definition entries {V} (m : gmap string V) : list (string * V) :=
  merge_sort key_le (map_to_list m).

(** [store.getAll()] *)
Definition getAll {V} (m : gmap string V) : list V := (entries m).*2.

(** The entries a cursor opened at [key] on an index over the string
    property [prop] visits. *)
Definition index_cursor {V} (prop : V → string) (key : string) (m : gmap string V)
  : list (string * V) :=
  filter (λ entry, prop entry.2 = key) (entries m).

(** [index.getAll(key)]: the records under [key] in the index. *)
Definition index_getAll {V} (prop : V → string) (key : string) (m : gmap string V) : list V :=
  (index_cursor prop key m).*2.

(** *** Writing an object store *)

(** [store.put(value)] on a store with [keyPath: 'id']. *)
Definition put_patient (p : Patient) : DB → DB :=
  with_patients (insert (p_id p) p).
Definition put_reading (r : TestReading) : DB → DB :=
  with_readings (insert (r_id r) r).
Definition put_testReference (ref : TestReference) : DB → DB :=
  with_testReferences (insert (ref_id ref) ref).
(** [store.put(value, key)] on the preferences store, which has no key path. *)
Definition put_preferences (prefs : UserPreferences) (key : string) : DB → DB :=
  with_preferences (insert key prefs).

(** ** Asynchronous code over the database *)

Inductive error : Type :=
  | SyntaxError                (* JSON.parse *)
  | RangeError                 (* Date.prototype.toISOString *)
  | TypeError                  (* a property of null, for...of over what is not iterable *)
  | DataError                  (* put() of a value with no valid key at the key path *)
  | Error (message : string)   (* throw new Error(message) *)
  | StorageFault.              (* a rejected IndexedDB request *)

(** How many write requests the storage engine still serves before one
    fails; [None] when none ever fails. *)
Definition faults : Type := option nat.

(** What a piece of code leaves behind: the value it returns or the error
    it throws, the content of the database, and the faults still to come. *)
Inductive result (A : Type) : Type :=
  | Ok (a : A) (db : DB) (f : faults)
  | Thrown (e : error) (db : DB) (f : faults).
Arguments Ok {A} a db f.
Arguments Thrown {A} e db f.

Definition M (A : Type) : Type := DB → faults → result A.

#[global] Instance M_ret : MRet M := λ A a db f, Ok a db f.
#[global] Instance M_bind : MBind M := λ A B k m db f,
  match m db f with
  | Ok a db' f' => k a db' f'
  | Thrown e db' f' => Thrown e db' f'
  end.

Definition throw {A} (e : error) : M A := λ db f, Thrown e db f.

Definition try_catch {A} (body : M A) (handler : error → M A) : M A := λ db f,
  match body db f with
  | Ok a db' f' => Ok a db' f'
  | Thrown e db' f' => handler e db' f'
  end.

(** A read request. *)
Definition read {A} (g : DB → A) : M A := λ db f, Ok (g db) db f.

(** A write request: served, or rejected when the fault is due. *)
Definition write (w : DB → DB) : M unit := λ db f,
  match f with
  | None => Ok () (w db) None
  | Some (S n) => Ok () (w db) (Some n)
  | Some O => Thrown StorageFault db None
  end.

(** [const tx = db.transaction(stores, mode); ...; await tx.done]: the
    requests of [body] are committed together. When one of them is rejected
    the transaction aborts and the database is as it was when it began. An
    exception the code itself throws between two requests aborts nothing:
    the requests served so far are committed. *)
Definition transaction {A} (body : M A) : M A := λ db f,
  match body db f with
  | Ok a db' f' => Ok a db' f'
  | Thrown StorageFault _ f' => Thrown StorageFault db f'
  | Thrown e db' f' => Thrown e db' f'
  end.

(** [for (const x of l) await body(x)] *)
Fixpoint for_of {A} (l : list A) (body : A → M unit) : M unit :=
  match l with
  | [] => mret ()
  | x :: l' => body x ;; for_of l' body
  end.

(** The database a run leaves, whether it returned or threw. *)
Definition final_db {A} (r : result A) : DB :=
  match r with Ok _ db _ => db | Thrown _ db _ => db end.

Definition thrown {A} (r : result A) : option error :=
  match r with Ok _ _ _ => None | Thrown e _ _ => Some e end.

Definition returned {A} (r : result A) : option A :=
  match r with Ok a _ _ => Some a | Thrown _ _ _ => None end.

(** The database after a run in which no request fails. *)
Definition exec {A} (m : M A) (db : DB) : DB := final_db (m db None).

(** ** src/services/db.ts *)

(** *** Patients *)

Definition getPatients : M (list Patient) :=
  read (λ db, getAll (patients db)).

Definition savePatient (patient : Patient) : M unit :=
  transaction (write (put_patient patient)).

Definition deletePatient (id : string) : M unit :=
  transaction (write (with_patients (delete id))) ;;
  (* Also delete associated readings *)
  transaction (
    cursor ← read (λ db, index_cursor r_patientId id (readings db));
    for_of cursor (λ entry, write (with_readings (delete entry.1)))).

(** *** Readings *)

Definition getPatientReadings (patientId : string) : M (list TestReading) :=
  read (λ db, index_getAll r_patientId patientId (readings db)).

(** The reference [saveReading] and [bulkSaveReadings] make up from a
    reading. *)
Definition derived_id (testName : string) : string :=
  replace_spaces false (toLowerCase testName).

Definition derived_reference (reading : TestReading) : TestReference :=
  {| ref_id := derived_id (r_testName reading);
     ref_testName := r_testName reading;
     ref_category := None;
     ref_unit := r_unit reading;
     ref_defaultIdealMin := r_idealMin reading;
     ref_defaultIdealMax := r_idealMax reading |}.

Definition saveReading (reading : TestReading) : M unit :=
  transaction (write (put_reading reading)) ;;
  (* Auto-upsert TestReference based on reading *)
  existingRefs ← read (λ db,
    index_getAll ref_testName (r_testName reading) (testReferences db));
  if decide (length existingRefs = 0)
  then transaction (write (put_testReference (derived_reference reading)))
  else mret ().

Definition bulkSaveReadings (readings : list TestReading) : M unit :=
  transaction (
    for_of readings (λ reading,
      write (put_reading reading) ;;
      (* Check if test reference exists and create if not *)
      existingRefs ← read (λ db,
        index_getAll ref_testName (r_testName reading) (testReferences db));
      if decide (length existingRefs = 0)
      then write (put_testReference (derived_reference reading))
      else mret ())).

(** *** References *)

Definition getTestReferences : M (list TestReference) :=
  read (λ db, getAll (testReferences db)).

Definition saveTestReference (ref : TestReference) : M unit :=
  transaction (write (put_testReference ref)).

(** *** Preferences *)

Definition getPreferences : M UserPreferences :=
  prefs ← read (λ db, preferences db !! "user_prefs");
  mret (default no_preferences prefs).

Definition savePreferences (prefs : GivenPreferences) : M unit :=
  (* Merge with existing *)
  existing ← getPreferences;
  transaction (write (put_preferences (spread existing prefs) "user_prefs")).

(** *** JSON *)

(** What [JSON.parse] returns. An object is the list of its properties,
    each name once. *)
#[warnings="-register-all"]
Inductive JSON : Type :=
  | JSON_null
  | JSON_boolean (b : bool)
  | JSON_number (x : spec_float)
  | JSON_string (s : string)
  | JSON_array (items : list JSON)
  | JSON_object (properties : list (string * JSON)).

(** A JSON text, known by what [JSON.parse] makes of it. *)
Inductive JsonText : Type :=
  | NotJson
  | Json (value : JSON).

Definition JSON_parse (text : JsonText) : M JSON :=
  match text with
  | NotJson => throw SyntaxError
  | Json value => mret value
  end.

(** [JSON.stringify(object, null, 2)]: the text, known by the value it
    parses to. [value] is what is written of the object, which the
    functions [JSON_of_...] below give for the records. *)
Definition JSON_stringify (value : JSON) : JsonText := Json value.

(** **** What JSON.stringify writes of the records *)

(** A number: NaN and the infinities are written [null], negative zero
    [0]. *)
Definition JSON_of_number (x : jsnumber) : JSON :=
  match json_number x with
  | JNull => JSON_null
  | JNum y => JSON_number y
  end.

(** A property of the object written: one whose value is [undefined] is
    left out. *)
Definition property (name : string) (value : option JSON) : list (string * JSON) :=
  match value with
  | Some v => [(name, v)]
  | None => []
  end.

Definition JSON_of_patient (p : Patient) : JSON :=
  JSON_object (
    property "id" (Some (JSON_string (p_id p)))
    ++ property "name" (Some (JSON_string (p_name p)))
    ++ property "age" (JSON_of_number <$> p_age p)).

Definition JSON_of_reading (r : TestReading) : JSON :=
  JSON_object (
    property "id" (Some (JSON_string (r_id r)))
    ++ property "patientId" (Some (JSON_string (r_patientId r)))
    ++ property "testName" (Some (JSON_string (r_testName r)))
    ++ property "date" (Some (JSON_string (r_date r)))
    ++ property "reason" (JSON_string <$> r_reason r)
    ++ property "value" (Some (JSON_of_number (r_value r)))
    ++ property "idealMin" (JSON_of_number <$> r_idealMin r)
    ++ property "idealMax" (JSON_of_number <$> r_idealMax r)
    ++ property "unit" (Some (JSON_string (r_unit r)))
    ++ property "notes" (JSON_string <$> r_notes r)).

Definition JSON_of_testReference (ref : TestReference) : JSON :=
  JSON_object (
    property "id" (Some (JSON_string (ref_id ref)))
    ++ property "testName" (Some (JSON_string (ref_testName ref)))
    ++ property "category" (JSON_string <$> ref_category ref)
    ++ property "unit" (Some (JSON_string (ref_unit ref)))
    ++ property "defaultIdealMin" (JSON_of_number <$> ref_defaultIdealMin ref)
    ++ property "defaultIdealMax" (JSON_of_number <$> ref_defaultIdealMax ref)).

Definition JSON_of_MemberSort (sort : MemberSort) : JSON :=
  JSON_string match sort with ByName => "name" | ByLatest => "latest" | ByAge => "age" end.

Definition JSON_of_TestSort (sort : TestSort) : JSON :=
  JSON_string match sort with
              | TestsByName => "name" | TestsByLatest => "latest"
              | TestsByCategory => "category"
              end.

Definition JSON_of_preferences (prefs : UserPreferences) : JSON :=
  JSON_object (
    property "sortMembersBy" (JSON_of_MemberSort <$> sortMembersBy prefs)
    ++ property "filterMembersQuery" (JSON_string <$> filterMembersQuery prefs)
    ++ property "sortTestsBy" (JSON_of_TestSort <$> sortTestsBy prefs)
    ++ property "filterTestsQuery" (JSON_string <$> filterTestsQuery prefs)).

Definition JSON_of_profile (profile : UserProfile) : JSON :=
  JSON_object (
    property "patients" (Some (JSON_array (JSON_of_patient <$> up_patients profile)))
    ++ property "readings" (Some (JSON_array (JSON_of_reading <$> up_readings profile)))
    ++ property "testReferences"
         (Some (JSON_array (JSON_of_testReference <$> up_testReferences profile)))
    ++ property "preferences" (Some (JSON_of_preferences (up_preferences profile)))).

(** What a record reads back as, once written and parsed again. *)
Definition json_patient (p : Patient) : Patient :=
  {| p_id := p_id p; p_name := p_name p; p_age := json_number <$> p_age p |}.

Definition json_reading (r : TestReading) : TestReading :=
  {| r_id := r_id r; r_patientId := r_patientId r; r_testName := r_testName r;
     r_date := r_date r; r_reason := r_reason r;
     r_value := json_number (r_value r);
     r_idealMin := json_number <$> r_idealMin r;
     r_idealMax := json_number <$> r_idealMax r;
     r_unit := r_unit r; r_notes := r_notes r |}.

Definition json_testReference (ref : TestReference) : TestReference :=
  {| ref_id := ref_id ref; ref_testName := ref_testName ref;
     ref_category := ref_category ref; ref_unit := ref_unit ref;
     ref_defaultIdealMin := json_number <$> ref_defaultIdealMin ref;
     ref_defaultIdealMax := json_number <$> ref_defaultIdealMax ref |}.

(** **** Reading a parsed value *)

(** The own property [name] of an object; [None] is [undefined]. *)
Fixpoint own_property (name : string) (properties : list (string * JSON)) : option JSON :=
  match properties with
  | [] => None
  | (k, v) :: rest => if decide (k = name) then Some v else own_property name rest
  end.

(** [data.name], for the names the import reads ([patients], [readings],
    [patient], [testReferences], [preferences]): a TypeError on [null],
    [undefined] on a value that is no object or has no such property. *)
Definition get (data : JSON) (name : string) : M (option JSON) :=
  match data with
  | JSON_null => throw TypeError
  | JSON_object properties => mret (own_property name properties)
  | _ => mret None
  end.

(** The value when it is truthy: anything but [undefined], [null],
    [false], [0], [NaN] and the empty string. *)
Definition truthy (value : option JSON) : option JSON :=
  match value with
  | Some (JSON_boolean true) | Some (JSON_array _) | Some (JSON_object _) => value
  | Some (JSON_number x) =>
      match x with S754_zero _ | S754_nan => None | _ => value end
  | Some (JSON_string s) => if decide (s = "") then None else value
  | _ => None
  end.

(** The strings [for...of] draws from a string, one per character. *)
Definition characters (s : string) : list JSON :=
  (λ c, JSON_string (String c EmptyString)) <$> list_ascii_of_string s.

(** [for (const x of value) await body(x)]: an array gives its items, a
    string its characters, and anything else is not iterable. *)
Definition for_of_value (value : JSON) (body : JSON → M unit) : M unit :=
  match value with
  | JSON_array items => for_of items body
  | JSON_string s => for_of (characters s) body
  | _ => throw TypeError
  end.

(** A valid IndexedDB key: a number that is not NaN, a string, or an
    array of valid keys. *)
Fixpoint valid_key (v : JSON) : bool :=
  match v with
  | JSON_number x => match x with S754_nan => false | _ => true end
  | JSON_string _ => true
  | JSON_array items => forallb valid_key items
  | _ => false
  end.

(** The key of [value] in a store with [keyPath: 'id']: the own property
    [id] of an object, when it is a valid key. *)
Definition key_of_value (value : JSON) : option JSON :=
  match value with
  | JSON_object properties =>
      match own_property "id" properties with
      | Some k => if valid_key k then Some k else None
      | None => None
      end
  | _ => None
  end.

(** **** The record a parsed value is *)

Definition as_string (v : option JSON) : option string :=
  match v with
  | Some (JSON_string s) => Some s
  | _ => None
  end.

(** A [number]: a number, or the [null] JSON has for NaN. *)
Definition as_number (v : option JSON) : option jsnumber :=
  match v with
  | Some (JSON_number x) => Some (JNum x)
  | Some JSON_null => Some JNull
  | _ => None
  end.

Definition as_MemberSort (v : option JSON) : option MemberSort :=
  match as_string v with
  | Some s =>
      if decide (s = "name") then Some ByName
      else if decide (s = "latest") then Some ByLatest
      else if decide (s = "age") then Some ByAge
      else None
  | None => None
  end.

Definition as_TestSort (v : option JSON) : option TestSort :=
  match as_string v with
  | Some s =>
      if decide (s = "name") then Some TestsByName
      else if decide (s = "latest") then Some TestsByLatest
      else if decide (s = "category") then Some TestsByCategory
      else None
  | None => None
  end.

(** A property declared optional: missing, or of its type. *)
Definition optionally {A} (as_A : option JSON → option A) (v : option JSON)
  : option (option A) :=
  match v with
  | None => Some None
  | Some _ => Some <$> as_A v
  end.

(** The [Patient] a value is, if it is one: an object whose [id] and
    [name] are strings and whose [age], if there, is a number. *)
Definition as_Patient (v : JSON) : option Patient :=
  match v with
  | JSON_object o =>
      id ← as_string (own_property "id" o);
      name ← as_string (own_property "name" o);
      age ← optionally as_number (own_property "age" o);
      Some {| p_id := id; p_name := name; p_age := age |}
  | _ => None
  end.

Definition as_TestReading (v : JSON) : option TestReading :=
  match v with
  | JSON_object o =>
      id ← as_string (own_property "id" o);
      patientId ← as_string (own_property "patientId" o);
      testName ← as_string (own_property "testName" o);
      date ← as_string (own_property "date" o);
      reason ← optionally as_string (own_property "reason" o);
      value ← as_number (own_property "value" o);
      idealMin ← optionally as_number (own_property "idealMin" o);
      idealMax ← optionally as_number (own_property "idealMax" o);
      unit ← as_string (own_property "unit" o);
      notes ← optionally as_string (own_property "notes" o);
      Some {| r_id := id; r_patientId := patientId; r_testName := testName;
              r_date := date; r_reason := reason; r_value := value;
              r_idealMin := idealMin; r_idealMax := idealMax;
              r_unit := unit; r_notes := notes |}
  | _ => None
  end.

Definition as_TestReference (v : JSON) : option TestReference :=
  match v with
  | JSON_object o =>
      id ← as_string (own_property "id" o);
      testName ← as_string (own_property "testName" o);
      category ← optionally as_string (own_property "category" o);
      unit ← as_string (own_property "unit" o);
      defaultIdealMin ← optionally as_number (own_property "defaultIdealMin" o);
      defaultIdealMax ← optionally as_number (own_property "defaultIdealMax" o);
      Some {| ref_id := id; ref_testName := testName; ref_category := category;
              ref_unit := unit; ref_defaultIdealMin := defaultIdealMin;
              ref_defaultIdealMax := defaultIdealMax |}
  | _ => None
  end.

Definition as_UserPreferences (v : JSON) : option UserPreferences :=
  match v with
  | JSON_object o =>
      sortMembersBy ← optionally as_MemberSort (own_property "sortMembersBy" o);
      filterMembersQuery ← optionally as_string (own_property "filterMembersQuery" o);
      sortTestsBy ← optionally as_TestSort (own_property "sortTestsBy" o);
      filterTestsQuery ← optionally as_string (own_property "filterTestsQuery" o);
      Some {| sortMembersBy := sortMembersBy; filterMembersQuery := filterMembersQuery;
              sortTestsBy := sortTestsBy; filterTestsQuery := filterTestsQuery |}
  | _ => None
  end.

(** **** Filing a parsed value *)

(** [store.put(value)] on a store with [keyPath: 'id'], for a value out
    of a JSON text. A value with no valid key at the key path makes [put]
    throw a DataError, at once and with no request issued. Any other
    value is filed by a request. The stores of the embedding hold records
    of their declared types ([as_record] tells whether the value is one):
    for a value that has a key and is no such record the request is
    served all the same, and what it files is not shown. *)
Definition put_value {V} (as_record : JSON → option V) (put : V → DB → DB)
    (value : JSON) : M unit :=
  match key_of_value value with
  | None => throw DataError
  | Some _ =>
      write (match as_record value with
             | Some record => put record
             | None => λ db, db
             end)
  end.

(** [store.put(value, key)] on the preferences store, which has no key
    path and files any value. *)
Definition put_preferences_value (value : JSON) (key : string) : M unit :=
  write (match as_UserPreferences value with
         | Some prefs => put_preferences prefs key
         | None => λ db, db
         end).

(** *** Exports & Imports *)

Definition exportMemberData (patientId : string) : M JsonText :=
  patient ← read (λ db, patients db !! patientId);
  readings ← getPatientReadings patientId;
  mret (JSON_stringify (JSON_object (
          property "patient" (JSON_of_patient <$> patient)
          ++ property "readings" (Some (JSON_array (JSON_of_reading <$> readings)))))).

Definition exportTestReferences : M JsonText :=
  refs ← getTestReferences;
  mret (JSON_stringify (JSON_object (
          property "testReferences"
            (Some (JSON_array (JSON_of_testReference <$> refs)))))).

Definition exportEntireProfile : M JsonText :=
  patients ← getPatients;
  readings ← read (λ db, getAll (readings db));
  testReferences ← getTestReferences;
  preferences ← getPreferences;
  let profile : UserProfile :=
    {| up_patients := patients; up_readings := readings;
       up_testReferences := testReferences; up_preferences := preferences |} in
  mret (JSON_stringify (JSON_of_profile profile)).

Definition importProfile (jsonString : JsonText) : M unit :=
  try_catch (
    data ← JSON_parse jsonString;
    (* Depending on what is in the JSON, we import it *)
    data_patients ← get data "patients";
    data_readings ← get data "readings";
    match truthy data_patients, truthy data_readings with
    | Some data_patients, Some data_readings =>
        transaction (
          for_of_value data_patients (put_value as_Patient put_patient) ;;
          for_of_value data_readings (put_value as_TestReading put_reading) ;;
          data_testReferences ← get data "testReferences";
          match truthy data_testReferences with
          | Some data_testReferences =>
              for_of_value data_testReferences
                (put_value as_TestReference put_testReference)
          | None => mret ()
          end ;;
          data_preferences ← get data "preferences";
          match truthy data_preferences with
          | Some data_preferences => put_preferences_value data_preferences "user_prefs"
          | None => mret ()
          end)
    | _, _ =>
        data_patient ← get data "patient";
        match truthy data_patient, truthy data_readings with
        | Some data_patient, Some data_readings => (* Member data import *)
            transaction (
              put_value as_Patient put_patient data_patient ;;
              for_of_value data_readings (put_value as_TestReading put_reading))
        | _, _ =>
            data_testReferences ← get data "testReferences";
            match truthy data_testReferences with
            | Some data_testReferences => (* Reference import *)
                transaction (
                  for_of_value data_testReferences
                    (put_value as_TestReference put_testReference))
            | None => throw (Error "Invalid import format")
            end
        end
    end)
    (λ error, throw error).

(** ** src/pages/AddReading.tsx: bulk paste *)

Inductive ui : Type :=
  | Ignored                    (* the handler returned at once *)
  | Navigated (path : string)  (* navigate(path) *)
  | Alerted (e : error).       (* alert("Error parsing bulk text: " + err.message) *)

Section AddReading.
(** [parseFloat], which is NaN on text that starts with no number. *)
Variable parseFloat : string → spec_float.
(** [new Date(s).toISOString()], which throws a RangeError on a date it
    cannot parse. *)
Variable toISOString : string → option string.
(** The identifier the n-th call of [uuidv4()] draws. *)
Variable uuidv4 : nat → string.

(** [parts[i] ? parseFloat(parts[i]) : undefined] *)
Definition optional_number (part : option string) : option jsnumber :=
  match part with
  | Some s => if decide (s = "") then None else Some (JNum (parseFloat s))
  | None => None
  end.

(** The callback of [lines.map], for the line of index [i]. *)
Definition parse_line (id : string) (i : nat) (line : string) : M TestReading :=
  let parts := trim <$> split "," line in
  if decide (length parts < 4)
  then throw (Error ("Invalid format on line: " ++ line))
  else
    match toISOString (default "" (parts !! 3)) with
    | None => throw RangeError
    | Some date =>
        mret {| r_id := uuidv4 i;
                r_patientId := id;
                r_testName := default "" (parts !! 0);
                r_value := JNum (parseFloat (default "" (parts !! 1)));
                r_unit := default "" (parts !! 2);
                r_date := date;
                r_idealMin := optional_number (parts !! 4);
                r_idealMax := optional_number (parts !! 5);
                r_reason := None;
                r_notes := None |}
    end.

Fixpoint map_lines (id : string) (i : nat) (lines : list string) : M (list TestReading) :=
  match lines with
  | [] => mret []
  | line :: rest =>
      reading ← parse_line id i line;
      readings ← map_lines id (S i) rest;
      mret (reading :: readings)
  end.

Definition handleBulkSubmit (id : option string) (bulkText : string) : M ui :=
  match id with
  | None => mret Ignored
  | Some id =>
      if decide (id = "" ∨ trim bulkText = "") then mret Ignored
      else
        try_catch (
          (* Simple parse: TestName, Value, Unit, Date, Min(opt), Max(opt) *)
          let lines := filter (λ l, trim l ≠ "") (split "010" bulkText) in
          readings ← map_lines id 0 lines;
          bulkSaveReadings readings ;;
          mret (Navigated ("/patient/" ++ id)))
          (λ err, mret (Alerted err))
  end.
End AddReading.

(** * Notions the properties are stated with *)

(** ** Runs *)

(** [steady m]: whenever [m] returns, it has returned the value and left
    the database the run without faults does. *)
Definition steady {A} (m : M A) : Prop :=
  ∀ db f a db' f', m db f = Ok a db' f' → m db None = Ok a db' None.

(** [faults_only m]: [m] throws only when a request is rejected. *)
Definition faults_only {A} (m : M A) : Prop :=
  ∀ db f e db' f', m db f = Thrown e db' f' → e = StorageFault.

(** [keeps proj m]: no run of [m], failed or not, changes the part [proj]
    of the database. *)
Definition keeps {A B} (proj : DB → B) (m : M A) : Prop :=
  ∀ db f, proj (final_db (m db f)) = proj db.

(** [invariant P m]: a database that satisfies [P] still does after any
    run of [m], failed or not. *)
Definition invariant {A} (P : DB → Prop) (m : M A) : Prop :=
  ∀ db f, P db → P (final_db (m db f)).

(** [same m m']: the two pieces of code do the same on every database,
    whatever request fails. *)
Definition same {A} (m m' : M A) : Prop := ∀ db f, m db f = m' db f.

(** ** What the operations leave when no request fails *)

(** The database [deletePatient] leaves when no request fails: the patient
    record is gone and so is every reading the cursor visited. *)
Definition without_patient (id : string) (db : DB) : DB :=
  let db1 := with_patients (delete id) db in
  foldl (λ d (entry : string * TestReading), with_readings (delete entry.1) d)
        db1 (index_cursor r_patientId id (readings db1)).

(** The database [saveReading] leaves when no request fails. *)
Definition with_reading (reading : TestReading) (db : DB) : DB :=
  let db1 := put_reading reading db in
  if decide (length (index_getAll ref_testName (r_testName reading) (testReferences db1)) = 0)
  then put_testReference (derived_reference reading) db1
  else db1.

(** ** The shapes of a payload *)

(** A payload of the type the code declares for it: a
    [Partial<UserProfile>], with the [patient] property a member export
    has. Each property is missing ([None]) or of its declared type. *)
Record Payload := {
  data_patients : option (list Patient);
  data_readings : option (list TestReading);
  data_testReferences : option (list TestReference);
  data_preferences : option UserPreferences;
  data_patient : option Patient;
}.

(** A property of the payload: missing (or [null]), or of its type. *)
Definition missing_or {A} (as_A : JSON → option A) (v : option JSON) : option (option A) :=
  match v with
  | None | Some JSON_null => Some None
  | Some w => Some <$> as_A w
  end.

(** A list of records of one type. *)
Definition as_list {A} (as_A : JSON → option A) (v : JSON) : option (list A) :=
  match v with
  | JSON_array items => mapM as_A items
  | _ => None
  end.

(** The payload a parsed value is, when it is of the declared type: an
    object whose properties [patients], [readings], [testReferences],
    [preferences] and [patient] are each missing or of their type. *)
Definition as_Payload (data : JSON) : option Payload :=
  match data with
  | JSON_object o =>
      ps ← missing_or (as_list as_Patient) (own_property "patients" o);
      rs ← missing_or (as_list as_TestReading) (own_property "readings" o);
      refs ← missing_or (as_list as_TestReference) (own_property "testReferences" o);
      prefs ← missing_or as_UserPreferences (own_property "preferences" o);
      p ← missing_or as_Patient (own_property "patient" o);
      Some {| data_patients := ps; data_readings := rs; data_testReferences := refs;
              data_preferences := prefs; data_patient := p |}
  | _ => None
  end.

(** What [importProfile] comes to on a payload of the declared type: each
    test is on a property that is missing or is a list or an object, and
    each put is of a record that has its id. *)
Definition importPayload (data : Payload) : M unit :=
  match data_patients data, data_readings data with
  | Some data_patients, Some data_readings =>
      transaction (
        for_of data_patients (λ p, write (put_patient p)) ;;
        for_of data_readings (λ r, write (put_reading r)) ;;
        match data_testReferences data with
        | Some refs => for_of refs (λ ref, write (put_testReference ref))
        | None => mret ()
        end ;;
        match data_preferences data with
        | Some prefs => write (put_preferences prefs "user_prefs")
        | None => mret ()
        end)
  | _, _ =>
      match data_patient data, data_readings data with
      | Some patient, Some data_readings =>
          transaction (
            write (put_patient patient) ;;
            for_of data_readings (λ r, write (put_reading r)))
      | _, _ =>
          match data_testReferences data with
          | Some refs =>
              transaction (for_of refs (λ ref, write (put_testReference ref)))
          | None => throw (Error "Invalid import format")
          end
      end
  end.

(** The property [name] of a parsed value that is not [null], as [get]
    reads it. *)
Definition property_of (data : JSON) (name : string) : option JSON :=
  match data with
  | JSON_object properties => own_property name properties
  | _ => None
  end.

(** The branch of [importProfile] a parsed value is sent to, by the tests
    of the code in their order. *)
Inductive Branch : Type :=
  | FullProfileBranch
  | SingleMemberBranch
  | ReferencesBranch
  | NoBranch.

Definition branch (data : JSON) : Branch :=
  match truthy (property_of data "patients"), truthy (property_of data "readings") with
  | Some _, Some _ => FullProfileBranch
  | _, _ =>
      match truthy (property_of data "patient"), truthy (property_of data "readings") with
      | Some _, Some _ => SingleMemberBranch
      | _, _ =>
          match truthy (property_of data "testReferences") with
          | Some _ => ReferencesBranch
          | None => NoBranch
          end
      end
  end.

(** The snapshot variants the import is specified over, and the rejection
    case. *)
Inductive Shape : Type :=
  | FullProfile (ps : list Patient) (rs : list TestReading)
      (refs : option (list TestReference)) (prefs : option UserPreferences)
  | SingleMember (p : Patient) (rs : list TestReading)
  | ReferencesOnly (refs : list TestReference)
  | Unrecognised.

(** The shapes tried in order: full-profile when both a patients list and
    a readings list are there; else single-member when a patient object
    and a readings list are there; else references-only when a
    test-references list is there. *)
Definition classify (data : Payload) : Shape :=
  match data_patients data, data_readings data with
  | Some ps, Some rs => FullProfile ps rs (data_testReferences data) (data_preferences data)
  | _, _ =>
      match data_patient data, data_readings data with
      | Some p, Some rs => SingleMember p rs
      | _, _ =>
          match data_testReferences data with
          | Some refs => ReferencesOnly refs
          | None => Unrecognised
          end
      end
  end.

(** Upsert by id, one record after the other. *)
Definition upsert_patients (ps : list Patient) (db : DB) : DB :=
  foldl (λ d p, put_patient p d) db ps.
Definition upsert_readings (rs : list TestReading) (db : DB) : DB :=
  foldl (λ d r, put_reading r d) db rs.
Definition upsert_testReferences (refs : list TestReference) (db : DB) : DB :=
  foldl (λ d ref, put_testReference ref d) db refs.

(** What each shape is specified to write: a full profile upserts its
    patients and readings, its references when it lists some, and replaces
    the preferences when it has some; a single member upserts the patient
    and the readings; references only upserts the references. *)
Definition imported (shape : Shape) (db : DB) : DB :=
  match shape with
  | FullProfile ps rs refs prefs =>
      let db1 := upsert_readings rs (upsert_patients ps db) in
      let db2 := match refs with Some refs => upsert_testReferences refs db1 | None => db1 end in
      match prefs with Some prefs => put_preferences prefs "user_prefs" db2 | None => db2 end
  | SingleMember p rs => upsert_readings rs (put_patient p db)
  | ReferencesOnly refs => upsert_testReferences refs db
  | Unrecognised => db
  end.

(** ** Records laid over a database *)

(** The database [db] with the records of [u] put over it. *)
Definition overlay (u db : DB) : DB :=
  {| patients := patients u ∪ patients db;
     readings := readings u ∪ readings db;
     testReferences := testReferences u ∪ testReferences db;
     preferences := preferences u ∪ preferences db |}.

(** [overlays m]: with no request failing, [m] returns the same value or
    throws the same error on every database, having put the same records
    over it. *)
Definition overlays {A} (m : M A) : Prop :=
  ∃ u, (∃ a, ∀ db, m db None = Ok a (overlay u db) None)
       ∨ (∃ e, e ≠ StorageFault ∧ ∀ db, m db None = Thrown e (overlay u db) None).

(** ** The contents of the database *)

(** What the four getters of the store return. *)
Definition contents (db : DB) : UserProfile :=
  {| up_patients := getAll (patients db);
     up_readings := getAll (readings db);
     up_testReferences := getAll (testReferences db);
     up_preferences := default no_preferences (preferences db !! "user_prefs") |}.

(** The invariant of a store with [keyPath: 'id']: a record is filed under
    its own id. *)
Definition store_keyed (db : DB) : Prop :=
  map_Forall (λ k p, p_id p = k) (patients db)
  ∧ map_Forall (λ k r, r_id r = k) (readings db)
  ∧ map_Forall (λ k ref, ref_id ref = k) (testReferences db).

(** Every number in the database is one JSON carries unchanged: finite,
    and not negative zero. *)
Definition store_json_stable (db : DB) : Prop :=
  map_Forall (λ _ p, json_patient p = p) (patients db)
  ∧ map_Forall (λ _ r, json_reading r = r) (readings db)
  ∧ map_Forall (λ _ ref, json_testReference ref = ref) (testReferences db).

(** ** Pasted text *)

(** The lines of the pasted text that are not blank. *)
Definition pasted_lines (bulkText : string) : list string :=
  filter (λ l, trim l ≠ "") (split "010" bulkText).

(** A line [lines.map] throws on: fewer than four fields, or a date that
    does not parse. *)
Definition malformed (toISOString : string → option string) (line : string) : Prop :=
  let parts := trim <$> split "," line in
  length parts < 4 ∨ toISOString (default "" (parts !! 3)) = None.

(** ** Sample data *)

Definition alice : Patient := {| p_id := "A1"; p_name := "Alice"; p_age := None |}.

Definition hemoglobin_reading (id testName : string) (value : jsnumber) : TestReading :=
  {| r_id := id; r_patientId := "A1"; r_testName := testName;
     r_date := "2026-01-01T00:00:00.000Z"; r_reason := None; r_value := value;
     r_idealMin := None; r_idealMax := None; r_unit := "g/dL"; r_notes := None |}.

(** 13.5, as 27 * 2^-1. *)
Definition thirteen_and_a_half : jsnumber := JNum (S754_finite false 27 (-1)).

Definition R1 : TestReading := hemoglobin_reading "R1" "Hemoglobin" thirteen_and_a_half.

Definition R2 : TestReading := hemoglobin_reading "R2" "hemoglobin" thirteen_and_a_half.

(** A reading whose value is NaN, as [parseFloat] makes of a pasted value
    that is no number. *)
Definition R3 : TestReading := hemoglobin_reading "R3" "Hemoglobin" NaN.

(** A reading whose test name has a run of two spaces. *)
Definition cholesterol_reading : TestReading :=
  {| r_id := "R7"; r_patientId := "A1"; r_testName := "Total  Cholesterol";
     r_date := "2026-02-01T00:00:00.000Z"; r_reason := None;
     r_value := JNum (S754_finite false 190 0);
     r_idealMin := Some (JNum (S754_finite false 125 0));
     r_idealMax := Some (JNum (S754_finite false 200 0));
     r_unit := "mg/dL"; r_notes := None |}.

(** "Hemoglobin" catalogued under an id that is not the derived one. *)
Definition catalogued_hemoglobin : TestReference :=
  {| ref_id := "cbc-hb"; ref_testName := "Hemoglobin"; ref_category := Some "Blood";
     ref_unit := "g/dL"; ref_defaultIdealMin := None; ref_defaultIdealMax := None |}.

(** Alice with her reading R1, saved through the store's own functions. *)
Definition alice_db : DB := exec (saveReading R1) (exec (savePatient alice) emptyDB).

(** Alice with reading R3, whose value is NaN. *)
Definition nan_db : DB := exec (saveReading R3) (exec (savePatient alice) emptyDB).

(** A database whose catalogue has "Hemoglobin" already. *)
Definition catalogue_db : DB := exec (saveTestReference catalogued_hemoglobin) emptyDB.

(** A snapshot with patients and references and no readings. *)
Definition patients_and_references : JSON :=
  JSON_object [("patients", JSON_array [JSON_of_patient alice]);
               ("testReferences", JSON_array [JSON_of_testReference catalogued_hemoglobin])].


(** A snapshot with a patients list, and a [readings] property that is
    [true]. *)
Definition patients_and_true : JSON :=
  JSON_object [("patients", JSON_array [JSON_of_patient alice]);
               ("readings", JSON_boolean true)].

(** A member's snapshot that carries a [testReferences] list too, and the
    payload it is. *)
Definition member_snapshot : JSON :=
  JSON_object [("patient", JSON_of_patient alice);
               ("readings", JSON_array [JSON_of_reading R1]);
               ("testReferences", JSON_array [JSON_of_testReference catalogued_hemoglobin])].

Definition member_payload : Payload :=
  {| data_patients := None; data_readings := Some [R1];
     data_testReferences := Some [catalogued_hemoglobin]; data_preferences := None;
     data_patient := Some alice |}.

(** A full profile whose second patient has no [id]. *)
Definition profile_with_a_nameless_record : JSON :=
  JSON_object [("patients", JSON_array [JSON_of_patient alice;
                                         JSON_object [("name", JSON_string "Bob")]]);
               ("readings", JSON_array [])].

(** * More of the code *)

(** ** src/services/db.ts: initDB *)

Section InitDB.
(** The default catalogue, [defaultTests] of src/data/defaultTests. *)
Variable defaultTests : list TestReference.

(** What [initDB] does once the database is open and upgraded: seed the
    default references if the testReferences store is empty. The count is
    read in a read-only transaction, the defaults are put in one
    read-write transaction. *)
Definition initDB : M unit :=
  count ← read (λ db, size (testReferences db));
  if decide (count = 0)
  then transaction (for_of defaultTests (λ test, write (put_testReference test)))
  else mret ().
End InitDB.

(** ** src/pages/AddReading.tsx: single entry *)

(** The fields of the single-entry form, as typed. *)
Record ReadingForm := {
  form_testName : string;
  form_date : string;
  form_reason : string;
  form_value : string;
  form_unit : string;
  form_idealMin : string;
  form_idealMax : string;
  form_notes : string;
}.

Section SingleEntry.
Variable parseFloat : string → spec_float.
Variable toISOString : string → option string.
Variable uuidv4 : nat → string.

(** [s ? parseFloat(s) : undefined] *)
Definition number_if_typed (s : string) : option jsnumber :=
  if decide (s = "") then None else Some (JNum (parseFloat s)).

(** [s.trim() || undefined] *)
Definition text_if_typed (s : string) : option string :=
  if decide (trim s = "") then None else Some (trim s).

(** A run that throws is the rejection of the promise of the handler's
    [then] callback, which nothing catches. *)
Definition handleSingleSubmit (id : option string) (form : ReadingForm) : M ui :=
  match id with
  | None => mret Ignored
  | Some id =>
      if decide (id = "" ∨ form_testName form = "" ∨ form_value form = ""
                 ∨ form_unit form = "" ∨ form_date form = "")
      then mret Ignored
      else
        match toISOString (form_date form) with
        | None => throw RangeError
        | Some date =>
            let reading : TestReading :=
              {| r_id := uuidv4 0;
                 r_patientId := id;
                 r_testName := trim (form_testName form);
                 r_date := date;
                 r_value := JNum (parseFloat (form_value form));
                 r_unit := trim (form_unit form);
                 r_idealMin := number_if_typed (form_idealMin form);
                 r_idealMax := number_if_typed (form_idealMax form);
                 r_reason := text_if_typed (form_reason form);
                 r_notes := text_if_typed (form_notes form) |} in
            saveReading reading ;;
            mret (Navigated ("/patient/" ++ id))
        end
  end.
End SingleEntry.

(** ** src/pages/Dashboard.tsx: adding a member *)

Section Dashboard.
(** [parseInt(s, 10)], which is NaN on text that starts with no digit. *)
Variable parseInt : string → spec_float.
Variable uuidv4 : nat → string.

(** The patient [handleAddMember] makes of the two fields of the modal. *)
Definition new_member (newMemberName newMemberAge : string) : Patient :=
  {| p_id := uuidv4 0;
     p_name := trim newMemberName;
     p_age := if decide (newMemberAge = "") then None
              else Some (JNum (parseInt newMemberAge)) |}.

Definition handleAddMember (newMemberName newMemberAge : string) : M unit :=
  if decide (trim newMemberName = "") then mret ()
  else savePatient (new_member newMemberName newMemberAge).
End Dashboard.

(** ** src/pages/ManageMembers.tsx: deleting the selected members *)

(** [selectedIds] is the JavaScript [Set] of the page, as the list of its
    elements in insertion order; [confirmed] is what [window.confirm]
    answers. *)
Definition handleBulkDelete (selectedIds : list string) (confirmed : bool) : M unit :=
  if decide (length selectedIds = 0) then mret ()
  else if confirmed
       then for_of selectedIds (λ id, deletePatient id)
       else mret ().

(** ** src/pages/Settings.tsx: importing a file *)

Inductive import_notice : Type :=
  | NoFile             (* no file was chosen: the handler returns at once *)
  | ImportSuccessful   (* alert("Import successful!") *)
  | ImportFailed.      (* alert("Failed to import data. Please check the file format.") *)

(** [file] is the text [FileReader] reads from the chosen file. *)
Definition handleImport (file : option JsonText) : M import_notice :=
  match file with
  | None => mret NoFile
  | Some json =>
      try_catch (importProfile json ;; mret ImportSuccessful)
                (λ err, mret ImportFailed)
  end.

(** ** Notions for the rest of the code *)

(** The database once the patients of [ids] are deleted one after the
    other, no request failing. *)
Definition without_patients (ids : list string) (db : DB) : DB :=
  foldl (λ d id, without_patient id d) db ids.

(** The records a list of upserts writes, the last one of an id winning. *)
Definition upserted {V} (key_of : V → string) (l : list V) : gmap string V :=
  foldl (λ m v, <[key_of v := v]> m) ∅ l.

(** [{ ...p1, ...p2 }], by the properties it has. *)
Definition spread_given (p1 p2 : GivenPreferences) : GivenPreferences :=
  {| given_sortMembersBy :=
       match given_sortMembersBy p2 with Some v => Some v | None => given_sortMembersBy p1 end;
     given_filterMembersQuery :=
       match given_filterMembersQuery p2 with
       | Some v => Some v | None => given_filterMembersQuery p1 end;
     given_sortTestsBy :=
       match given_sortTestsBy p2 with Some v => Some v | None => given_sortTestsBy p1 end;
     given_filterTestsQuery :=
       match given_filterTestsQuery p2 with
       | Some v => Some v | None => given_filterTestsQuery p1 end |}.

(** No property is one both objects have. *)
Definition disjoint_preferences (p1 p2 : GivenPreferences) : Prop :=
  (given_sortMembersBy p1 = None ∨ given_sortMembersBy p2 = None)
  ∧ (given_filterMembersQuery p1 = None ∨ given_filterMembersQuery p2 = None)
  ∧ (given_sortTestsBy p1 = None ∨ given_sortTestsBy p2 = None)
  ∧ (given_filterTestsQuery p1 = None ∨ given_filterTestsQuery p2 = None).

(** The string has no white-space character. *)
Fixpoint no_space (s : string) : bool :=
  match s with
  | EmptyString => true
  | String c s' => negb (is_space c) && no_space s'
  end.

(** A default catalogue of one reference for [initDB] to seed. *)
Definition glucose : TestReference :=
  {| ref_id := "glucose"; ref_testName := "Glucose"; ref_category := Some "Metabolic";
     ref_unit := "mg/dL";
     ref_defaultIdealMin := Some (JNum (S754_finite false 70 0));
     ref_defaultIdealMax := Some (JNum (S754_finite false 100 0)) |}.

(** Identifiers that differ from one draw to the next: the n-th is n
    letters long. *)
Definition sample_uuid (n : nat) : string := Nat.iter n (String "u") "".

(** * Properties *)

(** ** Object stores and indexes *)

Section Stores.
Context {V : Type}.
Implicit Types (m : gmap string V) (k key : string) (v : V).

Lemma entries_Permutation m : entries m ≡ₚ map_to_list m.
Proof. apply merge_sort_Permutation. Qed.

Lemma elem_of_entries m k v : (k, v) ∈ entries m ↔ m !! k = Some v.
Proof. rewrite entries_Permutation. apply elem_of_map_to_list. Qed.

Lemma NoDup_entries m : NoDup (entries m).
Proof. rewrite entries_Permutation. apply NoDup_map_to_list. Qed.

Lemma elem_of_getAll m v : v ∈ getAll m ↔ ∃ k, m !! k = Some v.
Proof.
  unfold getAll. rewrite list_elem_of_fmap. split.
  - intros [[k v'] [-> Hin]]. exists k. by apply elem_of_entries.
  - intros [k Hk]. exists (k, v). split; [done | by apply elem_of_entries].
Qed.

Lemma elem_of_index_cursor (prop : V → string) key m k v :
  (k, v) ∈ index_cursor prop key m ↔ m !! k = Some v ∧ prop v = key.
Proof.
  unfold index_cursor. rewrite list_elem_of_filter, elem_of_entries. simpl. tauto.
Qed.

Lemma NoDup_index_cursor (prop : V → string) key m :
  NoDup (index_cursor prop key m).
Proof. apply NoDup_filter, NoDup_entries. Qed.

Lemma elem_of_index_getAll (prop : V → string) key m v :
  v ∈ index_getAll prop key m ↔ ∃ k, m !! k = Some v ∧ prop v = key.
Proof.
  unfold index_getAll. rewrite list_elem_of_fmap. split.
  - intros [[k v'] [-> Hin]]. exists k. by apply elem_of_index_cursor.
  - intros [k Hk]. exists (k, v). split; [done | by apply elem_of_index_cursor].
Qed.

(** The index has nothing under [key] exactly when no record of the store
    carries [key]. *)
Lemma index_getAll_nil (prop : V → string) key m :
  index_getAll prop key m = [] ↔ ∀ k v, m !! k = Some v → prop v ≠ key.
Proof.
  split.
  - intros Hnil k v Hk Hp.
    assert (v ∈ index_getAll prop key m) as Hin
      by (apply elem_of_index_getAll; eauto).
    rewrite Hnil in Hin. by apply not_elem_of_nil in Hin.
  - intros Hnone. destruct (index_getAll prop key m) as [|v l] eqn:E; [done|].
    assert (v ∈ index_getAll prop key m) as Hin by (rewrite E; left).
    apply elem_of_index_getAll in Hin as (k & Hk & Hp). by destruct (Hnone k v).
Qed.

Lemma index_cursor_nil (prop : V → string) key m :
  index_cursor prop key m = [] ↔ index_getAll prop key m = [].
Proof.
  unfold index_getAll. split; [by intros -> | apply fmap_nil_inv].
Qed.

(** A list without repetition whose only possible element is [x], and
    which has it, is [[x]]. *)
Lemma NoDup_singleton_eq {A} (l : list A) (x : A) :
  NoDup l → x ∈ l → (∀ y, y ∈ l → y = x) → l = [x].
Proof.
  intros Hnd Hx Hall. destruct l as [|a l]; [by apply not_elem_of_nil in Hx|].
  assert (a = x) as -> by (apply Hall; left).
  destruct l as [|b l]; [done|].
  assert (b = x) as -> by (apply Hall; right; left).
  apply NoDup_cons in Hnd as [Hnot _]. destruct Hnot. left.
Qed.

(** After a record carrying [key] is put into a store whose other records
    do not carry it, the index has that one record under [key]. *)
Lemma index_getAll_insert_fresh (prop : V → string) key m k v :
  prop v = key →
  (∀ k' v', k' ≠ k → m !! k' = Some v' → prop v' ≠ key) →
  index_getAll prop key (<[k:=v]> m) = [v].
Proof.
  intros Hp Hothers. unfold index_getAll.
  rewrite (NoDup_singleton_eq (index_cursor prop key (<[k:=v]> m)) (k, v)); [done|..].
  - apply NoDup_index_cursor.
  - apply elem_of_index_cursor. by rewrite lookup_insert_eq.
  - intros [k' v'] [Hk' Hp']%elem_of_index_cursor.
    destruct (decide (k' = k)) as [->|Hne].
    + rewrite lookup_insert_eq in Hk'. congruence.
    + rewrite lookup_insert_ne in Hk' by done. by destruct (Hothers k' v').
Qed.

(** Deleting a list of keys. *)
Lemma lookup_foldl_delete (keys : list string) m k :
  foldl (λ m' k', delete k' m') m keys !! k
  = if decide (k ∈ keys) then None else m !! k.
Proof.
  revert m. induction keys as [|k0 keys IH]; intros m; simpl; [done|].
  rewrite IH.
  destruct (decide (k ∈ keys)) as [Hin|Hnin];
    destruct (decide (k ∈ k0 :: keys)) as [Hin'|Hnin']; try done.
  - destruct Hnin'. by right.
  - apply elem_of_cons in Hin' as [->|?]; [apply lookup_delete_eq | done].
  - apply lookup_delete_ne. intros ->. destruct Hnin'. left.
Qed.

(** Putting again records the store already holds under their keys. *)
Lemma foldl_insert_id (key_of : V → string) (l : list V) m :
  (∀ v, v ∈ l → m !! key_of v = Some v) →
  foldl (λ m' v, <[key_of v := v]> m') m l = m.
Proof.
  induction l as [|v l IH]; intros Hl; simpl; [done|].
  rewrite insert_id by (apply Hl; left). apply IH. intros v' Hv'. apply Hl. by right.
Qed.
End Stores.

(** ** Runs of asynchronous code *)

Ltac unfold_M :=
  unfold mbind, M_bind, mret, M_ret, read, write, throw, transaction, try_catch in *.

(** A loop of write requests none of which fails. *)
Lemma for_of_None {A} (l : list A) (body : A → M unit) (step : A → DB → DB) db :
  (∀ x db', body x db' None = Ok () (step x db') None) →
  for_of l body db None = Ok () (foldl (λ d x, step x d) db l) None.
Proof.
  intros Hbody. revert db. induction l as [|x l IH]; intros db; simpl; [done|].
  unfold mbind, M_bind. rewrite Hbody. apply IH.
Qed.

Lemma for_of_write_None {A} (l : list A) (w : A → DB → DB) db :
  for_of l (λ x, write (w x)) db None = Ok () (foldl (λ d x, w x d) db l) None.
Proof. by apply for_of_None. Qed.

(** *** Runs that return do what the fault-free run does *)

Create HintDb steady.

Lemma steady_ret {A} (a : A) : steady (mret a).
Proof. intros db f a' db' f' H. unfold_M. congruence. Qed.

Lemma steady_throw {A} (e : error) : steady (throw (A:=A) e).
Proof. intros db f a' db' f' H. unfold_M. congruence. Qed.

Lemma steady_read {A} (g : DB → A) : steady (read g).
Proof. intros db f a' db' f' H. unfold_M. congruence. Qed.

Lemma steady_write (w : DB → DB) : steady (write w).
Proof. intros db [[|n]|] a' db' f' H; unfold_M; congruence. Qed.

Lemma steady_bind {A B} (m : M A) (k : A → M B) :
  steady m → (∀ a, steady (k a)) → steady (m ≫= k).
Proof.
  intros Hm Hk db f b db' f' H. unfold mbind, M_bind in *.
  destruct (m db f) as [a db1 f1|] eqn:E; [|done].
  rewrite (Hm _ _ _ _ _ E). by eapply Hk.
Qed.

Lemma steady_transaction {A} (body : M A) : steady body → steady (transaction body).
Proof.
  intros Hb db f a db' f' H. unfold transaction in *.
  destruct (body db f) as [a1 db1 f1|[] db1 f1] eqn:E; try done.
  rewrite (Hb _ _ _ _ _ E). congruence.
Qed.

Lemma steady_for_of {A} (l : list A) (body : A → M unit) :
  (∀ x, steady (body x)) → steady (for_of l body).
Proof.
  intros Hb. induction l as [|x l IH]; simpl.
  - apply steady_ret.
  - apply steady_bind; auto.
Qed.

Lemma steady_if {A} (P : Prop) `{Decision P} (m1 m2 : M A) :
  steady m1 → steady m2 → steady (if decide P then m1 else m2).
Proof. by case_decide. Qed.

#[global] Hint Resolve steady_ret steady_throw steady_read steady_write
  steady_transaction steady_for_of steady_if : steady.
#[global] Hint Extern 2 (steady (_ ≫= _)) => apply steady_bind; [|intros ?] : steady.

(** *** Code that throws only when a request is rejected *)

Create HintDb faults_only.

Lemma faults_only_ret {A} (a : A) : faults_only (mret a).
Proof. intros db f e db' f' H. unfold_M. congruence. Qed.

Lemma faults_only_read {A} (g : DB → A) : faults_only (read g).
Proof. intros db f e db' f' H. unfold_M. congruence. Qed.

Lemma faults_only_write (w : DB → DB) : faults_only (write w).
Proof. intros db [[|n]|] e db' f' H; unfold_M; congruence. Qed.

Lemma faults_only_bind {A B} (m : M A) (k : A → M B) :
  faults_only m → (∀ a, faults_only (k a)) → faults_only (m ≫= k).
Proof.
  intros Hm Hk db f e db' f' H. unfold mbind, M_bind in *.
  destruct (m db f) as [a db1 f1|e1 db1 f1] eqn:E.
  - by eapply Hk.
  - injection H as <- _ _. by eapply Hm.
Qed.

Lemma faults_only_for_of {A} (l : list A) (body : A → M unit) :
  (∀ x, faults_only (body x)) → faults_only (for_of l body).
Proof.
  intros Hb. induction l as [|x l IH]; simpl.
  - apply faults_only_ret.
  - apply faults_only_bind; auto.
Qed.

Lemma faults_only_if {A} (P : Prop) `{Decision P} (m1 m2 : M A) :
  faults_only m1 → faults_only m2 → faults_only (if decide P then m1 else m2).
Proof. by case_decide. Qed.

Lemma faults_only_transaction {A} (body : M A) :
  faults_only body → faults_only (transaction body).
Proof.
  intros Hb db f e db' f' H. unfold transaction in H.
  destruct (body db f) as [|e1 db1 f1] eqn:E; [done|].
  pose proof (Hb _ _ _ _ _ E) as ->. congruence.
Qed.

#[global] Hint Resolve faults_only_ret faults_only_read faults_only_write
  faults_only_for_of faults_only_if faults_only_transaction : faults_only.
#[global] Hint Extern 2 (faults_only (_ ≫= _)) =>
  apply faults_only_bind; [|intros ?] : faults_only.

(** A transaction whose code throws only when a request is rejected
    writes everything or nothing: when it throws, the database is as it
    was. *)
Lemma transaction_thrown {A} (body : M A) db f e db' f' :
  faults_only body →
  transaction body db f = Thrown e db' f' → db' = db.
Proof.
  intros Hb. unfold transaction.
  destruct (body db f) as [|e1 db1 f1] eqn:E; [done|].
  pose proof (Hb _ _ _ _ _ E) as ->. congruence.
Qed.

(** *** Stores a run leaves alone *)

Create HintDb keeps.

Section Keeps.
Context {B : Type} (proj : DB → B).

Lemma keeps_ret {A} (a : A) : keeps proj (mret a).
Proof. by intros db f. Qed.

Lemma keeps_throw {A} (e : error) : keeps proj (throw (A:=A) e).
Proof. by intros db f. Qed.

Lemma keeps_read {A} (g : DB → A) : keeps proj (read g).
Proof. by intros db f. Qed.

Lemma keeps_write (w : DB → DB) :
  (∀ db, proj (w db) = proj db) → keeps proj (write w).
Proof. intros Hw db [[|n]|]; simpl; auto. Qed.

Lemma keeps_bind {A C} (m : M A) (k : A → M C) :
  keeps proj m → (∀ a, keeps proj (k a)) → keeps proj (m ≫= k).
Proof.
  intros Hm Hk db f. unfold mbind, M_bind. specialize (Hm db f).
  destruct (m db f) as [a db1 f1|e db1 f1]; simpl in *; [|done].
  by rewrite Hk.
Qed.

Lemma keeps_transaction {A} (body : M A) :
  keeps proj body → keeps proj (transaction body).
Proof.
  intros Hb db f. unfold transaction. specialize (Hb db f).
  destruct (body db f) as [|[] ? ?]; done.
Qed.

Lemma keeps_try_catch {A} (body : M A) (handler : error → M A) :
  keeps proj body → (∀ e, keeps proj (handler e)) →
  keeps proj (try_catch body handler).
Proof.
  intros Hb Hh db f. unfold try_catch. specialize (Hb db f).
  destruct (body db f) as [a db1 f1|e db1 f1]; simpl in *; [done|].
  by rewrite Hh.
Qed.

Lemma keeps_for_of {A} (l : list A) (body : A → M unit) :
  (∀ x, keeps proj (body x)) → keeps proj (for_of l body).
Proof.
  intros Hb. induction l as [|x l IH]; simpl.
  - apply keeps_ret.
  - apply keeps_bind; auto.
Qed.
End Keeps.

#[global] Hint Resolve keeps_ret keeps_throw keeps_read keeps_transaction
  keeps_try_catch keeps_for_of : keeps.
#[global] Hint Extern 2 (keeps _ (_ ≫= _)) => apply keeps_bind; [|intros ?] : keeps.
#[global] Hint Extern 2 (keeps _ (write _)) => apply keeps_write; intros ?; reflexivity : keeps.

(** *** Invariants of the database *)

Create HintDb invariant.

Section Invariant.
Context (P : DB → Prop).

Lemma invariant_ret {A} (a : A) : invariant P (mret a).
Proof. by intros db f. Qed.

Lemma invariant_throw {A} (e : error) : invariant P (throw (A:=A) e).
Proof. by intros db f. Qed.

Lemma invariant_read {A} (g : DB → A) : invariant P (read g).
Proof. by intros db f. Qed.

Lemma invariant_write (w : DB → DB) :
  (∀ db, P db → P (w db)) → invariant P (write w).
Proof. intros Hw db [[|n]|] Hdb; simpl; auto. Qed.

Lemma invariant_bind {A B} (m : M A) (k : A → M B) :
  invariant P m → (∀ a, invariant P (k a)) → invariant P (m ≫= k).
Proof.
  intros Hm Hk db f Hdb. unfold mbind, M_bind. specialize (Hm db f Hdb).
  destruct (m db f) as [a db1 f1|e db1 f1]; simpl in *; [by apply Hk | done].
Qed.

Lemma invariant_transaction {A} (body : M A) :
  invariant P body → invariant P (transaction body).
Proof.
  intros Hb db f Hdb. unfold transaction. specialize (Hb db f Hdb).
  destruct (body db f) as [|[] ? ?]; done.
Qed.

Lemma invariant_try_catch {A} (body : M A) (handler : error → M A) :
  invariant P body → (∀ e, invariant P (handler e)) →
  invariant P (try_catch body handler).
Proof.
  intros Hb Hh db f Hdb. unfold try_catch. specialize (Hb db f Hdb).
  destruct (body db f) as [a db1 f1|e db1 f1]; simpl in *; [done | by apply Hh].
Qed.

Lemma invariant_for_of {A} (l : list A) (body : A → M unit) :
  (∀ x, invariant P (body x)) → invariant P (for_of l body).
Proof.
  intros Hb. induction l as [|x l IH]; simpl.
  - apply invariant_ret.
  - apply invariant_bind; auto.
Qed.

Lemma invariant_if {A} (Q : Prop) `{Decision Q} (m1 m2 : M A) :
  invariant P m1 → invariant P m2 → invariant P (if decide Q then m1 else m2).
Proof. by case_decide. Qed.
End Invariant.

#[global] Hint Resolve invariant_ret invariant_throw invariant_read
  invariant_transaction invariant_try_catch invariant_for_of invariant_if : invariant.
#[global] Hint Extern 2 (invariant _ (_ ≫= _)) =>
  apply invariant_bind; [|intros ?] : invariant.

(** ** Deleting a patient *)

Lemma deletePatient_None id db :
  deletePatient id db None = Ok () (without_patient id db) None.
Proof.
  unfold deletePatient, without_patient, mbind, M_bind, transaction, read.
  change (write (with_patients (delete id)) db None)
    with (Ok () (with_patients (delete id) db) None).
  cbv beta iota. by rewrite for_of_write_None.
Qed.

Lemma readings_foldl_delete (l : list (string * TestReading)) db :
  readings (foldl (λ d (entry : string * TestReading),
                     with_readings (delete entry.1) d) db l)
  = foldl (λ m k, delete k m) (readings db) l.*1.
Proof. revert db. induction l as [|e l IH]; intros db; simpl; [done|]. by rewrite IH. Qed.

Lemma patients_foldl_delete (l : list (string * TestReading)) db :
  patients (foldl (λ d (entry : string * TestReading),
                     with_readings (delete entry.1) d) db l)
  = patients db.
Proof. revert db. induction l as [|e l IH]; intros db; simpl; [done|]. by rewrite IH. Qed.

Lemma steady_deletePatient id : steady (deletePatient id).
Proof. unfold deletePatient. auto 10 with steady. Qed.

(** What is left once the patient is deleted with no request failing. *)
Lemma without_patient_cascaded id db :
  patients (without_patient id db) !! id = None
  ∧ ∀ k r, readings (without_patient id db) !! k = Some r → r_patientId r ≠ id.
Proof.
  unfold without_patient. split.
  - rewrite patients_foldl_delete. simpl. apply lookup_delete_eq.
  - intros k r Hk Hp.
    rewrite readings_foldl_delete, lookup_foldl_delete in Hk. simpl in Hk.
    case_decide as Hin; [done|]. destruct Hin.
    apply list_elem_of_fmap. exists (k, r). split; [done|].
    by apply elem_of_index_cursor.
Qed.

(** C6. For every patient id and every database, whatever the number of
    readings of that patient, [deletePatient] completes when no request
    fails, and afterwards the patients store has no record under the id and
    the readings store has no reading whose [patientId] is the id: the
    by-patientId index is empty at that id. *)
Theorem deletePatient_cascade (id : string) (db : DB) :
  ∃ db', deletePatient id db None = Ok () db' None
    ∧ patients db' !! id = None
    ∧ (∀ k r, readings db' !! k = Some r → r_patientId r ≠ id)
    ∧ getPatientReadings id db' None = Ok [] db' None.
Proof.
  exists (without_patient id db). split; [apply deletePatient_None|].
  destruct (without_patient_cascaded id db) as [Hgone Hnone].
  split; [done|]. split; [done|].
  unfold getPatientReadings, read. f_equal. by apply index_getAll_nil.
Qed.

(** The same holds of any run that returns, with faults pending or not. *)
Lemma deletePatient_returns_cascaded id db f db' f' :
  deletePatient id db f = Ok () db' f' →
  patients db' !! id = None ∧ ∀ k r, readings db' !! k = Some r → r_patientId r ≠ id.
Proof.
  intros H%steady_deletePatient. rewrite deletePatient_None in H.
  injection H as <-. apply without_patient_cascaded.
Qed.

(** Readings of other patients stay. *)
Lemma deletePatient_other_readings id db k r :
  readings db !! k = Some r → r_patientId r ≠ id →
  readings (exec (deletePatient id) db) !! k = Some r.
Proof.
  intros Hk Hne. unfold exec. rewrite deletePatient_None. simpl.
  unfold without_patient. rewrite readings_foldl_delete, lookup_foldl_delete. simpl.
  rewrite decide_False; [done|].
  intros ([k' r'] & -> & [Hk' Hp]%elem_of_index_cursor)%list_elem_of_fmap.
  simpl in *. congruence.
Qed.

(** C9. For every patient id, every database and every run of
    [deletePatient], failed or not, the testReferences store is afterwards
    what it was: the cascade neither removes nor changes a reference. *)
Theorem deletePatient_keeps_testReferences (id : string) (db : DB) (f : faults) :
  testReferences (final_db (deletePatient id db f)) = testReferences db.
Proof.
  revert db f. change (keeps testReferences (deletePatient id)).
  unfold deletePatient. auto 10 with keeps.
Qed.

(** The scenario of the specification: Alice (A1) and her reading R1 of
    "Hemoglobin" are saved, which catalogues "Hemoglobin" with unit g/dL;
    deleting A1 removes her and R1, and the reference stays. *)
Example scenario_delete_alice :
  (ref_unit <$> index_getAll ref_testName "Hemoglobin" (testReferences alice_db)) = ["g/dL"]
  ∧ let db := exec (deletePatient "A1") alice_db in
    patients db !! "A1" = None
    ∧ readings db !! "R1" = None
    ∧ (ref_testName <$> getAll (testReferences db)) = ["Hemoglobin"].
Proof. vm_compute. done. Qed.

(** *** The cascade is not one unit of work *)

(** When the first request of the readings transaction fails, the patient
    delete has already been committed by its own transaction: the patient
    is gone and all of the readings are still there. *)
Lemma deletePatient_interrupted id db :
  index_cursor r_patientId id (readings db) ≠ [] →
  deletePatient id db (Some 1) = Thrown StorageFault (with_patients (delete id) db) None.
Proof.
  intros Hne. unfold deletePatient. unfold_M. simpl.
  destruct (index_cursor r_patientId id (readings db)) as [|e l]; [done|]. done.
Qed.

(** All a run of [deletePatient] can leave: the database as it was,
    the patient alone deleted, or the patient and the readings deleted. *)
Lemma deletePatient_outcomes id db f :
  final_db (deletePatient id db f) = db
  ∨ final_db (deletePatient id db f) = with_patients (delete id) db
  ∨ final_db (deletePatient id db f) = without_patient id db.
Proof.
  destruct (deletePatient id db f) as [[] db' f'|e db' f'] eqn:Hrun; simpl.
  - right; right. apply steady_deletePatient in Hrun.
    rewrite deletePatient_None in Hrun. congruence.
  - assert (faults_only (cursor ← read (λ db, index_cursor r_patientId id (readings db));
                         for_of cursor (λ entry, write (with_readings (delete entry.1)))))
      as Hcascade by auto 10 with faults_only.
    revert Hrun. unfold deletePatient.
    remember (transaction (_ ≫= _)) as cascade eqn:Hc.
    unfold mbind, M_bind, transaction, write.
    destruct f as [[|n]|].
    + intros [= _ <- _]. by left.
    + destruct (cascade (with_patients (delete id) db) (Some n))
        as [|e1 db1 f1] eqn:Htx; [done|].
      intros [= _ <- _]. right; left. subst cascade.
      by eapply transaction_thrown.
    + destruct (cascade (with_patients (delete id) db) None)
        as [|e1 db1 f1] eqn:Htx; [done|].
      intros [= _ <- _]. right; left. subst cascade.
      by eapply transaction_thrown.
Qed.

(** C1 does not hold of the code. On the database holding patient A1 and
    her reading R1, the run of [deletePatient "A1"] whose second write
    request (the first delete of the cursor) fails throws and leaves
    patient A1 deleted while reading R1 is still stored and still listed
    for A1: the two deletions are not one atomic unit of work. *)
Theorem deletePatient_half_deleted :
  let run := deletePatient "A1" alice_db (Some 1) in
  patients alice_db !! "A1" = Some alice
  ∧ thrown run = Some StorageFault
  ∧ patients (final_db run) !! "A1" = None
  ∧ readings (final_db run) !! "R1" = Some R1
  ∧ getPatientReadings "A1" (final_db run) None = Ok [R1] (final_db run) None.
Proof. vm_compute. done. Qed.

(** ** Saving a reading *)

Lemma saveReading_None reading db :
  saveReading reading db None = Ok () (with_reading reading db) None.
Proof.
  unfold saveReading, with_reading, mbind, M_bind, transaction, read.
  change (write (put_reading reading) db None) with (Ok () (put_reading reading db) None).
  cbv beta iota. by case_decide.
Qed.

Lemma testReferences_with_reading_new reading db :
  index_getAll ref_testName (r_testName reading) (testReferences db) = [] →
  testReferences (with_reading reading db)
  = <[derived_id (r_testName reading) := derived_reference reading]> (testReferences db).
Proof. intros Hnil. unfold with_reading. simpl. by rewrite Hnil. Qed.

Lemma testReferences_with_reading_known reading db :
  index_getAll ref_testName (r_testName reading) (testReferences db) ≠ [] →
  testReferences (with_reading reading db) = testReferences db.
Proof.
  intros Hne. unfold with_reading. simpl. rewrite decide_False; [done|].
  by intros ?%nil_length_inv.
Qed.

(** C3, as stated, fails. The catalogue, seeded with "Glucose", holds
    since reading R2 was saved the reference "hemoglobin" derived from
    it, and none whose testName is "Hemoglobin". Saving reading R1 of
    "Hemoglobin" inserts no new TestReference: the catalogue has two
    references before and two after, the reference derived from R1
    having taken, under the id "hemoglobin", the place of the one that
    was there. *)
Lemma saveReading_replaces_a_reference :
  let db := exec (saveReading R2) (exec (initDB [glucose]) emptyDB) in
  let db' := exec (saveReading R1) db in
  index_getAll ref_testName (r_testName R1) (testReferences db) = []
  ∧ saveReading R1 db None = Ok () db' None
  ∧ getAll (testReferences db) = [glucose; derived_reference R2]
  ∧ getAll (testReferences db') = [glucose; derived_reference R1]
  ∧ size (testReferences db) = 2
  ∧ size (testReferences db') = 2
  ∧ size (testReferences db') ≠ S (size (testReferences db)).
Proof.
  cbv zeta. split; [reflexivity|]. split; [apply saveReading_None|].
  repeat split; try reflexivity. vm_compute. discriminate.
Qed.

(** The number of records of a store after a put. *)
Lemma size_insert_new {V} (m : gmap string V) k v :
  m !! k = None → size (<[k:=v]> m) = S (size m).
Proof. apply map_size_insert_None. Qed.

Lemma size_insert_replace {V} (m : gmap string V) k v :
  is_Some (m !! k) → size (<[k:=v]> m) = size m.
Proof. apply map_size_insert_Some. Qed.

(** C3, amended. For every reading [r] and database with no reference
    whose testName is [r]'s, [saveReading r] (no request failing)
    completes and writes one reference into testReferences: it is put
    under the id made of [r.testName] lower-cased with each run of white
    space turned into one hyphen, bears [r.testName], [r.unit] and
    [r.idealMin], [r.idealMax] as its default bounds, and is afterwards
    the one reference of that name. It is a new record, the catalogue
    growing by exactly one, when no reference is stored under that id;
    otherwise it takes the place of the reference stored under that id,
    which bears another name, and the catalogue keeps its size. Saving
    then any reading of the same testName leaves testReferences as it
    is. *)
Theorem saveReading_derives_a_reference (r : TestReading) (db : DB) :
  index_getAll ref_testName (r_testName r) (testReferences db) = [] →
  ∃ db' ref,
    saveReading r db None = Ok () db' None
    ∧ testReferences db' = <[ref_id ref := ref]> (testReferences db)
    ∧ ref_id ref = replace_spaces false (toLowerCase (r_testName r))
    ∧ ref_testName ref = r_testName r
    ∧ ref_unit ref = r_unit r
    ∧ ref_defaultIdealMin ref = r_idealMin r
    ∧ ref_defaultIdealMax ref = r_idealMax r
    ∧ index_getAll ref_testName (r_testName r) (testReferences db') = [ref]
    ∧ (testReferences db !! ref_id ref = None →
         size (testReferences db') = S (size (testReferences db)))
    ∧ (∀ old, testReferences db !! ref_id ref = Some old →
         size (testReferences db') = size (testReferences db)
         ∧ ref_testName old ≠ r_testName r
         ∧ testReferences db' !! ref_id ref = Some ref)
    ∧ ∀ r2, r_testName r2 = r_testName r →
        ∃ db'', saveReading r2 db' None = Ok () db'' None
          ∧ testReferences db'' = testReferences db'.
Proof.
  intros Hnil. exists (with_reading r db), (derived_reference r).
  split; [apply saveReading_None|].
  pose proof (testReferences_with_reading_new r db Hnil) as Hrefs.
  assert (index_getAll ref_testName (r_testName r) (testReferences (with_reading r db))
          = [derived_reference r]) as Hone.
  { rewrite Hrefs. apply index_getAll_insert_fresh; [done|].
    intros k' v' _ Hk'. by apply (proj1 (index_getAll_nil _ _ _) Hnil k'). }
  do 7 (split; [done|]).
  split; [|split].
  - intros Hnew. rewrite Hrefs. by apply size_insert_new.
  - intros old Hold. rewrite Hrefs. split; [|split].
    + apply size_insert_replace. by exists old.
    + by apply (proj1 (index_getAll_nil _ _ _) Hnil _ _ Hold).
    + apply lookup_insert_eq.
  - intros r2 Hname. exists (with_reading r2 (with_reading r db)).
    split; [apply saveReading_None|].
    apply testReferences_with_reading_known. by rewrite Hname, Hone.
Qed.

Lemma saveReading_derives_a_reference_witness :
  index_getAll ref_testName "Total  Cholesterol" (testReferences alice_db) = []
  ∧ ∃ db' ref,
      saveReading cholesterol_reading alice_db None = Ok () db' None
      ∧ testReferences db' = <[ref_id ref := ref]> (testReferences alice_db)
      ∧ ref_id ref = "total-cholesterol"
      ∧ ref_unit ref = "mg/dL"
      ∧ index_getAll ref_testName "Total  Cholesterol" (testReferences db') = [ref]
      ∧ size (testReferences db') = 2.
Proof.
  split; [reflexivity|].
  destruct (saveReading_derives_a_reference cholesterol_reading alice_db)
    as (db' & ref & Hrun & Hrefs & Hid & _ & Hunit & _ & _ & Hone & Hnew & _);
    [reflexivity|].
  exists db', ref.
  split; [exact Hrun|]. split; [exact Hrefs|]. split; [rewrite Hid; reflexivity|].
  split; [rewrite Hunit; reflexivity|]. split; [exact Hone|].
  rewrite Hnew; [reflexivity|]. rewrite Hid. reflexivity.
Defined.

(** ** Test names that differ in letter case *)

(** Not every store ends with duplicates. From the empty database, saving
    reading R1 of "Hemoglobin" leaves the one reference derived from it;
    saving then R2 of "hemoglobin" leaves testReferences with a single
    record again, the one derived from R2 under the same id "hemoglobin":
    no reference is named "Hemoglobin" any more. *)
Lemma saveReading_case_variants_one_reference :
  let db := exec (saveReading R2) (exec (saveReading R1) emptyDB) in
  getAll (testReferences (exec (saveReading R1) emptyDB)) = [derived_reference R1]
  ∧ getAll (testReferences db) = [derived_reference R2]
  ∧ index_getAll ref_testName "Hemoglobin" (testReferences db) = []
  ∧ ¬ ∃ ref1 ref2, ref1 ∈ getAll (testReferences db)
                   ∧ ref2 ∈ getAll (testReferences db)
                   ∧ ref_testName ref1 = "Hemoglobin"
                   ∧ ref_testName ref2 = "hemoglobin".
Proof.
  cbv zeta. repeat split; try reflexivity.
  intros (ref1 & ref2 & H1 & _ & Hname & _).
  assert (getAll (testReferences (exec (saveReading R2) (exec (saveReading R1) emptyDB)))
          = [derived_reference R2]) as E by reflexivity.
  rewrite E in H1. apply list_elem_of_singleton in H1. subst ref1. discriminate Hname.
Qed.

(** Take two readings whose test names differ but are equal once
    lower-cased.
    - Saved one after the other into a database with no reference under
      either name, the second save does not find the reference of the first
      (the look-up by name compares exactly), and writes its own under the
      same derived id: testReferences ends as the initial store with the
      second reading's reference put under that id, the index has one
      reference under the second name and none under the first.
    - Two references, one per name, are left when a reference of the first
      name is already stored under an id other than the derived one. *)
Lemma saveReading_case_variants (r1 r2 : TestReading) (db : DB) :
  toLowerCase (r_testName r1) = toLowerCase (r_testName r2) →
  r_testName r1 ≠ r_testName r2 →
  index_getAll ref_testName (r_testName r2) (testReferences db) = [] →
  let db' := exec (saveReading r2) (exec (saveReading r1) db) in
  (index_getAll ref_testName (r_testName r1) (testReferences db) = [] →
     testReferences db'
     = <[derived_id (r_testName r2) := derived_reference r2]> (testReferences db)
     ∧ index_getAll ref_testName (r_testName r2) (testReferences db') = [derived_reference r2]
     ∧ index_getAll ref_testName (r_testName r1) (testReferences db') = [])
  ∧ (∀ k ref, testReferences db !! k = Some ref →
       ref_testName ref = r_testName r1 →
       k ≠ derived_id (r_testName r2) →
       testReferences db' !! k = Some ref
       ∧ testReferences db' !! derived_id (r_testName r2) = Some (derived_reference r2)).
Proof.
  intros Hlower Hne Hnil2 db'. subst db'. unfold exec.
  rewrite !saveReading_None. simpl.
  assert (derived_id (r_testName r1) = derived_id (r_testName r2)) as Hid
    by (unfold derived_id; by rewrite Hlower).
  pose proof (proj1 (index_getAll_nil _ _ _) Hnil2) as Hno2.
  split.
  - intros Hnil1.
    pose proof (proj1 (index_getAll_nil _ _ _) Hnil1) as Hno1.
    pose proof (testReferences_with_reading_new r1 db Hnil1) as Hrefs1.
    assert (index_getAll ref_testName (r_testName r2)
              (testReferences (with_reading r1 db)) = []) as Hnil2'.
    { apply index_getAll_nil. intros k v. rewrite Hrefs1.
      destruct (decide (k = derived_id (r_testName r1))) as [->|Hk].
      - rewrite lookup_insert_eq. intros [= <-]. done.
      - rewrite lookup_insert_ne by done. apply Hno2. }
    assert (testReferences (with_reading r2 (with_reading r1 db))
            = <[derived_id (r_testName r2) := derived_reference r2]> (testReferences db))
      as Hrefs2.
    { rewrite (testReferences_with_reading_new r2 _ Hnil2'), Hrefs1, Hid.
      apply insert_insert_eq. }
    rewrite Hrefs2. split; [done|]. split.
    + apply index_getAll_insert_fresh; [done|]. intros k' v' _. apply Hno2.
    + apply index_getAll_nil. intros k v.
      destruct (decide (k = derived_id (r_testName r2))) as [->|Hk].
      * rewrite lookup_insert_eq. intros [= <-]. simpl. congruence.
      * rewrite lookup_insert_ne by done. apply Hno1.
  - intros k ref Hk Hname Hkne.
    assert (index_getAll ref_testName (r_testName r1) (testReferences db) ≠ []) as Hknown.
    { intros Hnil. by apply (proj1 (index_getAll_nil _ _ _) Hnil k ref). }
    pose proof (testReferences_with_reading_known r1 db Hknown) as Hrefs1.
    assert (index_getAll ref_testName (r_testName r2)
              (testReferences (with_reading r1 db)) = []) as Hnil2'
      by (by rewrite Hrefs1).
    rewrite (testReferences_with_reading_new r2 _ Hnil2'), Hrefs1.
    rewrite lookup_insert_ne by done. rewrite lookup_insert_eq. done.
Qed.

(** C7. There is a pair of readings whose test names differ only in
    letter case, R1 of "Hemoglobin" and R2 of "hemoglobin", and a store,
    the one seeded with a catalogue that has "Hemoglobin" under the id
    "cbc-hb", such that saving R1 and then R2 with [saveReading] leaves
    two references, one per case-variant name: the look-up by test name
    compares exactly, finds the catalogued reference for "Hemoglobin" and
    none for "hemoglobin", for which a second reference is then
    derived. *)
Theorem saveReading_case_variants_duplicates :
  ∃ (r1 r2 : TestReading) (db : DB),
    r_testName r1 = "Hemoglobin"
    ∧ r_testName r2 = "hemoglobin"
    ∧ toLowerCase (r_testName r1) = toLowerCase (r_testName r2)
    ∧ r_testName r1 ≠ r_testName r2
    ∧ db = exec (initDB [catalogued_hemoglobin]) emptyDB
    ∧ ∃ db1 db2 ref1 ref2,
        saveReading r1 db None = Ok () db1 None
        ∧ saveReading r2 db1 None = Ok () db2 None
        ∧ index_getAll ref_testName (r_testName r2) (testReferences db1) = []
        ∧ getAll (testReferences db2) = [ref1; ref2]
        ∧ ref_id ref1 ≠ ref_id ref2
        ∧ ref_testName ref1 = r_testName r1
        ∧ ref_testName ref2 = r_testName r2
        ∧ index_getAll ref_testName (r_testName r1) (testReferences db2) = [ref1]
        ∧ index_getAll ref_testName (r_testName r2) (testReferences db2) = [ref2].
Proof.
  exists R1, R2, catalogue_db.
  do 4 (split; [reflexivity || discriminate|]). split; [reflexivity|].
  exists (with_reading R1 catalogue_db), (with_reading R2 (with_reading R1 catalogue_db)),
    catalogued_hemoglobin, (derived_reference R2).
  split; [apply saveReading_None|]. split; [apply saveReading_None|].
  repeat split; (reflexivity || discriminate).
Qed.

(** The same holds of every pair of such names and every store that has
    the first name under an id other than the derived one; from the empty
    store the second reference replaces the first. *)
Lemma saveReading_case_variants_samples :
  (testReferences (exec (saveReading R2) (exec (saveReading R1) emptyDB))
     = <[derived_id "hemoglobin" := derived_reference R2]> (testReferences emptyDB)
     ∧ index_getAll ref_testName "hemoglobin"
         (testReferences (exec (saveReading R2) (exec (saveReading R1) emptyDB)))
       = [derived_reference R2]
     ∧ index_getAll ref_testName "Hemoglobin"
         (testReferences (exec (saveReading R2) (exec (saveReading R1) emptyDB)))
       = [])
  ∧ (testReferences (exec (saveReading R2) (exec (saveReading R1) catalogue_db)) !! "cbc-hb"
     = Some catalogued_hemoglobin
     ∧ testReferences (exec (saveReading R2) (exec (saveReading R1) catalogue_db))
         !! derived_id "hemoglobin"
       = Some (derived_reference R2)).
Proof.
  split.
  - apply (saveReading_case_variants R1 R2 emptyDB); (reflexivity || discriminate).
  - apply (saveReading_case_variants R1 R2 catalogue_db);
      (reflexivity || discriminate).
Qed.

(** ** Preferences *)

(** C8. For every database and every preferences object [prefs],
    [savePreferences prefs] (no request failing) completes, and what
    [getPreferences] then returns has, field by field, what [prefs] gives
    when [prefs] has the property (its value, or [undefined] when that is
    what the property holds), and otherwise the value [getPreferences]
    returned before the save: the given fields are merged in, and every
    field [prefs] leaves out survives. *)
Theorem savePreferences_merges (prefs : GivenPreferences) (db : DB) :
  ∃ before db' after,
    getPreferences db None = Ok before db None
    ∧ savePreferences prefs db None = Ok () db' None
    ∧ getPreferences db' None = Ok after db' None
    ∧ sortMembersBy after
      = match given_sortMembersBy prefs with
        | Some given => given | None => sortMembersBy before end
    ∧ filterMembersQuery after
      = match given_filterMembersQuery prefs with
        | Some given => given | None => filterMembersQuery before end
    ∧ sortTestsBy after
      = match given_sortTestsBy prefs with
        | Some given => given | None => sortTestsBy before end
    ∧ filterTestsQuery after
      = match given_filterTestsQuery prefs with
        | Some given => given | None => filterTestsQuery before end
    ∧ patients db' = patients db
    ∧ readings db' = readings db
    ∧ testReferences db' = testReferences db.
Proof.
  set (before := default no_preferences (preferences db !! "user_prefs")).
  exists before, (put_preferences (spread before prefs) "user_prefs" db),
    (spread before prefs).
  split; [done|]. split; [done|]. split; [|done].
  unfold getPreferences, mbind, M_bind, read, mret, M_ret. simpl.
  by rewrite lookup_insert_eq.
Qed.

(** The example of the specification: saving [{sortMembersBy: "age"}] over
    [{sortMembersBy: "name", filterMembersQuery: "abc"}]. And a property
    given with the value [undefined] is given: saving
    [{sortMembersBy: undefined}] over the same leaves [sortMembersBy]
    undefined. *)
Example savePreferences_age_over_name :
  let stored := {| sortMembersBy := Some ByName; filterMembersQuery := Some "abc";
                   sortTestsBy := None; filterTestsQuery := None |} in
  let db := exec (savePreferences
                    {| given_sortMembersBy := Some (Some ByName);
                       given_filterMembersQuery := Some (Some "abc");
                       given_sortTestsBy := None; given_filterTestsQuery := None |})
                 emptyDB in
  let age := {| given_sortMembersBy := Some (Some ByAge);
                given_filterMembersQuery := None;
                given_sortTestsBy := None; given_filterTestsQuery := None |} in
  let undefined := {| given_sortMembersBy := Some None;
                      given_filterMembersQuery := None;
                      given_sortTestsBy := None; given_filterTestsQuery := None |} in
  returned (getPreferences db None) = Some stored
  ∧ returned (getPreferences (exec (savePreferences age) db) None)
    = Some {| sortMembersBy := Some ByAge; filterMembersQuery := Some "abc";
              sortTestsBy := None; filterTestsQuery := None |}
  ∧ returned (getPreferences (exec (savePreferences undefined) db) None)
    = Some {| sortMembersBy := None; filterMembersQuery := Some "abc";
              sortTestsBy := None; filterTestsQuery := None |}.
Proof. repeat split; reflexivity. Qed.

(** ** Importing a snapshot *)

(** *** Parsed values *)

Lemma truthy_Some v w : truthy v = Some w → v = Some w.
Proof.
  destruct v as [[|[]|x|s| |]|]; simpl; try done.
  - destruct x; congruence.
  - case_decide; congruence.
Qed.

Lemma get_not_null data name db f :
  data ≠ JSON_null → get data name db f = Ok (property_of data name) db f.
Proof. by destruct data. Qed.

Lemma get_null name db f : get JSON_null name db f = Thrown TypeError db f.
Proof. done. Qed.

Lemma steady_get data name : steady (get data name).
Proof. destruct data; apply steady_throw || apply steady_ret. Qed.

Lemma steady_for_of_value value (body : JSON → M unit) :
  (∀ x, steady (body x)) → steady (for_of_value value body).
Proof. intros Hb. destruct value; simpl; auto with steady. Qed.

Lemma steady_put_value {V} (as_record : JSON → option V) put value :
  steady (put_value as_record put value).
Proof. unfold put_value. destruct (key_of_value value); auto with steady. Qed.

Lemma steady_put_preferences_value value key : steady (put_preferences_value value key).
Proof. apply steady_write. Qed.

#[global] Hint Resolve steady_get steady_for_of_value steady_put_value
  steady_put_preferences_value : steady.

Lemma keeps_get {B} (proj : DB → B) data name : keeps proj (get data name).
Proof. destruct data; apply keeps_throw || apply keeps_ret. Qed.

Lemma keeps_for_of_value {B} (proj : DB → B) value (body : JSON → M unit) :
  (∀ x, keeps proj (body x)) → keeps proj (for_of_value value body).
Proof. intros Hb. destruct value; simpl; auto with keeps. Qed.

Lemma keeps_put_value {B V} (proj : DB → B) (as_record : JSON → option V) put value :
  (∀ record db, proj (put record db) = proj db) →
  keeps proj (put_value as_record put value).
Proof.
  intros Hput. unfold put_value. destruct (key_of_value value); [|apply keeps_throw].
  apply keeps_write. intros db. by destruct (as_record value).
Qed.

Lemma keeps_put_preferences_value {B} (proj : DB → B) value key :
  (∀ prefs db, proj (put_preferences prefs key db) = proj db) →
  keeps proj (put_preferences_value value key).
Proof.
  intros Hput. apply keeps_write. intros db. by destruct (as_UserPreferences value).
Qed.

#[global] Hint Resolve keeps_get keeps_for_of_value : keeps.
#[global] Hint Extern 2 (keeps _ (put_value _ _ _)) =>
  apply keeps_put_value; intros ??; reflexivity : keeps.
#[global] Hint Extern 2 (keeps _ (put_preferences_value _ _)) =>
  apply keeps_put_preferences_value; intros ??; reflexivity : keeps.

Lemma invariant_get (P : DB → Prop) data name : invariant P (get data name).
Proof. destruct data; apply invariant_throw || apply invariant_ret. Qed.

Lemma invariant_for_of_value (P : DB → Prop) value (body : JSON → M unit) :
  (∀ x, invariant P (body x)) → invariant P (for_of_value value body).
Proof. intros Hb. destruct value; simpl; auto with invariant. Qed.

Lemma invariant_put_value {V} (P : DB → Prop) (as_record : JSON → option V) put value :
  (∀ record db, P db → P (put record db)) →
  invariant P (put_value as_record put value).
Proof.
  intros Hput. unfold put_value. destruct (key_of_value value); [|apply invariant_throw].
  apply invariant_write. intros db. destruct (as_record value); [apply Hput | done].
Qed.

Lemma invariant_put_preferences_value (P : DB → Prop) value key :
  (∀ prefs db, P db → P (put_preferences prefs key db)) →
  invariant P (put_preferences_value value key).
Proof.
  intros Hput. apply invariant_write. intros db.
  destruct (as_UserPreferences value); [apply Hput | done].
Qed.

#[global] Hint Resolve invariant_get invariant_for_of_value : invariant.

(** *** Code that does the same *)

Lemma same_refl {A} (m : M A) : same m m.
Proof. done. Qed.

Lemma same_bind {A B} (m m' : M A) (k k' : A → M B) :
  same m m' → (∀ a, same (k a) (k' a)) → same (m ≫= k) (m' ≫= k').
Proof.
  intros Hm Hk db f. unfold mbind, M_bind. rewrite Hm.
  destruct (m' db f); [apply Hk | done].
Qed.

Lemma same_transaction {A} (body body' : M A) :
  same body body' → same (transaction body) (transaction body').
Proof. intros Hb db f. unfold transaction. by rewrite Hb. Qed.

Lemma same_for_of {A B} (l : list A) (l' : list B) (body : A → M unit) (body' : B → M unit) :
  Forall2 (λ x y, same (body x) (body' y)) l l' →
  same (for_of l body) (for_of l' body').
Proof.
  induction 1 as [|x y l l' Hxy _ IH]; simpl; [done|].
  apply same_bind; [done | by intros []].
Qed.

Lemma try_catch_rethrow {A} (body : M A) : same (try_catch body (λ e, throw e)) body.
Proof. intros db f. unfold try_catch, throw. by destruct (body db f). Qed.

(** *** Values of the declared types *)

Lemma as_string_Some v s : as_string v = Some s → v = Some (JSON_string s).
Proof. destruct v as [[]|]; simpl; congruence. Qed.

(** A value that is a record has its [id], a string, for key. *)
Lemma as_Patient_key v p : as_Patient v = Some p → key_of_value v = Some (JSON_string (p_id p)).
Proof.
  destruct v as [| | | | |o]; try done. simpl.
  destruct (as_string (own_property "id" o)) as [id|] eqn:Hid; [|done].
  apply as_string_Some in Hid. rewrite Hid. simpl.
  destruct (as_string _); [|done]. simpl. destruct (optionally _ _); [|done].
  simpl. by intros [= <-].
Qed.

Lemma as_TestReading_key v r :
  as_TestReading v = Some r → key_of_value v = Some (JSON_string (r_id r)).
Proof.
  destruct v as [| | | | |o]; try done. simpl.
  destruct (as_string (own_property "id" o)) as [id|] eqn:Hid; [|done].
  apply as_string_Some in Hid. rewrite Hid. simpl.
  repeat (match goal with |- context [?x ≫= _] => destruct x; [|done]; simpl end).
  by intros [= <-].
Qed.

Lemma as_TestReference_key v ref :
  as_TestReference v = Some ref → key_of_value v = Some (JSON_string (ref_id ref)).
Proof.
  destruct v as [| | | | |o]; try done. simpl.
  destruct (as_string (own_property "id" o)) as [id|] eqn:Hid; [|done].
  apply as_string_Some in Hid. rewrite Hid. simpl.
  repeat (match goal with |- context [?x ≫= _] => destruct x; [|done]; simpl end).
  by intros [= <-].
Qed.

(** Filing a value that is a record is the request that puts the record. *)
Lemma same_put_value {V} (as_record : JSON → option V) (put : V → DB → DB) value record :
  is_Some (key_of_value value) →
  as_record value = Some record →
  same (put_value as_record put value) (write (put record)).
Proof. intros [k Hk] Hrecord db f. unfold put_value. by rewrite Hk, Hrecord. Qed.

Lemma same_put_preferences_value value prefs key :
  as_UserPreferences value = Some prefs →
  same (put_preferences_value value key) (write (put_preferences prefs key)).
Proof. intros Hprefs db f. unfold put_preferences_value. by rewrite Hprefs. Qed.

Lemma same_for_of_list {V} (as_record : JSON → option V) (put : V → DB → DB) value l :
  (∀ v record, as_record v = Some record → is_Some (key_of_value v)) →
  as_list as_record value = Some l →
  same (for_of_value value (put_value as_record put)) (for_of l (λ record, write (put record))).
Proof.
  intros Hkey Hl. destruct value as [| | | |items|]; try done. simpl in *.
  apply same_for_of. apply mapM_Some in Hl.
  induction Hl as [|v record items l Hv _ IH]; constructor; [|done].
  apply same_put_value; [by eapply Hkey | done].
Qed.

(** A property of a payload of the declared type is missing, and then
    falsy, or is of its type, and then truthy. *)
Lemma missing_or_truthy {A} (as_A : JSON → option A) v field :
  (∀ w a, as_A w = Some a → truthy (Some w) = Some w) →
  missing_or as_A v = Some field →
  match field with
  | None => truthy v = None
  | Some a => ∃ w, truthy v = Some w ∧ as_A w = Some a
  end.
Proof.
  intros Htruthy. destruct v as [w|]; [|by intros [= <-]].
  destruct w; unfold missing_or; try (by intros [= <-]);
    match goal with |- context [as_A ?w] =>
      destruct (as_A w) as [a|] eqn:Ha; [|done];
      intros [= <-]; exists w; split; [by eapply Htruthy | done] end.
Qed.

Lemma as_list_truthy {A} (as_A : JSON → option A) w l :
  as_list as_A w = Some l → truthy (Some w) = Some w.
Proof. by destruct w. Qed.

Lemma as_Patient_truthy w p : as_Patient w = Some p → truthy (Some w) = Some w.
Proof. by destruct w. Qed.

Lemma as_UserPreferences_truthy w prefs :
  as_UserPreferences w = Some prefs → truthy (Some w) = Some w.
Proof. by destruct w. Qed.

(** *** A payload of the declared type *)

Lemma mret_bind {A B} (a : A) (k : A → M B) : mret a ≫= k = k a.
Proof. reflexivity. Qed.

Lemma same_trans {A} (m1 m2 m3 : M A) : same m1 m2 → same m2 m3 → same m1 m3.
Proof. intros H12 H23 db f. by rewrite H12. Qed.

Ltac same_import :=
  repeat first
    [ progress cbn [data_patients data_readings data_testReferences data_preferences
                    data_patient]
    | match goal with
      | |- same (get (JSON_object ?o) ?n ≫= ?k) _ =>
          change (get (JSON_object o) n ≫= k) with (k (own_property n o)); cbv beta
      | H : truthy ?v = _ |- context [truthy ?v] => rewrite H
      | |- same (transaction _) (transaction _) => apply same_transaction
      | |- same (for_of_value _ _) (for_of _ _) =>
          eapply same_for_of_list; [|eassumption];
          first [ intros ?? ?%as_Patient_key | intros ?? ?%as_TestReading_key
                | intros ?? ?%as_TestReference_key ]; by eexists
      | |- same (put_value _ _ _) (write _) =>
          apply same_put_value; [erewrite as_Patient_key by eassumption; by eexists
                                | assumption]
      | |- same (put_preferences_value _ _) (write _) =>
          by apply same_put_preferences_value
      | |- same (_ ≫= _) (_ ≫= _) => apply same_bind; [|intros []]
      | |- same ?m ?m => apply same_refl
      end ].

(** The properties of a payload of the declared type, as the tests of
    the import see them. *)
Lemma as_Payload_truthy o ps rs refs prefs p :
  as_Payload (JSON_object o)
  = Some {| data_patients := ps; data_readings := rs; data_testReferences := refs;
            data_preferences := prefs; data_patient := p |} →
  match ps with
  | Some l => ∃ w, truthy (own_property "patients" o) = Some w ∧ as_list as_Patient w = Some l
  | None => truthy (own_property "patients" o) = None
  end
  ∧ match rs with
    | Some l =>
        ∃ w, truthy (own_property "readings" o) = Some w ∧ as_list as_TestReading w = Some l
    | None => truthy (own_property "readings" o) = None
    end
  ∧ match refs with
    | Some l =>
        ∃ w, truthy (own_property "testReferences" o) = Some w
             ∧ as_list as_TestReference w = Some l
    | None => truthy (own_property "testReferences" o) = None
    end
  ∧ match prefs with
    | Some a =>
        ∃ w, truthy (own_property "preferences" o) = Some w ∧ as_UserPreferences w = Some a
    | None => truthy (own_property "preferences" o) = None
    end
  ∧ match p with
    | Some a => ∃ w, truthy (own_property "patient" o) = Some w ∧ as_Patient w = Some a
    | None => truthy (own_property "patient" o) = None
    end.
Proof.
  unfold as_Payload.
  destruct (missing_or (as_list as_Patient) (own_property "patients" o))
    as [ps'|] eqn:Hps; [|done].
  destruct (missing_or (as_list as_TestReading) (own_property "readings" o))
    as [rs'|] eqn:Hrs; [|done].
  destruct (missing_or (as_list as_TestReference) (own_property "testReferences" o))
    as [refs'|] eqn:Hrefs; [|done].
  destruct (missing_or as_UserPreferences (own_property "preferences" o))
    as [prefs'|] eqn:Hprefs; [|done].
  destruct (missing_or as_Patient (own_property "patient" o)) as [p'|] eqn:Hp; [|done].
  simpl. intros [= <- <- <- <- <-].
  apply missing_or_truthy in Hps; [|apply as_list_truthy].
  apply missing_or_truthy in Hrs; [|apply as_list_truthy].
  apply missing_or_truthy in Hrefs; [|apply as_list_truthy].
  apply missing_or_truthy in Hprefs; [|apply as_UserPreferences_truthy].
  apply missing_or_truthy in Hp; [|apply as_Patient_truthy].
  done.
Qed.

Lemma importProfile_typed v data :
  as_Payload v = Some data → same (importProfile (Json v)) (importPayload data).
Proof.
  destruct v as [| | | | |o]; try done. destruct data as [ps rs refs prefs p].
  intros (Hps & Hrs & Hrefs & Hprefs & Hp)%as_Payload_truthy.
  unfold importProfile. eapply same_trans; [apply try_catch_rethrow|].
  change (JSON_parse (Json (JSON_object o))) with (mret (M:=M) (JSON_object o)).
  rewrite mret_bind. unfold importPayload.
  destruct ps as [ps|]; [destruct Hps as (wps & Hps & Hlps)|];
    (destruct rs as [rs|]; [destruct Hrs as (wrs & Hrs & Hlrs)|]);
    (destruct refs as [refs|]; [destruct Hrefs as (wrefs & Hrefs & Hlrefs)|]);
    (destruct prefs as [prefs|]; [destruct Hprefs as (wprefs & Hprefs & Hlprefs)|]);
    (destruct p as [p|]; [destruct Hp as (wp & Hp & Hlp)|]);
    same_import.
Qed.

(** On a payload of the declared type the tests of the import tell the
    shapes: the branch it is sent to is the one of its shape. *)
Lemma branch_classify v data :
  as_Payload v = Some data →
  branch v = match classify data with
             | FullProfile _ _ _ _ => FullProfileBranch
             | SingleMember _ _ => SingleMemberBranch
             | ReferencesOnly _ => ReferencesBranch
             | Unrecognised => NoBranch
             end.
Proof.
  destruct v as [| | | | |o]; try done. destruct data as [ps rs refs prefs p].
  intros (Hps & Hrs & Hrefs & Hprefs & Hp)%as_Payload_truthy.
  unfold branch, property_of, classify. simpl.
  destruct ps as [ps|]; [destruct Hps as (wps & Hps & Hlps)|];
    (destruct rs as [rs|]; [destruct Hrs as (wrs & Hrs & Hlrs)|]);
    (destruct refs as [refs|]; [destruct Hrefs as (wrefs & Hrefs & Hlrefs)|]);
    (destruct p as [p|]; [destruct Hp as (wp & Hp & Hlp)|]);
    rewrite ?Hps, ?Hrs, ?Hp, ?Hrefs; done.
Qed.

Ltac run_for_of :=
  repeat (rewrite for_of_write_None; cbv beta iota).

Lemma importPayload_None data db :
  classify data ≠ Unrecognised →
  importPayload data db None = Ok () (imported (classify data) db) None.
Proof.
  unfold importPayload, classify, imported, mbind, M_bind,
    mret, M_ret, transaction, upsert_patients, upsert_readings, upsert_testReferences.
  destruct data as [[ps|] [rs|] [refs|] [prefs|] [p|]]; simpl; intros Hshape;
    try done; run_for_of; done.
Qed.

Lemma importPayload_unrecognised data db f :
  classify data = Unrecognised →
  importPayload data db f = Thrown (Error "Invalid import format") db f.
Proof.
  unfold importPayload, classify.
  destruct data as [[ps|] [rs|] [refs|] [prefs|] [p|]]; simpl; intros Hshape; done.
Qed.

(** A run of the import of a payload of the declared type that throws
    has written nothing. *)
Lemma importPayload_thrown_nothing data db f e db' f' :
  importPayload data db f = Thrown e db' f' → db' = db.
Proof.
  unfold importPayload.
  destruct (data_patients data), (data_readings data), (data_patient data),
    (data_testReferences data);
    try (unfold throw; congruence);
    (eapply transaction_thrown);
    destruct (data_preferences data); auto 10 with faults_only.
Qed.

Lemma importProfile_None v data db :
  as_Payload v = Some data →
  classify data ≠ Unrecognised →
  importProfile (Json v) db None = Ok () (imported (classify data) db) None.
Proof.
  intros Hdata Hshape. rewrite (importProfile_typed v data Hdata).
  by apply importPayload_None.
Qed.

Lemma importProfile_unrecognised v data db f :
  as_Payload v = Some data →
  classify data = Unrecognised →
  importProfile (Json v) db f = Thrown (Error "Invalid import format") db f.
Proof.
  intros Hdata Hshape. rewrite (importProfile_typed v data Hdata).
  by apply importPayload_unrecognised.
Qed.

(** A run of [importProfile] on a payload of the declared type that
    throws has written nothing. *)
Lemma importProfile_thrown_nothing v data db f e db' f' :
  as_Payload v = Some data →
  importProfile (Json v) db f = Thrown e db' f' → db' = db.
Proof.
  intros Hdata. rewrite (importProfile_typed v data Hdata).
  apply importPayload_thrown_nothing.
Qed.




(** *** Any text *)

#[global] Hint Extern 3 (steady (match truthy ?v with _ => _ end)) =>
  destruct (truthy v) : steady.
#[global] Hint Extern 3 (keeps _ (match truthy ?v with _ => _ end)) =>
  destruct (truthy v) : keeps.
#[global] Hint Extern 3 (invariant _ (match truthy ?v with _ => _ end)) =>
  destruct (truthy v) : invariant.

Lemma steady_try_catch_rethrow {A} (body : M A) :
  steady body → steady (try_catch body (λ e, throw e)).
Proof.
  intros Hb db f a db' f' H. unfold try_catch in *.
  destruct (body db f) as [a1 db1 f1|] eqn:E; [|done].
  rewrite (Hb _ _ _ _ _ E). congruence.
Qed.

Lemma steady_importProfile text : steady (importProfile text).
Proof.
  unfold importProfile. apply steady_try_catch_rethrow, steady_bind.
  { destruct text; apply steady_throw || apply steady_ret. }
  intros data. auto 20 with steady.
Qed.

(** Each branch of the import is one unit of work for a payload of the
    declared type: whatever request fails, the database is left as it was
    or with everything the shape prescribes written. *)
Lemma importProfile_all_or_nothing v data db f :
  as_Payload v = Some data →
  final_db (importProfile (Json v) db f) = db
  ∨ final_db (importProfile (Json v) db f) = imported (classify data) db.
Proof.
  intros Hdata.
  destruct (importProfile (Json v) db f) as [[] db' f'|e db' f'] eqn:Hrun; simpl.
  - right. apply steady_importProfile in Hrun.
    destruct (classify data) eqn:Hshape;
      try (rewrite (importProfile_None v data db Hdata) in Hrun by (by rewrite Hshape);
           rewrite Hshape in Hrun; congruence).
    by rewrite (importProfile_unrecognised v data db None Hdata Hshape) in Hrun.
  - left. by eapply importProfile_thrown_nothing.
Qed.

(** A text that is no JSON is rejected by [JSON.parse], before anything
    is written. *)
Lemma importProfile_not_json db f :
  importProfile NotJson db f = Thrown SyntaxError db f.
Proof. done. Qed.

(** The payload [null] has no properties to read. *)
Lemma importProfile_null db f :
  importProfile (Json JSON_null) db f = Thrown TypeError db f.
Proof. done. Qed.

(** The order matters: a payload with all of [patients], [patient],
    [readings] and [testReferences] is a full profile, and one with
    [patient], [readings] and [testReferences] is a single member, whose
    references are not imported. *)
Example classify_in_order (ps : list Patient) (p : Patient) (rs : list TestReading)
    (refs : list TestReference) :
  classify {| data_patients := Some ps; data_readings := Some rs;
              data_testReferences := Some refs; data_preferences := None;
              data_patient := Some p |}
  = FullProfile ps rs (Some refs) None
  ∧ classify {| data_patients := None; data_readings := Some rs;
                data_testReferences := Some refs; data_preferences := None;
                data_patient := Some p |}
    = SingleMember p rs.
Proof. done. Qed.

(** The tests of the import on an object, the properties read. *)
Ltac read_properties :=
  repeat match goal with
         | |- context [get (JSON_object ?o) ?n ≫= ?k] =>
             change (get (JSON_object o) n ≫= k) with (k (own_property n o)); cbv beta
         end.

(** A value on which no test of the import passes is rejected, nothing
    written, unless it is [null]. *)
Lemma importProfile_no_branch data db f :
  data ≠ JSON_null →
  branch data = NoBranch →
  importProfile (Json data) db f = Thrown (Error "Invalid import format") db f.
Proof.
  intros Hnull. destruct data as [| | | | |o]; try done.
  unfold branch, property_of, importProfile.
  rewrite (try_catch_rethrow _ db f).
  change (JSON_parse (Json (JSON_object o))) with (mret (M:=M) (JSON_object o)).
  rewrite mret_bind. read_properties.
  destruct (truthy (own_property "patients" o)), (truthy (own_property "readings" o)),
    (truthy (own_property "patient" o)), (truthy (own_property "testReferences" o));
    done.
Qed.

(** C10, as stated, fails. The payload [{"patients": [Alice], "readings":
    true}] has a patients list and no readings list. [importProfile]
    takes it for a full profile, [true] being truthy: it puts Alice, then
    throws a TypeError, and Alice stays written. *)
Lemma importProfile_readings_true_writes_a_patient :
  (property_of patients_and_true "patients" ≫= as_list as_Patient) = Some [alice]
  ∧ (property_of patients_and_true "readings" ≫= as_list as_TestReading) = None
  ∧ importProfile (Json patients_and_true) emptyDB None
    = Thrown TypeError (put_patient alice emptyDB) None
  ∧ patients emptyDB !! "A1" = None
  ∧ patients (final_db (importProfile (Json patients_and_true) emptyDB None)) !! "A1"
    = Some alice.
Proof. repeat split; reflexivity. Qed.

(** C10, amended. For every payload with a patients list and a [readings]
    property that is missing or falsy ([null], [false], [0], the empty
    string), no run of [importProfile], failed or not, changes the
    patients store. If [testReferences] is missing or falsy too, every
    run throws the error "Invalid import format" and leaves the database
    as it was. If it is a list of references, the run in which no request
    fails completes having put each of those references and nothing
    else. *)
Theorem importProfile_patients_without_readings (data : JSON) (db : DB) (f : faults) :
  is_Some (property_of data "patients" ≫= as_list as_Patient) →
  truthy (property_of data "readings") = None →
  patients (final_db (importProfile (Json data) db f)) = patients db
  ∧ match truthy (property_of data "testReferences") with
    | None =>
        importProfile (Json data) db f = Thrown (Error "Invalid import format") db f
    | Some data_testReferences =>
        ∀ refs, as_list as_TestReference data_testReferences = Some refs →
          importProfile (Json data) db None = Ok () (upsert_testReferences refs db) None
          ∧ patients (upsert_testReferences refs db) = patients db
          ∧ readings (upsert_testReferences refs db) = readings db
          ∧ preferences (upsert_testReferences refs db) = preferences db
    end.
Proof.
  intros [ps Hps] Hrs.
  destruct data as [| | | | |o]; try done. unfold property_of in *.
  assert (∀ db f, importProfile (Json (JSON_object o)) db f
          = match truthy (own_property "testReferences" o) with
            | Some data_testReferences =>
                transaction (for_of_value data_testReferences
                               (put_value as_TestReference put_testReference))
            | None => throw (Error "Invalid import format")
            end db f) as Hrun.
  { intros db0 f0. unfold importProfile. rewrite (try_catch_rethrow _ db0 f0).
    change (JSON_parse (Json (JSON_object o))) with (mret (M:=M) (JSON_object o)).
    rewrite mret_bind. read_properties. rewrite Hrs.
    by destruct (truthy (own_property "patients" o)), (truthy (own_property "patient" o)). }
  split.
  - rewrite Hrun. destruct (truthy (own_property "testReferences" o)); [|done].
    apply keeps_transaction. auto with keeps.
  - rewrite !Hrun. destruct (truthy (own_property "testReferences" o)) as [w|]; [|done].
    intros refs Hrefs.
    assert (∀ l d, patients (upsert_testReferences l d) = patients d
                   ∧ readings (upsert_testReferences l d) = readings d
                   ∧ preferences (upsert_testReferences l d) = preferences d) as Hframe.
    { unfold upsert_testReferences. induction l as [|ref l IH]; intros d; simpl; [done|].
      destruct (IH (put_testReference ref d)) as (-> & -> & ->); done. }
    split; [|apply Hframe].
    rewrite (same_transaction _ _
               (same_for_of_list as_TestReference put_testReference w refs
                  ltac:(intros ?? ?%as_TestReference_key; by eexists) Hrefs)).
    unfold transaction. by rewrite for_of_write_None.
Qed.

Lemma importProfile_patients_without_readings_witness :
  is_Some (property_of patients_and_references "patients" ≫= as_list as_Patient)
  ∧ truthy (property_of patients_and_references "readings") = None
  ∧ patients (final_db (importProfile (Json patients_and_references) emptyDB (Some 0)))
    = patients emptyDB
  ∧ importProfile (Json patients_and_references) emptyDB None
    = Ok () (upsert_testReferences [catalogued_hemoglobin] emptyDB) None.
Proof.
  split; [eexists; reflexivity|]. split; [reflexivity|].
  destruct (importProfile_patients_without_readings
              patients_and_references emptyDB (Some 0)) as [Hkeep _];
    [eexists; reflexivity | reflexivity |].
  destruct (importProfile_patients_without_readings
              patients_and_references emptyDB None) as [_ Hrefs];
    [eexists; reflexivity | reflexivity |].
  split; [exact Hkeep|].
  exact (proj1 (Hrefs [catalogued_hemoglobin] eq_refl)).
Defined.

(** ** Export, then import *)

Lemma getters_return_contents db f :
  getPatients db f = Ok (up_patients (contents db)) db f
  ∧ getTestReferences db f = Ok (up_testReferences (contents db)) db f
  ∧ getPreferences db f = Ok (up_preferences (contents db)) db f.
Proof. done. Qed.

Lemma exportEntireProfile_run db f :
  exportEntireProfile db f = Ok (Json (JSON_of_profile (contents db))) db f.
Proof. done. Qed.

(** *** What is written reads back *)

Lemma as_number_of_number x : as_number (Some (JSON_of_number x)) = Some (json_number x).
Proof. by destruct x as [|[]]. Qed.

Lemma as_Patient_of_patient p : as_Patient (JSON_of_patient p) = Some (json_patient p).
Proof. destruct p as [id name [[|[]]|]]; reflexivity. Qed.

Lemma as_TestReference_of_testReference ref :
  as_TestReference (JSON_of_testReference ref) = Some (json_testReference ref).
Proof. destruct ref as [id name [c|] unit [[|[]]|] [[|[]]|]]; reflexivity. Qed.

Lemma as_TestReading_of_reading r :
  as_TestReading (JSON_of_reading r) = Some (json_reading r).
Proof.
  destruct r as [id pid name date [reason|] [|[]] [[|[]]|] [[|[]]|] unit [notes|]];
    reflexivity.
Qed.

Lemma as_UserPreferences_of_preferences prefs :
  as_UserPreferences (JSON_of_preferences prefs) = Some prefs.
Proof. destruct prefs as [[[]|] [q1|] [[]|] [q2|]]; reflexivity. Qed.

Lemma as_list_fmap {V} (as_record : JSON → option V) (to_JSON : V → JSON) (json : V → V) l :
  (∀ v, as_record (to_JSON v) = Some (json v)) →
  as_list as_record (JSON_array (to_JSON <$> l)) = Some (json <$> l).
Proof.
  intros Hback. simpl. apply mapM_Some.
  induction l as [|v l IH]; simpl; constructor; [apply Hback | done].
Qed.

Lemma missing_or_array {A} (as_A : JSON → option A) items :
  missing_or as_A (Some (JSON_array items)) = Some <$> as_A (JSON_array items).
Proof. done. Qed.

Lemma missing_or_list {V} (as_record : JSON → option V) (to_JSON : V → JSON)
    (json : V → V) l :
  (∀ v, as_record (to_JSON v) = Some (json v)) →
  missing_or (as_list as_record) (Some (JSON_array (to_JSON <$> l)))
  = Some (Some (json <$> l)).
Proof. intros Hback. by rewrite missing_or_array, (as_list_fmap _ _ json). Qed.

Lemma missing_or_preferences prefs :
  missing_or as_UserPreferences (Some (JSON_of_preferences prefs)) = Some (Some prefs).
Proof.
  change (Some <$> as_UserPreferences (JSON_of_preferences prefs) = Some (Some prefs)).
  by rewrite as_UserPreferences_of_preferences.
Qed.

Lemma missing_or_patient p :
  missing_or as_Patient (Some (JSON_of_patient p)) = Some (Some (json_patient p)).
Proof.
  change (Some <$> as_Patient (JSON_of_patient p) = Some (Some (json_patient p))).
  by rewrite as_Patient_of_patient.
Qed.

(** The payload a snapshot of the whole profile is. *)
Lemma as_Payload_profile profile :
  as_Payload (JSON_of_profile profile)
  = Some {| data_patients := Some (json_patient <$> up_patients profile);
            data_readings := Some (json_reading <$> up_readings profile);
            data_testReferences := Some (json_testReference <$> up_testReferences profile);
            data_preferences := Some (up_preferences profile);
            data_patient := None |}.
Proof.
  unfold as_Payload, JSON_of_profile, property.
  change (own_property "patients" _)
    with (Some (JSON_array (JSON_of_patient <$> up_patients profile))).
  change (own_property "readings" _)
    with (Some (JSON_array (JSON_of_reading <$> up_readings profile))).
  change (own_property "testReferences" _)
    with (Some (JSON_array (JSON_of_testReference <$> up_testReferences profile))).
  change (own_property "preferences" _)
    with (Some (JSON_of_preferences (up_preferences profile))).
  change (own_property "patient" _) with (@None JSON).
  rewrite (missing_or_list _ _ _ _ as_Patient_of_patient),
    (missing_or_list _ _ _ _ as_TestReading_of_reading),
    (missing_or_list _ _ _ _ as_TestReference_of_testReference),
    missing_or_preferences.
  reflexivity.
Qed.

(** The payload a member's snapshot is. *)
Lemma as_Payload_member (patient : option Patient) readings :
  as_Payload (JSON_object (
      property "patient" (JSON_of_patient <$> patient)
      ++ property "readings" (Some (JSON_array (JSON_of_reading <$> readings)))))
  = Some {| data_patients := None;
            data_readings := Some (json_reading <$> readings);
            data_testReferences := None; data_preferences := None;
            data_patient := json_patient <$> patient |}.
Proof.
  unfold as_Payload. destruct patient as [p|]; unfold property; simpl app.
  - change (own_property "patients" _) with (@None JSON).
    change (own_property "readings" _)
      with (Some (JSON_array (JSON_of_reading <$> readings))).
    change (own_property "testReferences" _) with (@None JSON).
    change (own_property "preferences" _) with (@None JSON).
    change (own_property "patient" _) with (Some (JSON_of_patient p)).
    rewrite (missing_or_list _ _ _ _ as_TestReading_of_reading), missing_or_patient.
    reflexivity.
  - change (own_property "patients" _) with (@None JSON).
    change (own_property "readings" _)
      with (Some (JSON_array (JSON_of_reading <$> readings))).
    change (own_property "testReferences" _) with (@None JSON).
    change (own_property "preferences" _) with (@None JSON).
    change (own_property "patient" _) with (@None JSON).
    rewrite (missing_or_list _ _ _ _ as_TestReading_of_reading).
    reflexivity.
Qed.

(** The payload a snapshot of the catalogue is. *)
Lemma as_Payload_references refs :
  as_Payload (JSON_object (
      property "testReferences" (Some (JSON_array (JSON_of_testReference <$> refs)))))
  = Some {| data_patients := None; data_readings := None;
            data_testReferences := Some (json_testReference <$> refs);
            data_preferences := None; data_patient := None |}.
Proof.
  unfold as_Payload, property.
  change (own_property "testReferences" _)
    with (Some (JSON_array (JSON_of_testReference <$> refs))).
  change (own_property "patients" _) with (@None JSON).
  change (own_property "readings" _) with (@None JSON).
  change (own_property "preferences" _) with (@None JSON).
  change (own_property "patient" _) with (@None JSON).
  by rewrite (missing_or_list _ _ _ _ as_TestReference_of_testReference).
Qed.

Lemma json_stable_iff x :
  json_stable x ↔
  match x with
  | JNull | JNum (S754_finite _ _ _) => True
  | JNum (S754_zero negative) => negative = false
  | JNum (S754_infinity _) | JNum S754_nan => False
  end.
Proof.
  unfold json_stable. destruct x as [|[[]| | |]]; simpl; split; try done.
Qed.

Lemma json_reading_stable r :
  json_reading r = r ↔
  json_stable (r_value r)
  ∧ from_option json_stable True (r_idealMin r)
  ∧ from_option json_stable True (r_idealMax r).
Proof.
  unfold json_stable. destruct r as [? ? ? ? ? v [lo|] [hi|] ? ?];
    unfold json_reading; simpl; split.
  all: try (intros [= -> -> ->]; done).
  all: try (intros [= -> ->]; done).
  all: try (intros [= ->]; done).
  all: try (intros (-> & -> & ->); done).
  all: try (intros (-> & -> & _); done).
  all: try (intros (-> & _ & ->); done).
  all: try (intros (-> & _ & _); done).
Qed.

Lemma json_patient_stable p :
  json_patient p = p ↔ from_option json_stable True (p_age p).
Proof.
  unfold json_stable. destruct p as [? ? [age|]]; unfold json_patient; simpl; split;
    try done; [by intros [= ->] | by intros ->].
Qed.

Lemma json_testReference_stable ref :
  json_testReference ref = ref ↔
  from_option json_stable True (ref_defaultIdealMin ref)
  ∧ from_option json_stable True (ref_defaultIdealMax ref).
Proof.
  unfold json_stable. destruct ref as [? ? ? ? [lo|] [hi|]];
    unfold json_testReference; simpl; split.
  all: try (intros [= -> ->]; done).
  all: try (intros [= ->]; done).
  all: try (intros (-> & ->); done).
  all: try (intros (-> & _); done).
  all: try (intros (_ & ->); done).
  all: done.
Qed.

Lemma store_keyed_empty : store_keyed emptyDB.
Proof. repeat split; apply map_Forall_empty. Qed.

Lemma store_keyed_put_patient p db : store_keyed db → store_keyed (put_patient p db).
Proof. intros (Hp & Hr & Href). repeat split; try done. by apply map_Forall_insert_2. Qed.

Lemma store_keyed_put_reading r db : store_keyed db → store_keyed (put_reading r db).
Proof. intros (Hp & Hr & Href). repeat split; try done. by apply map_Forall_insert_2. Qed.

Lemma store_keyed_put_testReference ref db :
  store_keyed db → store_keyed (put_testReference ref db).
Proof. intros (Hp & Hr & Href). repeat split; try done. by apply map_Forall_insert_2. Qed.

Lemma store_keyed_with_reading r db : store_keyed db → store_keyed (with_reading r db).
Proof.
  intros Hdb. unfold with_reading. cbv zeta. case_decide.
  - by apply store_keyed_put_testReference, store_keyed_put_reading.
  - by apply store_keyed_put_reading.
Qed.

Lemma store_keyed_delete_patient id db :
  store_keyed db → store_keyed (with_patients (delete id) db).
Proof. intros (Hp & Hr & Href). repeat split; try done. by apply map_Forall_delete. Qed.

Lemma store_keyed_delete_reading k db :
  store_keyed db → store_keyed (with_readings (delete k) db).
Proof. intros (Hp & Hr & Href). repeat split; try done. by apply map_Forall_delete. Qed.

Lemma store_keyed_put_preferences prefs key db :
  store_keyed db → store_keyed (put_preferences prefs key db).
Proof. by intros (Hp & Hr & Href). Qed.

#[global] Hint Extern 2 (invariant store_keyed (write _)) =>
  apply invariant_write;
  first [ apply store_keyed_put_patient | apply store_keyed_put_reading
        | apply store_keyed_put_testReference | apply store_keyed_delete_patient
        | apply store_keyed_delete_reading | apply store_keyed_put_preferences ]
  : invariant.
#[global] Hint Extern 2 (invariant store_keyed (put_value _ _ _)) =>
  apply invariant_put_value;
  first [ apply store_keyed_put_patient | apply store_keyed_put_reading
        | apply store_keyed_put_testReference ]
  : invariant.
#[global] Hint Extern 2 (invariant store_keyed (put_preferences_value _ _)) =>
  apply invariant_put_preferences_value; intros ?; apply store_keyed_put_preferences
  : invariant.

(** Every operation of the store keeps records filed under their ids,
    however it ends. *)
Lemma store_keyed_invariant :
  (∀ p, invariant store_keyed (savePatient p))
  ∧ (∀ id, invariant store_keyed (deletePatient id))
  ∧ (∀ r, invariant store_keyed (saveReading r))
  ∧ (∀ rs, invariant store_keyed (bulkSaveReadings rs))
  ∧ (∀ ref, invariant store_keyed (saveTestReference ref))
  ∧ (∀ prefs, invariant store_keyed (savePreferences prefs))
  ∧ (∀ text, invariant store_keyed (importProfile text)).
Proof.
  repeat apply conj; intros x.
  - unfold savePatient. auto with invariant.
  - unfold deletePatient. auto 10 with invariant.
  - unfold saveReading. auto 10 with invariant.
  - unfold bulkSaveReadings. auto 10 with invariant.
  - unfold saveTestReference. auto with invariant.
  - unfold savePreferences, getPreferences. auto 10 with invariant.
  - unfold importProfile, JSON_parse.
    apply invariant_try_catch; [|auto with invariant].
    apply invariant_bind; [destruct x; auto with invariant|]. intros data.
    auto 20 with invariant.
Qed.

Lemma upsert_patients_stores ps db :
  upsert_patients ps db
  = with_patients (λ m, foldl (λ m' p, <[p_id p := p]> m') m ps) db.
Proof.
  unfold upsert_patients. revert db.
  induction ps as [|p ps IH]; intros db; simpl; [by destruct db|]. by rewrite IH.
Qed.

Lemma upsert_readings_stores rs db :
  upsert_readings rs db
  = with_readings (λ m, foldl (λ m' r, <[r_id r := r]> m') m rs) db.
Proof.
  unfold upsert_readings. revert db.
  induction rs as [|r rs IH]; intros db; simpl; [by destruct db|]. by rewrite IH.
Qed.

Lemma upsert_testReferences_stores refs db :
  upsert_testReferences refs db
  = with_testReferences (λ m, foldl (λ m' ref, <[ref_id ref := ref]> m') m refs) db.
Proof.
  unfold upsert_testReferences. revert db.
  induction refs as [|ref refs IH]; intros db; simpl; [by destruct db|]. by rewrite IH.
Qed.

(** Records of a store, read back from JSON unchanged, and put again. *)
Lemma reput_getAll {V} (json : V → V) (key_of : V → string) (m : gmap string V) :
  map_Forall (λ k v, key_of v = k) m →
  map_Forall (λ _ v, json v = v) m →
  foldl (λ m' v, <[key_of v := v]> m') m (json <$> getAll m) = m.
Proof.
  intros Hkeyed Hstable.
  assert (json <$> getAll m = getAll m) as ->.
  { rewrite <- (list_fmap_id (getAll m)) at 2. apply Forall_fmap_ext_1.
    apply Forall_forall. intros v [k Hk]%elem_of_getAll. by apply (Hstable k). }
  apply foldl_insert_id. intros v [k Hk]%elem_of_getAll.
  by rewrite (Hkeyed k v Hk).
Qed.

(** C2, amended. For every database whose numbers are all ones JSON
    carries unchanged (finite and not negative zero), [exportEntireProfile]
    returns a snapshot, [importProfile] of that snapshot completes (no
    request failing), and the patients, readings and testReferences stores
    are afterwards what they were and [getPreferences] returns what it
    returned: the four getters return the same contents as before. *)
Theorem export_import_roundtrip (db : DB) :
  store_keyed db →
  store_json_stable db →
  ∃ text db',
    exportEntireProfile db None = Ok text db None
    ∧ importProfile text db None = Ok () db' None
    ∧ patients db' = patients db
    ∧ readings db' = readings db
    ∧ testReferences db' = testReferences db
    ∧ contents db' = contents db.
Proof.
  intros (Kp & Kr & Kref) (Sp & Sr & Sref).
  eexists _, _. split; [apply exportEntireProfile_run|].
  split.
  { rewrite (importProfile_None _ _ _ (as_Payload_profile _)) by done. reflexivity. }
  unfold classify, imported, contents. simpl.
  rewrite upsert_patients_stores, upsert_readings_stores, upsert_testReferences_stores.
  simpl.
  rewrite (reput_getAll json_patient p_id) by done.
  rewrite (reput_getAll json_reading r_id) by done.
  rewrite (reput_getAll json_testReference ref_id) by done.
  repeat split; try done.
  unfold contents. simpl. by rewrite lookup_insert_eq.
Qed.

Lemma savePatient_None p db : savePatient p db None = Ok () (put_patient p db) None.
Proof. done. Qed.

Ltac check_store :=
  repeat split; apply map_Forall_to_list; vm_compute; repeat constructor.

Lemma export_import_roundtrip_witness :
  store_keyed alice_db
  ∧ store_json_stable alice_db
  ∧ ∃ text db',
      exportEntireProfile alice_db None = Ok text alice_db None
      ∧ importProfile text alice_db None = Ok () db' None
      ∧ contents db' = contents alice_db.
Proof.
  split; [check_store|]. split; [check_store|].
  destruct (export_import_roundtrip alice_db) as (text & db' & He & Hi & _ & _ & _ & Hc);
    [check_store | check_store |].
  exists text, db'. repeat split; done.
Defined.

(** C2, as stated, fails. The database holding reading R3, whose value is
    NaN, is exported and the snapshot imported: the import completes, and
    reading R3 is afterwards stored with the value [null], so the readings
    the store returns are not the ones it returned before. *)
Lemma export_import_turns_NaN_into_null :
  store_keyed nan_db
  ∧ ∃ text db',
      exportEntireProfile nan_db None = Ok text nan_db None
      ∧ importProfile text nan_db None = Ok () db' None
      ∧ r_value <$> readings nan_db !! "R3" = Some NaN
      ∧ r_value <$> readings db' !! "R3" = Some JNull
      ∧ contents db' ≠ contents nan_db.
Proof.
  split; [check_store|].
  eexists _, _. split; [apply exportEntireProfile_run|].
  split; [by apply (importProfile_None _ _ _ (as_Payload_profile _))|].
  split; [reflexivity|]. split; [reflexivity|].
  intros H. apply (f_equal up_readings) in H. vm_compute in H. discriminate H.
Qed.

(** ** Saving readings in bulk *)

(** One turn of the loop of [bulkSaveReadings] does what [saveReading]
    does. *)
Lemma bulkSaveReadings_None rs db :
  bulkSaveReadings rs db None = Ok () (foldl (λ d r, with_reading r d) db rs) None.
Proof.
  unfold bulkSaveReadings, transaction.
  rewrite (for_of_None rs _ with_reading); [done|].
  intros r db'. unfold with_reading, mbind, M_bind, read.
  change (write (put_reading r) db' None) with (Ok () (put_reading r db') None).
  cbv beta iota. by case_decide.
Qed.

Lemma steady_bulkSaveReadings rs : steady (bulkSaveReadings rs).
Proof. unfold bulkSaveReadings. auto 10 with steady. Qed.

Lemma thrown_bulkSaveReadings rs db f e db' f' :
  bulkSaveReadings rs db f = Thrown e db' f' → db' = db.
Proof.
  unfold bulkSaveReadings. apply transaction_thrown. auto 10 with faults_only.
Qed.

Lemma readings_with_reading r db :
  readings (with_reading r db) = <[r_id r := r]> (readings db).
Proof. unfold with_reading. cbv zeta. by case_decide. Qed.

(** Every reading of a saved batch is in the readings store. *)
Lemma bulk_saved_all rs db r :
  r ∈ rs → is_Some (readings (foldl (λ d r', with_reading r' d) db rs) !! r_id r).
Proof.
  revert db. induction rs as [|r0 rs IH] using rev_ind; intros db Hin.
  { by apply not_elem_of_nil in Hin. }
  rewrite foldl_app. simpl. rewrite readings_with_reading.
  destruct (decide (r_id r0 = r_id r)) as [->|Hne].
  - rewrite lookup_insert_eq. eauto.
  - rewrite lookup_insert_ne by done. apply IH.
    apply elem_of_app in Hin as [?|Hin]; [done|].
    apply list_elem_of_singleton in Hin. congruence.
Qed.

(** A batch whose identifiers are distinct is stored as it is. *)
Lemma bulk_saved_each rs db r :
  NoDup (r_id <$> rs) → r ∈ rs →
  readings (foldl (λ d r', with_reading r' d) db rs) !! r_id r = Some r.
Proof.
  revert db. induction rs as [|r0 rs IH]; intros db Hnd Hin; simpl.
  { by apply not_elem_of_nil in Hin. }
  rewrite fmap_cons in Hnd. apply NoDup_cons in Hnd as [Hnot Hnd].
  apply elem_of_cons in Hin as [->|Hin]; [|by apply IH].
  assert (∀ l d, r_id r0 ∉ r_id <$> l → readings d !! r_id r0 = Some r0 →
            readings (foldl (λ d r', with_reading r' d) d l) !! r_id r0 = Some r0) as Hstay.
  { clear. induction l as [|x l IHl]; intros d Hnot Hd; simpl; [done|].
    rewrite fmap_cons in Hnot. apply not_elem_of_cons in Hnot as [Hne Hnot].
    apply IHl; [done|]. rewrite readings_with_reading. by rewrite lookup_insert_ne. }
  apply Hstay; [done|]. rewrite readings_with_reading. apply lookup_insert_eq.
Qed.

Section BulkPaste.
Variable parseFloat : string → spec_float.
Variable toISOString : string → option string.
Variable uuidv4 : nat → string.

(** Parsing touches neither the database nor the storage engine. *)
Lemma parse_line_pure id i line db f :
  (∃ r, parse_line parseFloat toISOString uuidv4 id i line db f = Ok r db f
        ∧ ¬ malformed toISOString line)
  ∨ (∃ e, parse_line parseFloat toISOString uuidv4 id i line db f = Thrown e db f
          ∧ malformed toISOString line).
Proof.
  unfold parse_line, malformed. cbv zeta. case_decide as Hlen.
  - right. eexists. split; [done | by left].
  - destruct (toISOString _) as [date|] eqn:Hdate.
    + left. eexists. split; [done|]. intros [?|?]; [done | congruence].
    + right. eexists. split; [done | by right].
Qed.

Lemma map_lines_pure id i lines db f :
  (∃ rs, map_lines parseFloat toISOString uuidv4 id i lines db f = Ok rs db f
         ∧ length rs = length lines ∧ Forall (λ l, ¬ malformed toISOString l) lines)
  ∨ (∃ e, map_lines parseFloat toISOString uuidv4 id i lines db f = Thrown e db f
          ∧ Exists (malformed toISOString) lines).
Proof.
  revert i. induction lines as [|line lines IH]; intros i; simpl.
  { left. exists []. done. }
  unfold mbind, M_bind.
  destruct (parse_line_pure id i line db f) as [(r & -> & Hok)|(e & -> & Hbad)].
  - destruct (IH (S i)) as [(rs & -> & Hlen & Hall)|(e & -> & Hex)].
    + left. exists (r :: rs). simpl. by rewrite Hlen; auto.
    + right. exists e. auto.
  - right. exists e. auto.
Qed.

Lemma handleBulkSubmit_all_or_nothing id bulkText db f :
  let after := final_db (handleBulkSubmit parseFloat toISOString uuidv4 id bulkText db f) in
  after = db
  ∨ ∃ rs, length rs = length (pasted_lines bulkText)
      ∧ Forall (λ l, ¬ malformed toISOString l) (pasted_lines bulkText)
      ∧ after = exec (bulkSaveReadings rs) db
      ∧ ∀ r, r ∈ rs → is_Some (readings after !! r_id r).
Proof.
  cbv zeta. unfold handleBulkSubmit. destruct id as [id|]; [|by left].
  case_decide; [by left|]. unfold try_catch, mbind, M_bind.
  fold (pasted_lines bulkText).
  destruct (map_lines_pure id 0 (pasted_lines bulkText) db f)
    as [(rs & -> & Hlen & Hall)|(e & -> & _)]; [|by left].
  destruct (bulkSaveReadings rs db f) as [[] db' f'|e db' f'] eqn:Hrun.
  - right. exists rs. apply steady_bulkSaveReadings in Hrun.
    unfold exec. rewrite Hrun. simpl. repeat split; try done.
    rewrite bulkSaveReadings_None in Hrun. injection Hrun as <-.
    intros r. apply bulk_saved_all.
  - left. simpl. by eapply thrown_bulkSaveReadings.
Qed.

(** A pasted text with a malformed line writes nothing. *)
Lemma handleBulkSubmit_malformed id bulkText db f :
  Exists (malformed toISOString) (pasted_lines bulkText) →
  final_db (handleBulkSubmit parseFloat toISOString uuidv4 id bulkText db f) = db.
Proof.
  intros Hbad.
  destruct (handleBulkSubmit_all_or_nothing id bulkText db f)
    as [?|(rs & _ & Hall & _)]; [done|].
  apply Exists_exists in Hbad as (l & Hl & Hm).
  rewrite Forall_forall in Hall. by destruct (Hall l Hl).
Qed.
End BulkPaste.

(** C4. For every batch, database and run, failed at whichever request or
    not, [bulkSaveReadings] leaves the database either as it was or as the
    run without faults leaves it, every reading of the batch stored and
    every derived reference written. Likewise the bulk paste of AddReading:
    it leaves the database as it was, or no pasted line is malformed and
    all of them, parsed, have been saved as one batch. *)
Theorem bulk_save_all_or_nothing :
  (∀ (rs : list TestReading) (db : DB) (f : faults),
     let after := final_db (bulkSaveReadings rs db f) in
     (after = db ∧ (rs = [] ∨ is_Some (thrown (bulkSaveReadings rs db f))))
     ∨ (after = exec (bulkSaveReadings rs) db
        ∧ thrown (bulkSaveReadings rs db f) = None
        ∧ ∀ r, r ∈ rs → is_Some (readings after !! r_id r)))
  ∧ (∀ parseFloat toISOString uuidv4 (id : option string) (bulkText : string)
       (db : DB) (f : faults),
     let after := final_db (handleBulkSubmit parseFloat toISOString uuidv4 id bulkText db f) in
     after = db
     ∨ ∃ rs, length rs = length (pasted_lines bulkText)
         ∧ Forall (λ l, ¬ malformed toISOString l) (pasted_lines bulkText)
         ∧ after = exec (bulkSaveReadings rs) db
         ∧ ∀ r, r ∈ rs → is_Some (readings after !! r_id r)).
Proof.
  split; [|intros; apply handleBulkSubmit_all_or_nothing].
  intros rs db f. cbv zeta.
  destruct (bulkSaveReadings rs db f) as [[] db' f'|e db' f'] eqn:Hrun.
  - right. apply steady_bulkSaveReadings in Hrun. unfold exec. rewrite Hrun. simpl.
    repeat split; try done.
    rewrite bulkSaveReadings_None in Hrun. injection Hrun as <-.
    intros r. apply bulk_saved_all.
  - left. simpl. split; [by eapply thrown_bulkSaveReadings | right; eauto].
Qed.

(** A pasted value that is no number is stored as NaN: the parse rejects a
    short line and a bad date, not a bad value. *)
Example bulk_paste_stores_NaN :
  let run := handleBulkSubmit (λ _, S754_nan) (λ s, Some s) (λ _, "R3")
               (Some "A1") "Hemoglobin, abc, g/dL, 2026-01-01" emptyDB None in
  returned run = Some (Navigated "/patient/A1")
  ∧ r_value <$> readings (final_db run) !! "R3" = Some NaN.
Proof. split; reflexivity. Qed.

(** * Properties of the rest of the code *)

(** ** Records put and read back *)

Lemma DB_eq (db1 db2 : DB) :
  patients db1 = patients db2 → readings db1 = readings db2 →
  testReferences db1 = testReferences db2 → preferences db1 = preferences db2 →
  db1 = db2.
Proof. destruct db1, db2. simpl. by intros -> -> -> ->. Qed.

(** X1. [savePatient] is an upsert. With no request failing it completes,
    and [getPatients] then lists the saved patient, lists every patient it
    listed before whose id is another, and lists nobody else; the other
    three stores are as they were. *)
Theorem savePatient_upserts (p : Patient) (db : DB) :
  store_keyed db →
  ∃ db' listed,
    savePatient p db None = Ok () db' None
    ∧ getPatients db' None = Ok listed db' None
    ∧ (∀ q, q ∈ listed ↔ q = p ∨ (q ∈ getAll (patients db) ∧ p_id q ≠ p_id p))
    ∧ readings db' = readings db
    ∧ testReferences db' = testReferences db
    ∧ preferences db' = preferences db.
Proof.
  intros (Kp & _ & _). exists (put_patient p db), (getAll (patients (put_patient p db))).
  repeat split; try done.
  - intros [k Hk]%elem_of_getAll. simpl in Hk.
    destruct (decide (k = p_id p)) as [->|Hne].
    + rewrite lookup_insert_eq in Hk. left. congruence.
    + rewrite lookup_insert_ne in Hk by done. right. split.
      * apply elem_of_getAll. eauto.
      * by rewrite (Kp k q Hk).
  - intros [->|[[k Hk]%elem_of_getAll Hne]]; apply elem_of_getAll; simpl.
    + exists (p_id p). apply lookup_insert_eq.
    + exists k. rewrite lookup_insert_ne; [done|]. by rewrite <- (Kp k q Hk).
Qed.

Lemma savePatient_upserts_witness :
  store_keyed alice_db
  ∧ ∃ db' listed,
      savePatient alice alice_db None = Ok () db' None
      ∧ getPatients db' None = Ok listed db' None
      ∧ alice ∈ listed.
Proof.
  split; [check_store|].
  destruct (savePatient_upserts alice alice_db) as (db' & listed & H1 & H2 & H3 & _);
    [check_store|].
  exists db', listed. repeat split; try done. apply H3. by left.
Defined.

(** X2. Saving the same reading a second time changes nothing: with no
    request failing, the database after two [saveReading r] is the
    database after one. *)
Theorem saveReading_idempotent (r : TestReading) (db : DB) :
  exec (saveReading r) (exec (saveReading r) db) = exec (saveReading r) db.
Proof.
  unfold exec. rewrite !saveReading_None. simpl.
  assert (index_getAll ref_testName (r_testName r)
            (testReferences (with_reading r db)) ≠ []) as Hknown.
  { destruct (index_getAll ref_testName (r_testName r) (testReferences db))
      as [|ref refs] eqn:E.
    - rewrite (testReferences_with_reading_new r db E).
      rewrite index_getAll_insert_fresh; [done..|].
      intros k' v' _. by apply (proj1 (index_getAll_nil _ _ _) E).
    - rewrite testReferences_with_reading_known by (by rewrite E). by rewrite E. }
  apply DB_eq.
  - unfold with_reading. cbv zeta. by repeat case_decide.
  - rewrite !readings_with_reading. apply insert_insert_eq.
  - by apply testReferences_with_reading_known.
  - unfold with_reading. cbv zeta. by repeat case_decide.
Qed.

(** X3. Once [saveReading r] has completed, the catalogue has a reference
    for [r]'s test name, whether it was there before or has just been
    derived. *)
Theorem saveReading_catalogues_name (r : TestReading) (db : DB) (f f' : faults) (db' : DB) :
  saveReading r db f = Ok () db' f' →
  ∃ ref, ref ∈ getAll (testReferences db') ∧ ref_testName ref = r_testName r.
Proof.
  intros Hrun.
  assert (steady (saveReading r)) as Hsteady
    by (unfold saveReading; auto 10 with steady).
  apply Hsteady in Hrun. rewrite saveReading_None in Hrun. injection Hrun as <-.
  destruct (index_getAll ref_testName (r_testName r) (testReferences db))
    as [|ref refs] eqn:E.
  - exists (derived_reference r). split; [|done].
    rewrite (testReferences_with_reading_new r db E).
    apply elem_of_getAll. eexists. apply lookup_insert_eq.
  - assert (ref ∈ index_getAll ref_testName (r_testName r) (testReferences db))
      as (k & Hk & Hname)%elem_of_index_getAll by (rewrite E; left).
    exists ref. split; [|done].
    rewrite testReferences_with_reading_known by (by rewrite E).
    apply elem_of_getAll. eauto.
Qed.

Lemma saveReading_catalogues_name_witness :
  saveReading R1 emptyDB (Some 5) = Ok () (exec (saveReading R1) emptyDB) (Some 3)
  ∧ ∃ ref, ref ∈ getAll (testReferences (exec (saveReading R1) emptyDB))
           ∧ ref_testName ref = "Hemoglobin".
Proof.
  split; [reflexivity|].
  apply (saveReading_catalogues_name R1 emptyDB (Some 5) (Some 3)). reflexivity.
Defined.

(** ** When the reference cannot be written *)

(** X4. [saveReading] puts the reading and the derived reference in two
    transactions of their own. For a test name the catalogue does not
    have, the run in which the put of the reference is rejected throws
    with the reading stored and the catalogue as it was; and whatever
    request fails, [saveReading] leaves the database as it was, or with
    the reading alone put, or as the run without faults leaves it. *)
Theorem saveReading_reference_failure (r : TestReading) (db : DB) :
  index_getAll ref_testName (r_testName r) (testReferences db) = [] →
  saveReading r db (Some 1) = Thrown StorageFault (put_reading r db) None
  ∧ readings (put_reading r db) !! r_id r = Some r
  ∧ testReferences (put_reading r db) = testReferences db
  ∧ ∀ f, final_db (saveReading r db f) = db
         ∨ final_db (saveReading r db f) = put_reading r db
         ∨ final_db (saveReading r db f) = exec (saveReading r) db.
Proof.
  intros Hnil. split.
  { unfold saveReading, mbind, M_bind, transaction, read, write. simpl.
    by rewrite Hnil. }
  split; [apply lookup_insert_eq|]. split; [done|].
  intros [[|[|n]]|].
  - left. reflexivity.
  - right; left. unfold saveReading, mbind, M_bind, transaction, read, write. simpl.
    by rewrite Hnil.
  - right; right. unfold exec. rewrite saveReading_None.
    unfold saveReading, with_reading, mbind, M_bind, transaction, read, write. simpl.
    by rewrite Hnil.
  - right; right. reflexivity.
Qed.

Lemma saveReading_reference_failure_witness :
  index_getAll ref_testName "Hemoglobin" (testReferences emptyDB) = []
  ∧ saveReading R1 emptyDB (Some 1) = Thrown StorageFault (put_reading R1 emptyDB) None
  ∧ readings (put_reading R1 emptyDB) !! "R1" = Some R1.
Proof.
  split; [reflexivity|].
  destruct (saveReading_reference_failure R1 emptyDB) as (Hrun & Hstored & _);
    [reflexivity|].
  split; [exact Hrun | exact Hstored].
Defined.

(** ** The stores an operation can change *)

Lemma keeps_if {A B} (proj : DB → B) (P : Prop) `{Decision P} (m1 m2 : M A) :
  keeps proj m1 → keeps proj m2 → keeps proj (if decide P then m1 else m2).
Proof. by case_decide. Qed.

#[global] Hint Resolve keeps_if : keeps.

(** X5. Whatever request fails: [savePatient] changes the patients store
    only; [saveReading] and [bulkSaveReadings] never change patients or
    preferences; [saveTestReference] changes testReferences only;
    [savePreferences] changes preferences only; and [deletePatient] never
    changes preferences. *)
Theorem store_operations_frame :
  (∀ p, keeps readings (savePatient p) ∧ keeps testReferences (savePatient p)
        ∧ keeps preferences (savePatient p))
  ∧ (∀ r, keeps patients (saveReading r) ∧ keeps preferences (saveReading r))
  ∧ (∀ rs, keeps patients (bulkSaveReadings rs) ∧ keeps preferences (bulkSaveReadings rs))
  ∧ (∀ ref, keeps patients (saveTestReference ref) ∧ keeps readings (saveTestReference ref)
            ∧ keeps preferences (saveTestReference ref))
  ∧ (∀ prefs, keeps patients (savePreferences prefs) ∧ keeps readings (savePreferences prefs)
              ∧ keeps testReferences (savePreferences prefs))
  ∧ (∀ id, keeps preferences (deletePatient id)).
Proof.
  repeat apply conj; try intros x; repeat apply conj;
    unfold savePatient, saveReading, bulkSaveReadings, saveTestReference,
      savePreferences, deletePatient, getPreferences;
    auto 12 with keeps.
Qed.

(** ** Saving in bulk and saving one by one *)

(** X6. With no request failing, [bulkSaveReadings] leaves the database
    that saving the readings one after the other with [saveReading]
    leaves; so a batch in two parts is the batch, and the empty batch
    changes nothing. *)
Theorem bulkSaveReadings_as_saveReading (rs rs' : list TestReading) (db : DB) :
  exec (bulkSaveReadings rs) db = foldl (λ d r, exec (saveReading r) d) db rs
  ∧ exec (bulkSaveReadings (rs ++ rs')) db
    = exec (bulkSaveReadings rs') (exec (bulkSaveReadings rs) db)
  ∧ exec (bulkSaveReadings []) db = db.
Proof.
  assert (∀ l d, exec (bulkSaveReadings l) d = foldl (λ d r, with_reading r d) d l) as Hbulk.
  { intros l d. unfold exec. by rewrite bulkSaveReadings_None. }
  split; [|split].
  - rewrite Hbulk. revert db. induction rs as [|r rs IH]; intros db; simpl; [done|].
    rewrite IH. f_equal. unfold exec. by rewrite saveReading_None.
  - by rewrite !Hbulk, foldl_app.
  - by rewrite Hbulk.
Qed.

(** ** What deleting a patient removes, exactly *)

Lemma foldl_delete_readings_frame (l : list (string * TestReading)) db :
  testReferences (foldl (λ d (entry : string * TestReading),
                           with_readings (delete entry.1) d) db l) = testReferences db
  ∧ preferences (foldl (λ d (entry : string * TestReading),
                          with_readings (delete entry.1) d) db l) = preferences db.
Proof.
  revert db. induction l as [|e l IH]; intros db; simpl; [done|].
  by destruct (IH (with_readings (delete e.1) db)) as [-> ->].
Qed.

Lemma without_patient_stores id db :
  patients (without_patient id db) = delete id (patients db)
  ∧ (∀ k, readings (without_patient id db) !! k
          = match readings db !! k with
            | Some r => if decide (r_patientId r = id) then None else Some r
            | None => None
            end)
  ∧ testReferences (without_patient id db) = testReferences db
  ∧ preferences (without_patient id db) = preferences db.
Proof.
  unfold without_patient. cbv zeta. split; [by rewrite patients_foldl_delete|].
  split; [|by destruct (foldl_delete_readings_frame
                (index_cursor r_patientId id (readings (with_patients (delete id) db)))
                (with_patients (delete id) db)) as [-> ->]].
  intros k. rewrite readings_foldl_delete, lookup_foldl_delete. simpl.
  case_decide as Hin.
  - apply list_elem_of_fmap in Hin as ([k' r] & -> & [Hk Hp]%elem_of_index_cursor).
    simpl in *. rewrite Hk. by rewrite decide_True.
  - destruct (readings db !! k) as [r|] eqn:Hk; [|done].
    case_decide as Hp; [|done]. destruct Hin.
    apply list_elem_of_fmap. exists (k, r). split; [done|].
    by apply elem_of_index_cursor.
Qed.

(** Nothing to delete: the patient is not there and has no readings. *)
Lemma without_patient_absent id db :
  patients db !! id = None →
  (∀ k r, readings db !! k = Some r → r_patientId r ≠ id) →
  without_patient id db = db.
Proof.
  intros Hp Hr. destruct (without_patient_stores id db) as (Ep & Er & Eref & Epref).
  apply DB_eq; try done.
  - rewrite Ep. by apply delete_id.
  - apply map_eq. intros k. rewrite Er.
    destruct (readings db !! k) as [r|] eqn:Hk; [|done].
    rewrite decide_False; [done|]. by apply (Hr k).
Qed.

(** X7. With no request failing, [deletePatient id] completes and removes
    the record under [id], the readings whose [patientId] is [id], and
    nothing else: every other patient, every reading of another patient,
    the catalogue and the preferences are as they were. *)
Theorem deletePatient_removes_exactly (id : string) (db : DB) :
  ∃ db', deletePatient id db None = Ok () db' None
    ∧ patients db' = delete id (patients db)
    ∧ (∀ k, readings db' !! k
            = match readings db !! k with
              | Some r => if decide (r_patientId r = id) then None else Some r
              | None => None
              end)
    ∧ testReferences db' = testReferences db
    ∧ preferences db' = preferences db.
Proof.
  exists (without_patient id db). split; [apply deletePatient_None|].
  apply without_patient_stores.
Qed.

(** X8. Deleting a patient that is not there is a silent no-op: when no
    record is under [id] and no reading has that [patientId],
    [deletePatient id] (no request failing) returns without an error and
    leaves the database as it was. *)
Theorem deletePatient_missing (id : string) (db : DB) :
  patients db !! id = None →
  (∀ k r, readings db !! k = Some r → r_patientId r ≠ id) →
  deletePatient id db None = Ok () db None.
Proof.
  intros Hp Hr. rewrite deletePatient_None. by rewrite without_patient_absent.
Qed.

Lemma deletePatient_missing_witness :
  patients alice_db !! "B2" = None
  ∧ deletePatient "B2" alice_db None = Ok () alice_db None.
Proof.
  split; [reflexivity|].
  apply (deletePatient_missing "B2" alice_db); [reflexivity|].
  intros k r Hk Hp.
  assert (r ∈ index_getAll r_patientId "B2" (readings alice_db)) as Hin
    by (apply elem_of_index_getAll; eauto).
  vm_compute in Hin. by apply not_elem_of_nil in Hin.
Defined.

(** X9. Deleting the same patient a second time changes nothing. *)
Theorem deletePatient_idempotent (id : string) (db : DB) :
  exec (deletePatient id) (exec (deletePatient id) db) = exec (deletePatient id) db.
Proof.
  unfold exec. rewrite !deletePatient_None. simpl.
  destruct (without_patient_cascaded id db) as [Hp Hr].
  by apply without_patient_absent.
Qed.

(** ** Deleting the selected members *)

Lemma without_patients_stores ids db :
  (∀ k, patients (without_patients ids db) !! k
        = if decide (k ∈ ids) then None else patients db !! k)
  ∧ (∀ k, readings (without_patients ids db) !! k
          = match readings db !! k with
            | Some r => if decide (r_patientId r ∈ ids) then None else Some r
            | None => None
            end)
  ∧ testReferences (without_patients ids db) = testReferences db
  ∧ preferences (without_patients ids db) = preferences db.
Proof.
  unfold without_patients. revert db.
  induction ids as [|id ids IH]; intros db; simpl.
  { repeat split; try done. intros k. by destruct (readings db !! k). }
  destruct (IH (without_patient id db)) as (Ep & Er & Eref & Epref).
  destruct (without_patient_stores id db) as (Ep1 & Er1 & Eref1 & Epref1).
  split; [|split; [|split; congruence]].
  - intros k. rewrite Ep, Ep1.
    destruct (decide (k ∈ ids)) as [Hin|Hnin].
    + rewrite decide_True; [done | by right].
    + destruct (decide (k = id)) as [->|Hne].
      * rewrite lookup_delete_eq. rewrite decide_True; [done | left].
      * rewrite lookup_delete_ne by done. rewrite decide_False; [done|].
        intros [?|?]%elem_of_cons; done.
  - intros k. rewrite Er, Er1.
    destruct (readings db !! k) as [r|]; [|done].
    destruct (decide (r_patientId r = id)) as [Hp|Hp].
    + rewrite decide_True; [done | rewrite Hp; left].
    + destruct (decide (r_patientId r ∈ ids)) as [Hin|Hnin].
      * rewrite decide_True; [done | by right].
      * rewrite decide_False; [done|]. intros [?|?]%elem_of_cons; done.
Qed.

Lemma handleBulkDelete_None ids db :
  handleBulkDelete ids true db None = Ok () (without_patients ids db) None.
Proof.
  unfold handleBulkDelete. case_decide as Hlen.
  { apply nil_length_inv in Hlen. by subst. }
  apply (for_of_None ids _ without_patient). intros id db'. apply deletePatient_None.
Qed.

(** X10. "Delete Selected" of the members page. Once confirmed, and with
    no request failing, it completes having removed the selected patients
    and the readings of the selected patients, and nothing else: the
    other patients, the readings of the others, the catalogue and the
    preferences are as they were. When the confirmation is declined, or
    nothing is selected, nothing is written, whatever would fail. *)
Theorem handleBulkDelete_removes_selected (selectedIds : list string) (db : DB) :
  (∃ db', handleBulkDelete selectedIds true db None = Ok () db' None
     ∧ (∀ k, patients db' !! k
             = if decide (k ∈ selectedIds) then None else patients db !! k)
     ∧ (∀ k, readings db' !! k
             = match readings db !! k with
               | Some r => if decide (r_patientId r ∈ selectedIds) then None else Some r
               | None => None
               end)
     ∧ testReferences db' = testReferences db
     ∧ preferences db' = preferences db)
  ∧ (∀ f, handleBulkDelete selectedIds false db f = Ok () db f)
  ∧ (∀ confirmed f, handleBulkDelete [] confirmed db f = Ok () db f).
Proof.
  split; [|split].
  - exists (without_patients selectedIds db). split; [apply handleBulkDelete_None|].
    apply without_patients_stores.
  - intros f. unfold handleBulkDelete. by case_decide.
  - done.
Qed.

(** ** Snapshots of a member and of the catalogue *)

(** Upserts that only restore what a target map holds. *)
Lemma foldl_insert_target {V} (key_of : V → string) (l : list V) (m target : gmap string V) :
  (∀ v, v ∈ l → target !! key_of v = Some v) →
  (∀ k, k ∉ key_of <$> l → m !! k = target !! k) →
  foldl (λ m' v, <[key_of v := v]> m') m l = target.
Proof.
  revert m. induction l as [|v l IH]; intros m Hl Hm; simpl.
  { apply map_eq. intros k. apply Hm. apply not_elem_of_nil. }
  apply IH.
  - intros v' Hv'. apply Hl. by right.
  - intros k Hk. destruct (decide (k = key_of v)) as [->|Hne].
    + rewrite lookup_insert_eq. symmetry. apply Hl. left.
    + rewrite lookup_insert_ne by done. apply Hm.
      rewrite fmap_cons. intros [?|?]%elem_of_cons; done.
Qed.

Lemma json_stable_list {V} (json : V → V) (l : list V) :
  (∀ v, v ∈ l → json v = v) → json <$> l = l.
Proof.
  intros Hl. rewrite <- (list_fmap_id l) at 2. apply Forall_fmap_ext_1.
  by apply Forall_forall.
Qed.

Lemma upsert_patients_frame ps db :
  readings (upsert_patients ps db) = readings db
  ∧ testReferences (upsert_patients ps db) = testReferences db
  ∧ preferences (upsert_patients ps db) = preferences db.
Proof. by rewrite upsert_patients_stores. Qed.

Lemma upsert_readings_frame rs db :
  patients (upsert_readings rs db) = patients db
  ∧ testReferences (upsert_readings rs db) = testReferences db
  ∧ preferences (upsert_readings rs db) = preferences db.
Proof. by rewrite upsert_readings_stores. Qed.

Lemma upsert_testReferences_frame refs db :
  patients (upsert_testReferences refs db) = patients db
  ∧ readings (upsert_testReferences refs db) = readings db
  ∧ preferences (upsert_testReferences refs db) = preferences db.
Proof. by rewrite upsert_testReferences_stores. Qed.

Lemma exportMemberData_run id db f :
  exportMemberData id db f
  = Ok (Json (JSON_object (
          property "patient" (JSON_of_patient <$> patients db !! id)
          ++ property "readings"
               (Some (JSON_array
                        (JSON_of_reading <$> index_getAll r_patientId id (readings db)))))))
       db f.
Proof. done. Qed.

(** X11. A member's snapshot restores the member. In a database whose
    numbers are ones JSON carries unchanged, export a stored patient with
    [exportMemberData], delete the patient with [deletePatient], then
    import the snapshot: the import completes (no request failing) and
    the database is exactly what it was before the deletion. *)
Theorem member_snapshot_restores (id : string) (p : Patient) (db : DB) :
  store_keyed db →
  store_json_stable db →
  patients db !! id = Some p →
  ∃ text,
    exportMemberData id db None = Ok text db None
    ∧ importProfile text (exec (deletePatient id) db) None = Ok () db None.
Proof.
  intros (Kp & Kr & _) (Sp & Sr & _) Hp.
  eexists. split; [apply exportMemberData_run|].
  rewrite (importProfile_None _ _ _ (as_Payload_member _ _)) by (by rewrite Hp).
  rewrite Hp. simpl. rewrite (Sp id p Hp).
  rewrite (json_stable_list json_reading).
  2:{ intros r (k & Hk & _)%elem_of_index_getAll. by apply (Sr k). }
  set (rs := index_getAll r_patientId id (readings db)).
  unfold exec. rewrite deletePatient_None. simpl.
  f_equal.
  unfold classify, imported. simpl.
  destruct (without_patient_stores id db) as (Ep & Er & Eref & Epref).
  destruct (upsert_readings_frame rs (put_patient p (without_patient id db)))
    as (Fp & Fref & Fpref).
  apply DB_eq.
  - rewrite Fp. simpl. rewrite Ep, (Kp id p Hp), insert_delete_eq. by apply insert_id.
  - rewrite upsert_readings_stores. simpl.
    apply foldl_insert_target.
    + intros r (k & Hk & _)%elem_of_index_getAll. by rewrite (Kr k r Hk).
    + intros k Hk. rewrite Er.
      destruct (readings db !! k) as [r|] eqn:Hr; [|done].
      case_decide as Hpid; [|done]. destruct Hk.
      apply list_elem_of_fmap. exists r. split; [by rewrite (Kr k r Hr)|].
      apply elem_of_index_getAll. eauto.
  - by rewrite Fref.
  - by rewrite Fpref.
Qed.

Lemma member_snapshot_restores_witness :
  store_keyed alice_db ∧ store_json_stable alice_db
  ∧ patients alice_db !! "A1" = Some alice
  ∧ ∃ text,
      exportMemberData "A1" alice_db None = Ok text alice_db None
      ∧ importProfile text (exec (deletePatient "A1") alice_db) None
        = Ok () alice_db None.
Proof.
  split; [check_store|]. split; [check_store|]. split; [reflexivity|].
  apply (member_snapshot_restores "A1" alice alice_db);
    [check_store | check_store | reflexivity].
Defined.

(** X12. The snapshot [exportMemberData] makes of an id no patient is
    stored under has no [patient] property, and [importProfile] rejects
    it with "Invalid import format", writing nothing, even when readings
    carry that id. *)
Theorem unknown_member_snapshot_rejected (id : string) (db : DB) :
  patients db !! id = None →
  ∃ text,
    exportMemberData id db None = Ok text db None
    ∧ ∀ db' f, importProfile text db' f = Thrown (Error "Invalid import format") db' f.
Proof.
  intros Hp. eexists. split; [apply exportMemberData_run|].
  intros db' f. rewrite Hp.
  by apply (importProfile_unrecognised _ _ _ _ (as_Payload_member None _)).
Qed.

Lemma unknown_member_snapshot_rejected_witness :
  patients alice_db !! "B2" = None
  ∧ ∃ text,
      exportMemberData "B2" alice_db None = Ok text alice_db None
      ∧ importProfile text alice_db None
        = Thrown (Error "Invalid import format") alice_db None.
Proof.
  split; [reflexivity|].
  destruct (unknown_member_snapshot_rejected "B2" alice_db) as (text & He & Hi);
    [reflexivity|].
  exists text. split; [exact He | apply Hi].
Defined.

(** X13. The snapshot of the catalogue, imported into the database it was
    exported from, changes nothing at all, when the default bounds of
    the references are numbers JSON carries unchanged; the numbers of the
    patients and of the readings do not matter. *)
Theorem catalogue_snapshot_roundtrip (db : DB) :
  store_keyed db →
  map_Forall (λ _ ref, from_option json_stable True (ref_defaultIdealMin ref)
                       ∧ from_option json_stable True (ref_defaultIdealMax ref))
             (testReferences db) →
  ∃ text,
    exportTestReferences db None = Ok text db None
    ∧ importProfile text db None = Ok () db None.
Proof.
  intros (_ & _ & Kref) Sref.
  eexists. split; [reflexivity|].
  rewrite (importProfile_None _ _ _ (as_Payload_references _)) by done. f_equal.
  unfold classify, imported. simpl.
  rewrite upsert_testReferences_stores. unfold with_testReferences.
  rewrite (reput_getAll json_testReference ref_id); [by destruct db | done |].
  intros k ref Href. apply json_testReference_stable. by apply (Sref k).
Qed.

(** The witness has a reading whose value is NaN: the numbers of the
    readings do not matter. *)
Lemma catalogue_snapshot_roundtrip_witness :
  store_keyed nan_db
  ∧ map_Forall (λ _ ref, from_option json_stable True (ref_defaultIdealMin ref)
                         ∧ from_option json_stable True (ref_defaultIdealMax ref))
               (testReferences nan_db)
  ∧ ¬ store_json_stable nan_db
  ∧ ∃ text,
      exportTestReferences nan_db None = Ok text nan_db None
      ∧ importProfile text nan_db None = Ok () nan_db None.
Proof.
  split; [check_store|].
  split; [apply map_Forall_to_list; vm_compute; repeat constructor|].
  split.
  { intros (_ & Sr & _). specialize (Sr "R3" R3 eq_refl). discriminate Sr. }
  apply (catalogue_snapshot_roundtrip nan_db);
    [check_store | apply map_Forall_to_list; vm_compute; repeat constructor].
Defined.

(** ** Importing twice, importing in part *)

(** A run of upserts overlays the records it writes on the store. *)
Lemma foldl_insert_union {V} (key_of : V → string) (l : list V) (m : gmap string V) :
  foldl (λ m' v, <[key_of v := v]> m') m l = upserted key_of l ∪ m.
Proof.
  unfold upserted. induction l as [|v l IH] using rev_ind; simpl.
  { by rewrite (left_id_L ∅ (∪)). }
  rewrite !foldl_snoc, IH. apply insert_union_l.
Qed.

Lemma union_union_same {V} (u m : gmap string V) : u ∪ (u ∪ m) = u ∪ m.
Proof.
  apply map_eq. intros k. rewrite !lookup_union.
  by destruct (u !! k), (m !! k).
Qed.


(** *** Runs that lay records over the database *)

Create HintDb overlays.

Lemma overlay_empty db : overlay emptyDB db = db.
Proof. destruct db. unfold overlay. simpl. by rewrite !(left_id_L ∅ (∪)). Qed.

Lemma overlay_overlay u2 u1 db : overlay u2 (overlay u1 db) = overlay (overlay u2 u1) db.
Proof. unfold overlay. simpl. by rewrite !(assoc_L (∪)). Qed.

Lemma overlay_twice u db : overlay u (overlay u db) = overlay u db.
Proof. unfold overlay. simpl. by rewrite !union_union_same. Qed.

Lemma insert_overlay {V} (m : gmap string V) k v : <[k:=v]> m = <[k:=v]> ∅ ∪ m.
Proof. by rewrite <- insert_union_l, (left_id_L ∅ (∪)). Qed.

Lemma put_patient_overlay p db : put_patient p db = overlay (put_patient p emptyDB) db.
Proof.
  destruct db. unfold overlay, put_patient. simpl.
  by rewrite <- insert_overlay, !(left_id_L ∅ (∪)).
Qed.

Lemma put_reading_overlay r db : put_reading r db = overlay (put_reading r emptyDB) db.
Proof.
  destruct db. unfold overlay, put_reading. simpl.
  by rewrite <- insert_overlay, !(left_id_L ∅ (∪)).
Qed.

Lemma put_testReference_overlay ref db :
  put_testReference ref db = overlay (put_testReference ref emptyDB) db.
Proof.
  destruct db. unfold overlay, put_testReference. simpl.
  by rewrite <- insert_overlay, !(left_id_L ∅ (∪)).
Qed.

Lemma put_preferences_overlay prefs key db :
  put_preferences prefs key db = overlay (put_preferences prefs key emptyDB) db.
Proof.
  destruct db. unfold overlay, put_preferences. simpl.
  by rewrite <- insert_overlay, !(left_id_L ∅ (∪)).
Qed.

Lemma overlays_ret {A} (a : A) : overlays (mret a).
Proof. exists emptyDB. left. exists a. intros db. by rewrite overlay_empty. Qed.

Lemma overlays_throw {A} (e : error) : e ≠ StorageFault → overlays (throw (A:=A) e).
Proof.
  intros He. exists emptyDB. right. exists e. split; [done|].
  intros db. by rewrite overlay_empty.
Qed.

Lemma overlays_write (w : DB → DB) :
  (∃ u, ∀ db, w db = overlay u db) → overlays (write w).
Proof. intros [u Hw]. exists u. left. exists (). intros db. unfold write. by rewrite Hw. Qed.

Lemma overlays_bind {A B} (m : M A) (k : A → M B) :
  overlays m → (∀ a, overlays (k a)) → overlays (m ≫= k).
Proof.
  intros [u1 [[a Ha]|(e & He & Hthrow)]] Hk.
  - destruct (Hk a) as [u2 [[b Hb]|(e & He & Hthrow)]]; exists (overlay u2 u1).
    + left. exists b. intros db. unfold mbind, M_bind. by rewrite Ha, Hb, overlay_overlay.
    + right. exists e. split; [done|]. intros db. unfold mbind, M_bind.
      by rewrite Ha, Hthrow, overlay_overlay.
  - exists u1. right. exists e. split; [done|]. intros db. unfold mbind, M_bind.
    by rewrite Hthrow.
Qed.

Lemma overlays_transaction {A} (body : M A) : overlays body → overlays (transaction body).
Proof.
  intros [u [[a Ha]|(e & He & Hthrow)]]; exists u.
  - left. exists a. intros db. unfold transaction. by rewrite Ha.
  - right. exists e. split; [done|]. intros db. unfold transaction. rewrite Hthrow.
    by destruct e.
Qed.

Lemma overlays_try_catch_rethrow {A} (body : M A) :
  overlays body → overlays (try_catch body (λ e, throw e)).
Proof.
  intros [u [[a Ha]|(e & He & Hthrow)]]; exists u.
  - left. exists a. intros db. unfold try_catch. by rewrite Ha.
  - right. exists e. split; [done|]. intros db. unfold try_catch. by rewrite Hthrow.
Qed.

Lemma overlays_for_of {A} (l : list A) (body : A → M unit) :
  (∀ x, overlays (body x)) → overlays (for_of l body).
Proof.
  intros Hb. induction l as [|x l IH]; simpl.
  - apply overlays_ret.
  - apply overlays_bind; auto.
Qed.

Lemma overlays_get data name : overlays (get data name).
Proof. destruct data; (by apply overlays_throw) || apply overlays_ret. Qed.

Lemma overlays_for_of_value value (body : JSON → M unit) :
  (∀ x, overlays (body x)) → overlays (for_of_value value body).
Proof.
  intros Hb. destruct value; simpl;
    first [by apply overlays_throw | by apply overlays_for_of].
Qed.

Lemma overlays_put_value {V} (as_record : JSON → option V) put value :
  (∀ record db, put record db = overlay (put record emptyDB) db) →
  overlays (put_value as_record put value).
Proof.
  intros Hput. unfold put_value. destruct (key_of_value value); [|by apply overlays_throw].
  apply overlays_write. destruct (as_record value) as [record|].
  - exists (put record emptyDB). apply Hput.
  - exists emptyDB. intros db. by rewrite overlay_empty.
Qed.

Lemma overlays_put_preferences_value value key :
  overlays (put_preferences_value value key).
Proof.
  apply overlays_write. destruct (as_UserPreferences value) as [prefs|].
  - exists (put_preferences prefs key emptyDB). apply put_preferences_overlay.
  - exists emptyDB. intros db. by rewrite overlay_empty.
Qed.

#[global] Hint Resolve overlays_ret overlays_transaction overlays_for_of overlays_get
  overlays_for_of_value overlays_put_preferences_value : overlays.
#[global] Hint Extern 2 (overlays (_ ≫= _)) => apply overlays_bind; [|intros ?] : overlays.
#[global] Hint Extern 2 (overlays (throw _)) => by apply overlays_throw : overlays.
#[global] Hint Extern 2 (overlays (put_value _ _ _)) =>
  apply overlays_put_value;
  first [ apply put_patient_overlay | apply put_reading_overlay
        | apply put_testReference_overlay ] : overlays.
#[global] Hint Extern 3 (overlays (match truthy ?v with _ => _ end)) =>
  destruct (truthy v) : overlays.

(** With no request failing, what an import does to the database is to
    put over it records that depend on the text alone. *)
Lemma importProfile_overlays text : overlays (importProfile text).
Proof.
  unfold importProfile. apply overlays_try_catch_rethrow, overlays_bind.
  { destruct text; [by apply overlays_throw | apply overlays_ret]. }
  intros data. auto 20 with overlays.
Qed.

(** X14. Importing the same snapshot a second time changes nothing: for
    every text, the database after two imports (no request failing) is the
    database after one. *)
Theorem importProfile_idempotent (text : JsonText) (db : DB) :
  exec (importProfile text) (exec (importProfile text) db)
  = exec (importProfile text) db.
Proof.
  destruct (importProfile_overlays text) as [u [[a H]|(e & _ & H)]];
    unfold exec; rewrite !H; simpl; apply overlay_twice.
Qed.

(** The stores each branch of the import leaves alone. *)
Lemma importProfile_frame_branch (data : JSON) (db : DB) (f : faults) :
  let after := final_db (importProfile (Json data) db f) in
  match branch data with
  | FullProfileBranch =>
      (truthy (property_of data "testReferences") = None →
         testReferences after = testReferences db)
      ∧ (truthy (property_of data "preferences") = None →
           preferences after = preferences db)
  | SingleMemberBranch =>
      testReferences after = testReferences db ∧ preferences after = preferences db
  | ReferencesBranch =>
      patients after = patients db ∧ readings after = readings db
      ∧ preferences after = preferences db
  | NoBranch => after = db
  end.
Proof.
  cbv zeta. destruct data as [| | | | |o]; try done.
  unfold branch, property_of, importProfile.
  rewrite (try_catch_rethrow _ db f).
  change (JSON_parse (Json (JSON_object o))) with (mret (M:=M) (JSON_object o)).
  rewrite mret_bind. read_properties.
  destruct (truthy (own_property "patients" o)), (truthy (own_property "readings" o)),
    (truthy (own_property "patient" o)), (truthy (own_property "testReferences" o)),
    (truthy (own_property "preferences" o));
    try done;
    repeat split;
    try (intros [=]);
    apply keeps_transaction; auto 10 with keeps.
Qed.

(** X15. What an import leaves alone, whatever the text and whatever
    request fails. A payload sent to the single-member branch changes
    neither the catalogue nor the preferences: the references and
    preferences it may carry are not read, and no reference is derived
    from the readings it brings. A payload sent to the references branch
    changes the catalogue only. A payload sent to the full-profile branch
    with no [testReferences], or no [preferences], leaves the catalogue,
    or the preferences, as they are. Any other payload changes nothing.
    For a payload of the declared type the branch is the one of its
    shape: single member, references only, full profile, or none. *)
Theorem importProfile_frame (data : JSON) (db : DB) (f : faults) :
  let after := final_db (importProfile (Json data) db f) in
  match branch data with
  | FullProfileBranch =>
      (truthy (property_of data "testReferences") = None →
         testReferences after = testReferences db)
      ∧ (truthy (property_of data "preferences") = None →
           preferences after = preferences db)
  | SingleMemberBranch =>
      testReferences after = testReferences db ∧ preferences after = preferences db
  | ReferencesBranch =>
      patients after = patients db ∧ readings after = readings db
      ∧ preferences after = preferences db
  | NoBranch => after = db
  end
  ∧ ∀ payload, as_Payload data = Some payload →
      match classify payload with
      | FullProfile _ _ refs prefs =>
          (refs = None → testReferences after = testReferences db)
          ∧ (prefs = None → preferences after = preferences db)
      | SingleMember _ _ =>
          testReferences after = testReferences db ∧ preferences after = preferences db
      | ReferencesOnly _ =>
          patients after = patients db ∧ readings after = readings db
          ∧ preferences after = preferences db
      | Unrecognised => after = db
      end.
Proof.
  cbv zeta. pose proof (importProfile_frame_branch data db f) as Hbranch.
  cbv zeta in Hbranch. split; [exact Hbranch|].
  intros payload Hpayload. rewrite (branch_classify _ _ Hpayload) in Hbranch.
  destruct data as [| | | | |o]; try done. destruct payload as [ps rs refs prefs p].
  apply as_Payload_truthy in Hpayload as (_ & _ & Hrefs & Hprefs & _).
  unfold property_of in Hbranch.
  destruct (classify _) eqn:Hshape; try done.
  assert (refs0 = refs ∧ prefs0 = prefs) as [-> ->].
  { unfold classify in Hshape. simpl in Hshape.
    destruct ps, rs, p, refs; by simplify_eq. }
  destruct Hbranch as [Hr Hp]. split.
  - intros ->. by apply Hr.
  - intros ->. by apply Hp.
Qed.

(** A payload that is not of the declared type can be written in part.
    The second patient of this profile has no [id]: [put] throws a
    DataError on it, no request fails, nothing aborts the transaction,
    and the first patient stays written. *)
Example importProfile_nameless_record_half_written :
  as_Payload profile_with_a_nameless_record = None
  ∧ importProfile (Json profile_with_a_nameless_record) emptyDB None
    = Thrown DataError (put_patient alice emptyDB) None.
Proof. split; reflexivity. Qed.

(** X16. The import of a payload of the declared type is one unit of
    work. Whatever request fails, [importProfile] either throws and
    leaves the database as it was, or returns and leaves the database
    with everything the shape of the payload prescribes written. *)
Theorem importProfile_atomic (v : JSON) (data : Payload) (db : DB) (f : faults) :
  as_Payload v = Some data →
  (∃ e f', importProfile (Json v) db f = Thrown e db f')
  ∨ (∃ f', importProfile (Json v) db f = Ok () (imported (classify data) db) f'
           ∧ exec (importProfile (Json v)) db = imported (classify data) db).
Proof.
  intros Hdata.
  destruct (importProfile (Json v) db f) as [[] db' f'|e db' f'] eqn:Hrun.
  - right. exists f'. apply steady_importProfile in Hrun.
    destruct (classify data) eqn:Hshape.
    4:{ by rewrite (importProfile_unrecognised v data db None Hdata Hshape) in Hrun. }
    all: rewrite (importProfile_None v data db Hdata) in Hrun by (by rewrite Hshape).
    all: rewrite Hshape in Hrun; injection Hrun as <-.
    all: split; [done|]; unfold exec.
    all: rewrite (importProfile_None v data db Hdata) by (by rewrite Hshape).
    all: by rewrite Hshape.
  - left. exists e, f'. by rewrite (importProfile_thrown_nothing _ _ _ _ _ _ _ Hdata Hrun).
Qed.

Lemma importProfile_atomic_witness :
  as_Payload member_snapshot = Some member_payload
  ∧ importProfile (Json member_snapshot) emptyDB (Some 1) = Thrown StorageFault emptyDB None
  ∧ ((∃ e f', importProfile (Json member_snapshot) emptyDB (Some 1) = Thrown e emptyDB f')
     ∨ (∃ f', importProfile (Json member_snapshot) emptyDB (Some 1)
              = Ok () (imported (classify member_payload) emptyDB) f'
              ∧ exec (importProfile (Json member_snapshot)) emptyDB
                = imported (classify member_payload) emptyDB)).
Proof.
  split; [reflexivity|]. split; [reflexivity|].
  apply (importProfile_atomic member_snapshot member_payload emptyDB (Some 1)).
  reflexivity.
Defined.

(** ** Saving preferences one after the other *)

Lemma savePreferences_None prefs db :
  savePreferences prefs db None
  = Ok () (put_preferences
             (spread (default no_preferences (preferences db !! "user_prefs")) prefs)
             "user_prefs" db) None.
Proof. done. Qed.

Lemma spread_assoc e p1 p2 : spread (spread e p1) p2 = spread e (spread_given p1 p2).
Proof.
  unfold spread, spread_given. simpl.
  by destruct (given_sortMembersBy p2), (given_filterMembersQuery p2),
    (given_sortTestsBy p2), (given_filterTestsQuery p2).
Qed.

(** X17. Two saves of preferences in a row leave the database that one
    save of the two objects spread into one, the second over the first,
    leaves; a property the second object has with the value [undefined]
    counts as given. In particular saving the same preferences twice is
    saving them once. *)
Theorem savePreferences_twice (p1 p2 : GivenPreferences) (db : DB) :
  exec (savePreferences p2) (exec (savePreferences p1) db)
  = exec (savePreferences (spread_given p1 p2)) db
  ∧ exec (savePreferences p1) (exec (savePreferences p1) db)
    = exec (savePreferences p1) db.
Proof.
  assert (∀ q1 q2,
            exec (savePreferences q2) (exec (savePreferences q1) db)
            = exec (savePreferences (spread_given q1 q2)) db) as Htwice.
  { intros q1 q2. unfold exec. rewrite !savePreferences_None. simpl.
    rewrite lookup_insert_eq. simpl. rewrite spread_assoc.
    unfold put_preferences, with_preferences. simpl. by rewrite insert_insert_eq. }
  split; [apply Htwice|]. rewrite Htwice. f_equal. f_equal.
  unfold spread_given. destruct p1 as [[] [] [] []]; done.
Qed.

(** X18. The page handlers save one property each ([sortMembersBy],
    [filterMembersQuery], [sortTestsBy], [filterTestsQuery]). Two saves
    of preferences objects that have no property in common leave the
    same database in either order. *)
Theorem savePreferences_commute (p1 p2 : GivenPreferences) (db : DB) :
  disjoint_preferences p1 p2 →
  exec (savePreferences p2) (exec (savePreferences p1) db)
  = exec (savePreferences p1) (exec (savePreferences p2) db).
Proof.
  intros (H1 & H2 & H3 & H4).
  unfold exec. rewrite !savePreferences_None. simpl.
  rewrite !lookup_insert_eq. simpl.
  unfold put_preferences, with_preferences. simpl. rewrite !insert_insert_eq.
  do 2 f_equal. unfold spread. simpl.
  destruct H1 as [-> | ->], H2 as [-> | ->], H3 as [-> | ->], H4 as [-> | ->];
    simpl; f_equal;
    repeat match goal with |- context [match ?x with _ => _ end] => destruct x end;
    done.
Qed.

(** The witness saves like [handleSortChange] and [handleFilterChange] of
    the dashboard. Two objects that both have [sortMembersBy], one of them
    with the value [undefined], are not disjoint, and their saves do not
    commute. *)
Lemma savePreferences_commute_witness :
  let sort := {| given_sortMembersBy := Some (Some ByAge);
                 given_filterMembersQuery := None;
                 given_sortTestsBy := None; given_filterTestsQuery := None |} in
  let filter := {| given_sortMembersBy := None;
                   given_filterMembersQuery := Some (Some "ali");
                   given_sortTestsBy := None; given_filterTestsQuery := None |} in
  let undefined := {| given_sortMembersBy := Some None;
                      given_filterMembersQuery := None;
                      given_sortTestsBy := None; given_filterTestsQuery := None |} in
  disjoint_preferences sort filter
  ∧ exec (savePreferences filter) (exec (savePreferences sort) emptyDB)
    = exec (savePreferences sort) (exec (savePreferences filter) emptyDB)
  ∧ ¬ disjoint_preferences sort undefined
  ∧ exec (savePreferences undefined) (exec (savePreferences sort) emptyDB)
    ≠ exec (savePreferences sort) (exec (savePreferences undefined) emptyDB).
Proof.
  cbv zeta. split; [repeat split; (by left) || (by right)|].
  split; [apply savePreferences_commute; repeat split; (by left) || (by right)|].
  split; [by intros ([?|?] & _)|].
  intros H. apply (f_equal (λ d, sortMembersBy <$> preferences d !! "user_prefs")) in H.
  vm_compute in H. discriminate H.
Defined.

(** ** References accumulate *)

Lemma catalogued_put_testReference k ref db :
  is_Some (testReferences db !! k) →
  is_Some (testReferences (put_testReference ref db) !! k).
Proof. intros H. simpl. rewrite lookup_insert_is_Some'. by right. Qed.

#[global] Hint Extern 2 (invariant (λ d, is_Some (testReferences d !! _)) (write _)) =>
  apply invariant_write; intros ?;
  first [ apply catalogued_put_testReference | exact (λ H, H) ] : invariant.
#[global] Hint Extern 2 (invariant (λ d, is_Some (testReferences d !! _)) (put_value _ _ _)) =>
  apply invariant_put_value; intros ??;
  first [ apply catalogued_put_testReference | exact (λ H, H) ] : invariant.
#[global] Hint Extern 2
    (invariant (λ d, is_Some (testReferences d !! _)) (put_preferences_value _ _)) =>
  apply invariant_put_preferences_value; intros ??; exact (λ H, H) : invariant.

(** X19. No operation of the store removes a reference. An id the
    catalogue has, it still has after any run, failed or not, of
    [savePatient], [deletePatient], [saveReading], [bulkSaveReadings],
    [saveTestReference], [savePreferences], [importProfile] and the
    seeding of [initDB]: the record under the id may be replaced, never
    deleted. *)
Theorem references_accumulate (k : string) :
  let catalogued := λ d : DB, is_Some (testReferences d !! k) in
  (∀ p, invariant catalogued (savePatient p))
  ∧ (∀ id, invariant catalogued (deletePatient id))
  ∧ (∀ r, invariant catalogued (saveReading r))
  ∧ (∀ rs, invariant catalogued (bulkSaveReadings rs))
  ∧ (∀ ref, invariant catalogued (saveTestReference ref))
  ∧ (∀ prefs, invariant catalogued (savePreferences prefs))
  ∧ (∀ text, invariant catalogued (importProfile text))
  ∧ (∀ defaultTests, invariant catalogued (initDB defaultTests)).
Proof.
  cbv zeta. repeat apply conj; intros x.
  - unfold savePatient. auto with invariant.
  - unfold deletePatient. auto 10 with invariant.
  - unfold saveReading. auto 10 with invariant.
  - unfold bulkSaveReadings. auto 10 with invariant.
  - unfold saveTestReference. auto with invariant.
  - unfold savePreferences, getPreferences. auto 10 with invariant.
  - unfold importProfile, JSON_parse.
    apply invariant_try_catch; [|auto with invariant].
    apply invariant_bind; [destruct x; auto with invariant|]. intros data.
    auto 20 with invariant.
  - unfold initDB. auto 10 with invariant.
Qed.

(** ** Seeding the catalogue *)

Lemma foldl_insert_is_Some {V} (key_of : V → string) (l : list V) (m : gmap string V) v :
  v ∈ l → is_Some (foldl (λ m' v', <[key_of v' := v']> m') m l !! key_of v).
Proof.
  induction l as [|d ds IH] using rev_ind; intros Hin.
  { by apply not_elem_of_nil in Hin. }
  rewrite foldl_snoc. apply lookup_insert_is_Some'.
  apply elem_of_app in Hin as [Hin|Hin%list_elem_of_singleton].
  - right. by apply IH.
  - left. by subst.
Qed.

Lemma initDB_None_empty defaultTests db :
  testReferences db = ∅ →
  initDB defaultTests db None = Ok () (upsert_testReferences defaultTests db) None.
Proof.
  intros Hempty. unfold initDB, mbind, M_bind, read, transaction.
  rewrite Hempty, map_size_empty. simpl.
  by rewrite for_of_write_None.
Qed.

Lemma initDB_seeded defaultTests db f :
  testReferences db ≠ ∅ → initDB defaultTests db f = Ok () db f.
Proof.
  intros Hne%map_size_non_empty_iff. unfold initDB, mbind, M_bind, read.
  by rewrite decide_False.
Qed.

(** X20. Seeding never overwrites: on a database whose catalogue has any
    reference at all, the seeding of [initDB] writes nothing and returns,
    whatever the default catalogue and whatever would fail. *)
Theorem initDB_keeps_catalogue (defaultTests : list TestReference) (db : DB) (f : faults) :
  testReferences db ≠ ∅ →
  initDB defaultTests db f = Ok () db f.
Proof. apply initDB_seeded. Qed.

Lemma initDB_keeps_catalogue_witness :
  testReferences alice_db ≠ ∅
  ∧ initDB [catalogued_hemoglobin] alice_db (Some 0) = Ok () alice_db (Some 0).
Proof.
  assert (testReferences alice_db ≠ ∅) as Hne.
  { intros H. apply (f_equal (λ m, m !! "hemoglobin")) in H. vm_compute in H.
    discriminate H. }
  split; [exact Hne|]. by apply initDB_keeps_catalogue.
Defined.

(** X21. On an empty catalogue the seeding is one unit of work: with no
    request failing it completes having put every default reference, so
    that each default id is catalogued, and the other stores are as they
    were; and whatever request fails, the database is left as it was or
    with all the defaults put. *)
Theorem initDB_seeds_empty_catalogue (defaultTests : list TestReference) (db : DB) :
  testReferences db = ∅ →
  ∃ db',
    initDB defaultTests db None = Ok () db' None
    ∧ testReferences db' = upserted ref_id defaultTests
    ∧ (∀ ref, ref ∈ defaultTests → is_Some (testReferences db' !! ref_id ref))
    ∧ patients db' = patients db ∧ readings db' = readings db
    ∧ preferences db' = preferences db
    ∧ ∀ f, final_db (initDB defaultTests db f) = db
           ∨ final_db (initDB defaultTests db f) = db'.
Proof.
  intros Hempty. exists (upsert_testReferences defaultTests db).
  split; [by apply initDB_None_empty|].
  destruct (upsert_testReferences_frame defaultTests db) as (Fp & Fr & Fpref).
  assert (testReferences (upsert_testReferences defaultTests db)
          = upserted ref_id defaultTests) as Hrefs.
  { rewrite upsert_testReferences_stores. simpl.
    rewrite foldl_insert_union, Hempty. apply (right_id_L ∅ (∪)). }
  split; [done|]. split.
  { intros ref Hin. rewrite upsert_testReferences_stores. simpl.
    by apply foldl_insert_is_Some. }
  split; [done|]. split; [done|]. split; [done|].
  intros f. destruct (initDB defaultTests db f) as [[] db' f'|e db' f'] eqn:Hrun; simpl.
  - right. assert (steady (initDB defaultTests)) as Hs
      by (unfold initDB; auto 10 with steady).
    apply Hs in Hrun. rewrite initDB_None_empty in Hrun by done. congruence.
  - left. revert Hrun. unfold initDB, mbind, M_bind, read.
    rewrite Hempty, map_size_empty. simpl.
    apply transaction_thrown. auto with faults_only.
Qed.

Lemma initDB_seeds_empty_catalogue_witness :
  testReferences emptyDB = ∅
  ∧ ∃ db',
      initDB [catalogued_hemoglobin] emptyDB None = Ok () db' None
      ∧ is_Some (testReferences db' !! "cbc-hb").
Proof.
  split; [reflexivity|].
  destruct (initDB_seeds_empty_catalogue [catalogued_hemoglobin] emptyDB)
    as (db' & Hrun & _ & Hall & _); [reflexivity|].
  exists db'. split; [exact Hrun|]. apply (Hall catalogued_hemoglobin). left.
Defined.

(** X22. Seeding again changes nothing: the database after two seedings
    (no request failing) is the database after one, whatever the default
    catalogue and whatever the database. *)
Theorem initDB_idempotent (defaultTests : list TestReference) (db : DB) :
  exec (initDB defaultTests) (exec (initDB defaultTests) db)
  = exec (initDB defaultTests) db.
Proof.
  destruct (decide (testReferences db = ∅)) as [Hempty|Hne].
  - unfold exec at 2 3. rewrite initDB_None_empty by done. simpl.
    set (db1 := upsert_testReferences defaultTests db).
    destruct (decide (testReferences db1 = ∅)) as [Hempty1|Hne1].
    + unfold exec. rewrite initDB_None_empty by done. simpl.
      destruct (upsert_testReferences_frame defaultTests db1) as (Fp & Fr & Fpref).
      apply DB_eq; try done.
      unfold db1. rewrite !upsert_testReferences_stores. simpl.
      rewrite !foldl_insert_union. apply union_union_same.
    + unfold exec. by rewrite initDB_seeded.
  - unfold exec. rewrite (initDB_seeded _ db) by done. simpl.
    by rewrite initDB_seeded.
Qed.

(** ** The pages *)

Section Pages.
Variable parseFloat : string → spec_float.
Variable toISOString : string → option string.
Variable uuidv4 : nat → string.

(** X23. The bulk paste never throws: every error, of the parse or of the
    storage, is caught and alerted. It returns at once exactly when the
    patient id is missing or empty or the text is blank; it alerts only
    with the database as it was; and it navigates to the patient's page
    only once every pasted line, parsed, has been saved: no pasted line
    is malformed, the readings saved are the ones the parse makes of all
    the pasted lines, one per line and in their order, the database is
    the one [bulkSaveReadings] leaves of them with no request failing,
    and it has a reading under the id of each of them. *)
Theorem handleBulkSubmit_never_throws (id : option string) (bulkText : string)
    (db : DB) (f : faults) :
  ∃ outcome db' f',
    handleBulkSubmit parseFloat toISOString uuidv4 id bulkText db f = Ok outcome db' f'
    ∧ (outcome = Ignored ↔ id = None ∨ id = Some "" ∨ trim bulkText = "")
    ∧ match outcome with
      | Ignored | Alerted _ => db' = db
      | Navigated path =>
          ∃ id' rs, id = Some id' ∧ path = "/patient/" ++ id'
            ∧ Forall (λ line, ¬ malformed toISOString line) (pasted_lines bulkText)
            ∧ map_lines parseFloat toISOString uuidv4 id' 0 (pasted_lines bulkText) db f
              = Ok rs db f
            ∧ length rs = length (pasted_lines bulkText)
            ∧ bulkSaveReadings rs db f = Ok () db' f'
            ∧ db' = exec (bulkSaveReadings rs) db
            ∧ ∀ r, r ∈ rs → is_Some (readings db' !! r_id r)
      end.
Proof.
  unfold handleBulkSubmit. destruct id as [id|].
  2:{ eexists _, _, _. split; [done|]. split; [|done]. split; auto. }
  case_decide as Hguard.
  { eexists _, _, _. split; [done|]. split; [|done]. split; [|done].
    intros _. destruct Hguard as [->|?]; auto. }
  unfold try_catch, mbind, M_bind. fold (pasted_lines bulkText).
  assert (∀ u : ui, u ≠ Ignored →
            (u = Ignored ↔ Some id = None ∨ Some id = Some "" ∨ trim bulkText = ""))
    as Hnot.
  { intros u Hu. split; [done|]. intros [?|[[= ->]|?]]; [done|..]; destruct Hguard; auto. }
  destruct (map_lines_pure parseFloat toISOString uuidv4 id 0 (pasted_lines bulkText) db f)
    as [(rs & Hparse & Hlen & Hall)|(e & -> & _)].
  2:{ eexists _, _, _. split; [done|]. split; [by apply Hnot|done]. }
  rewrite Hparse.
  destruct (bulkSaveReadings rs db f) as [[] db' f'|e db' f'] eqn:Hrun.
  - eexists _, _, _. split; [done|]. split; [by apply Hnot|].
    exists id, rs. do 6 (split; [done|]).
    apply steady_bulkSaveReadings in Hrun.
    split; [unfold exec; by rewrite Hrun|].
    rewrite bulkSaveReadings_None in Hrun. injection Hrun as <-.
    intros r Hr. by apply bulk_saved_all.
  - eexists _, _, _. split; [done|]. split; [by apply Hnot|].
    simpl. by eapply thrown_bulkSaveReadings.
Qed.

(** The readings the parse makes of the lines. *)
Lemma map_lines_fields id i lines db f rs :
  map_lines parseFloat toISOString uuidv4 id i lines db f = Ok rs db f →
  r_id <$> rs = uuidv4 <$> seq i (length lines)
  ∧ ∀ j line, lines !! j = Some line →
      ∃ r, rs !! j = Some r
        ∧ r_id r = uuidv4 (i + j)
        ∧ r_patientId r = id
        ∧ r_testName r = default "" ((trim <$> split "," line) !! 0)
        ∧ r_unit r = default "" ((trim <$> split "," line) !! 2).
Proof.
  revert i rs. induction lines as [|line lines IH]; intros i rs; simpl.
  { intros [= <-]. split; [done|]. intros j l Hj. done. }
  unfold mbind, M_bind.
  destruct (parse_line parseFloat toISOString uuidv4 id i line db f)
    as [r db1 f1|] eqn:Hline; [|done].
  assert (db1 = db ∧ f1 = f) as [-> ->].
  { destruct (parse_line_pure parseFloat toISOString uuidv4 id i line db f)
      as [(r' & Hr' & _)|(e & He & _)]; rewrite Hline in *; by simplify_eq. }
  destruct (map_lines parseFloat toISOString uuidv4 id (S i) lines db f)
    as [rs1 db2 f2|] eqn:Hrest; [|done].
  assert (db2 = db ∧ f2 = f) as [-> ->].
  { destruct (map_lines_pure parseFloat toISOString uuidv4 id (S i) lines db f)
      as [(rs' & Hrs' & _)|(e & He & _)]; rewrite Hrest in *; by simplify_eq. }
  intros [= <-]. destruct (IH _ _ Hrest) as [Hids Hfields].
  assert (r_id r = uuidv4 i ∧ r_patientId r = id
          ∧ r_testName r = default "" ((trim <$> split "," line) !! 0)
          ∧ r_unit r = default "" ((trim <$> split "," line) !! 2)) as Hr.
  { revert Hline. unfold parse_line. cbv zeta. case_decide; [done|].
    destruct (toISOString _); [|done]. by intros [= <-]. }
  split.
  - rewrite fmap_cons, Hids. simpl. by destruct Hr as [-> _].
  - intros [|j] l Hj; simpl in *.
    + injection Hj as <-. exists r. rewrite Nat.add_0_r. by split.
    + destruct (Hfields j l Hj) as (r' & Hr' & Hid & Hrest').
      exists r'. split; [done|]. split; [|done]. rewrite Hid. f_equal. lia.
Qed.

(** X24. Every pasted line becomes a reading of the patient. When the
    identifiers drawn are distinct and the bulk paste ends by navigating,
    the j-th pasted line is stored under the j-th identifier, as a
    reading of the patient whose page it is, with the trimmed first field
    as its test name and the trimmed third field as its unit. *)
Theorem handleBulkSubmit_stores_each_line (id bulkText path : string)
    (db db' : DB) (f f' : faults) :
  (∀ i j, uuidv4 i = uuidv4 j → i = j) →
  handleBulkSubmit parseFloat toISOString uuidv4 (Some id) bulkText db f
    = Ok (Navigated path) db' f' →
  ∀ j line, pasted_lines bulkText !! j = Some line →
    ∃ r, readings db' !! uuidv4 j = Some r
      ∧ r_id r = uuidv4 j
      ∧ r_patientId r = id
      ∧ r_testName r = default "" ((trim <$> split "," line) !! 0)
      ∧ r_unit r = default "" ((trim <$> split "," line) !! 2).
Proof.
  intros Hinj. unfold handleBulkSubmit. case_decide; [done|].
  unfold try_catch, mbind, M_bind. fold (pasted_lines bulkText).
  destruct (map_lines parseFloat toISOString uuidv4 id 0 (pasted_lines bulkText) db f)
    as [rs db1 f1|] eqn:Hparse; [|done].
  assert (db1 = db ∧ f1 = f) as [-> ->].
  { destruct (map_lines_pure parseFloat toISOString uuidv4 id 0 (pasted_lines bulkText) db f)
      as [(rs' & Hrs' & _)|(e & He & _)]; rewrite Hparse in *; by simplify_eq. }
  destruct (bulkSaveReadings rs db f) as [[] db2 f2|] eqn:Hrun; [|done].
  intros [= _ <- _] j line Hj.
  apply steady_bulkSaveReadings in Hrun. rewrite bulkSaveReadings_None in Hrun.
  injection Hrun as <-.
  destruct (map_lines_fields _ _ _ _ _ _ Hparse) as [Hids Hfields].
  destruct (Hfields j line Hj) as (r & Hr & Hid & Hrest). simpl in Hid.
  exists r. split; [|done]. rewrite <- Hid. apply bulk_saved_each.
  - rewrite Hids. apply NoDup_fmap_2; [|apply NoDup_seq].
    intros a b. apply Hinj.
  - by eapply list_elem_of_lookup_2.
Qed.

(** X25. The single-entry form. It returns at once, writing nothing,
    when the patient id, the test name, the value, the unit or the date
    is empty. Otherwise a date that does not parse makes it throw with
    nothing written; and with a date that parses and no request failing
    it saves one reading, under the identifier drawn, of that patient,
    whose test name and unit are the typed ones trimmed, and navigates to
    the patient's page. The fields are tested before they are trimmed: a
    test name of white space only is saved as the empty name. *)
Theorem handleSingleSubmit_outcomes (id : string) (form : ReadingForm) (db : DB) :
  if decide (id = "" ∨ form_testName form = "" ∨ form_value form = ""
             ∨ form_unit form = "" ∨ form_date form = "")
  then ∀ f, handleSingleSubmit parseFloat toISOString uuidv4 (Some id) form db f
            = Ok Ignored db f
  else match toISOString (form_date form) with
       | None =>
           ∀ f, handleSingleSubmit parseFloat toISOString uuidv4 (Some id) form db f
                = Thrown RangeError db f
       | Some date =>
           ∃ reading db',
             handleSingleSubmit parseFloat toISOString uuidv4 (Some id) form db None
             = Ok (Navigated ("/patient/" ++ id)) db' None
             ∧ db' = exec (saveReading reading) db
             ∧ readings db' !! uuidv4 0 = Some reading
             ∧ r_id reading = uuidv4 0
             ∧ r_patientId reading = id
             ∧ r_testName reading = trim (form_testName form)
             ∧ r_unit reading = trim (form_unit form)
             ∧ r_date reading = date
       end.
Proof.
  unfold handleSingleSubmit. case_decide as Hguard; [done|].
  destruct (toISOString (form_date form)) as [date|]; [|done].
  eexists _, _. unfold mbind at 1, M_bind at 1. rewrite saveReading_None.
  split; [reflexivity|]. unfold exec. rewrite saveReading_None. simpl.
  split; [reflexivity|]. split; [|done].
  rewrite readings_with_reading. apply lookup_insert_eq.
Qed.
End Pages.

Lemma sample_uuid_length n : String.length (sample_uuid n) = n.
Proof. unfold sample_uuid. induction n as [|n IH]; simpl; [done | by rewrite IH]. Qed.

Lemma handleBulkSubmit_stores_each_line_witness :
  let run := handleBulkSubmit (λ _, S754_finite false 27 (-1)) (λ s, Some s) sample_uuid
               (Some "A1") "Hemoglobin, 13.5, g/dL, 2026-01-01" emptyDB None in
  (∀ i j, sample_uuid i = sample_uuid j → i = j)
  ∧ returned run = Some (Navigated "/patient/A1")
  ∧ ∃ r, readings (final_db run) !! sample_uuid 0 = Some r
      ∧ r_patientId r = "A1"
      ∧ r_testName r = "Hemoglobin".
Proof.
  cbv zeta.
  assert (∀ i j, sample_uuid i = sample_uuid j → i = j) as Hinj.
  { intros i j H. apply (f_equal String.length) in H.
    by rewrite !sample_uuid_length in H. }
  split; [exact Hinj|]. split; [reflexivity|].
  destruct (handleBulkSubmit_stores_each_line
              (λ _, S754_finite false 27 (-1)) (λ s, Some s) sample_uuid
              "A1" "Hemoglobin, 13.5, g/dL, 2026-01-01" "/patient/A1"
              emptyDB _ None None Hinj eq_refl 0 _ eq_refl)
    as (r & Hr & _ & Hp & Hname & _).
  exists r. split; [exact Hr|]. split; [exact Hp | exact Hname].
Defined.

(** X26. Adding a member. A name that is blank once trimmed adds nobody:
    nothing is written, whatever would fail. Otherwise, with no request
    failing, the patient is stored under the identifier drawn, with the
    trimmed name, no other patient record changes, and the other three
    stores are as they were. *)
Theorem handleAddMember_adds_one (parseInt : string → spec_float) (uuidv4 : nat → string)
    (newMemberName newMemberAge : string) (db : DB) :
  if decide (trim newMemberName = "")
  then ∀ f, handleAddMember parseInt uuidv4 newMemberName newMemberAge db f = Ok () db f
  else ∃ db' member,
         handleAddMember parseInt uuidv4 newMemberName newMemberAge db None
         = Ok () db' None
         ∧ patients db' !! uuidv4 0 = Some member
         ∧ p_id member = uuidv4 0
         ∧ p_name member = trim newMemberName
         ∧ (newMemberAge = "" → p_age member = None)
         ∧ (∀ k, k ≠ uuidv4 0 → patients db' !! k = patients db !! k)
         ∧ readings db' = readings db
         ∧ testReferences db' = testReferences db
         ∧ preferences db' = preferences db.
Proof.
  unfold handleAddMember. case_decide as Hblank; [done|].
  exists (put_patient (new_member parseInt uuidv4 newMemberName newMemberAge) db),
    (new_member parseInt uuidv4 newMemberName newMemberAge).
  split; [done|]. split; [apply lookup_insert_eq|].
  repeat split; try done.
  - intros ->. done.
  - intros k Hk. simpl. by rewrite lookup_insert_ne.
Qed.

(** X27. Importing a file from the settings page never throws: a failed
    import is caught and reported. With no file chosen nothing happens.
    It reports success exactly when [importProfile] returns, and the
    database is then what the import without faults leaves. It reports
    a failure exactly when [importProfile] throws, and the database is
    then as it was when the file is no JSON or holds a payload of the
    declared type, whatever failed. *)
Theorem handleImport_reports (file : option JsonText) (db : DB) (f : faults) :
  ∃ notice db' f',
    handleImport file db f = Ok notice db' f'
    ∧ match notice with
      | NoFile => file = None ∧ db' = db
      | ImportFailed =>
          ∃ text e, file = Some text
            ∧ importProfile text db f = Thrown e db' f'
            ∧ (text = NotJson → db' = db)
            ∧ (∀ v data, text = Json v → as_Payload v = Some data → db' = db)
      | ImportSuccessful =>
          ∃ text, file = Some text
            ∧ importProfile text db f = Ok () db' f'
            ∧ db' = exec (importProfile text) db
      end.
Proof.
  unfold handleImport. destruct file as [text|].
  2:{ by eexists _, _, _. }
  unfold try_catch, mbind, M_bind.
  destruct (importProfile text db f) as [[] db' f'|e db' f'] eqn:Hrun.
  - eexists _, _, _. split; [done|]. exists text. do 2 (split; [done|]).
    apply steady_importProfile in Hrun. unfold exec. by rewrite Hrun.
  - eexists _, _, _. split; [done|]. simpl. exists text, e. do 2 (split; [done|]).
    split.
    + intros ->. rewrite importProfile_not_json in Hrun. congruence.
    + intros v data -> Hdata. by eapply importProfile_thrown_nothing.
Qed.

(** A file that is not of the declared type can be reported as failed
    with part of it written. *)
Example handleImport_failure_half_written :
  handleImport (Some (Json profile_with_a_nameless_record)) emptyDB None
  = Ok ImportFailed (put_patient alice emptyDB) None.
Proof. reflexivity. Qed.

(** ** The derived identifier *)

Lemma lower_char_fixed c :
  lower_char (lower_char c) = lower_char c
  ∧ is_space (lower_char c) = is_space c.
Proof. destruct c as [[] [] [] [] [] [] [] []]; by vm_compute. Qed.

Lemma no_space_replace_spaces in_run s : no_space (replace_spaces in_run s) = true.
Proof.
  revert in_run. induction s as [|c s IH]; intros in_run; simpl; [done|].
  destruct (is_space c) eqn:Hc.
  - destruct in_run; simpl; [apply IH | by rewrite IH].
  - simpl. by rewrite Hc, IH.
Qed.

Lemma replace_spaces_no_space s : no_space s = true → replace_spaces false s = s.
Proof.
  induction s as [|c s IH]; simpl; [done|].
  destruct (is_space c); simpl; [done|]. intros Hs. by rewrite IH.
Qed.

Lemma toLowerCase_replace_spaces in_run s :
  toLowerCase (replace_spaces in_run (toLowerCase s))
  = replace_spaces in_run (toLowerCase s).
Proof.
  revert in_run. induction s as [|c s IH]; intros in_run; simpl; [done|].
  destruct (lower_char_fixed c) as [Hfix _].
  destruct (is_space (lower_char c)); [destruct in_run|]; simpl;
    rewrite ?IH, ?Hfix; done.
Qed.

(** X28. The id derived from a test name has no white-space character,
    and is its own derived id: deriving again from the id gives the id. *)
Theorem derived_id_is_a_slug (testName : string) :
  no_space (derived_id testName) = true
  ∧ derived_id (derived_id testName) = derived_id testName.
Proof.
  unfold derived_id. split; [apply no_space_replace_spaces|].
  rewrite toLowerCase_replace_spaces.
  apply replace_spaces_no_space, no_space_replace_spaces.
Qed.

(** ** A reference saved by hand *)

(** X29. A reference saved with [saveTestReference] is not derived
    again: saving afterwards a reading of the same test name (no request
    failing) leaves the catalogue as the save of the reference left it,
    with the reference still under its id, whatever unit and bounds the
    reading carries. *)
Theorem saved_reference_is_not_rederived (ref : TestReference) (r : TestReading) (db : DB) :
  r_testName r = ref_testName ref →
  ∃ db1 db2,
    saveTestReference ref db None = Ok () db1 None
    ∧ saveReading r db1 None = Ok () db2 None
    ∧ testReferences db2 = testReferences db1
    ∧ testReferences db2 !! ref_id ref = Some ref.
Proof.
  intros Hname. exists (put_testReference ref db), (with_reading r (put_testReference ref db)).
  split; [done|]. split; [apply saveReading_None|].
  assert (testReferences (with_reading r (put_testReference ref db))
          = testReferences (put_testReference ref db)) as Hrefs.
  { apply testReferences_with_reading_known. intros Hnil.
    apply (proj1 (index_getAll_nil _ _ _) Hnil (ref_id ref) ref); [|done].
    simpl. apply lookup_insert_eq. }
  split; [done|]. rewrite Hrefs. simpl. apply lookup_insert_eq.
Qed.

Lemma saved_reference_is_not_rederived_witness :
  r_testName R1 = ref_testName catalogued_hemoglobin
  ∧ ∃ db1 db2,
      saveTestReference catalogued_hemoglobin emptyDB None = Ok () db1 None
      ∧ saveReading R1 db1 None = Ok () db2 None
      ∧ testReferences db2 !! "cbc-hb" = Some catalogued_hemoglobin.
Proof.
  split; [reflexivity|].
  destruct (saved_reference_is_not_rederived catalogued_hemoglobin R1 emptyDB)
    as (db1 & db2 & H1 & H2 & _ & H3); [reflexivity|].
  exists db1, db2. split; [exact H1|]. split; [exact H2 | exact H3].
Defined.

(** ** Moving to an empty database *)



